(** * MyoIMUGestureController: gesture cache, classifier and lock controller

    A shallow embedding of [src/include/gestureAnalysis.cpp],
    [src/include/matrix.cpp] and [src/MyoIMUGestureController.cpp].

    Target: the library is an Arduino (AVR) library.  On avr-gcc both [float]
    and [double] are 32-bit floats, [int] and [short] are 16 bits and [long]
    is 32 bits.  Floating point is modelled as IEEE-754 binary32 arithmetic,
    the standard library's [SpecFloat] at precision 24: every operation
    rounds to nearest even, with the IEEE treatment of NaN, infinities and
    signed zeros.  Integers are [Z]; the values the code computes stay within
    their C types, except the [unsigned long] clock sums, whose wrap-around
    is written out.  [millis()] is an input: each handler takes the readings
    it makes. *)

From Stdlib Require Import ZArith List Bool Lia.
From Stdlib Require Import Floats.SpecFloat.
From Stdlib Require String.
Import ListNotations.

Local Open Scope Z_scope.

(** ** binary32 arithmetic *)

Module F32.

Definition prec : Z := 24.
Definition emax : Z := 128.

Definition add : spec_float -> spec_float -> spec_float := SFadd prec emax.
Definition sub : spec_float -> spec_float -> spec_float := SFsub prec emax.
Definition mul : spec_float -> spec_float -> spec_float := SFmul prec emax.
Definition div : spec_float -> spec_float -> spec_float := SFdiv prec emax.
Definition sqrt : spec_float -> spec_float := SFsqrt prec emax.
Definition opp : spec_float -> spec_float := SFopp.

(** The C comparisons; each one is false as soon as an operand is NaN. *)
Definition ltb (a b : spec_float) : bool := SFltb a b.
Definition leb (a b : spec_float) : bool := SFleb a b.
Definition gtb (a b : spec_float) : bool := SFltb b a.
Definition geb (a b : spec_float) : bool := SFleb b a.

(** Conversion of an integer ([(float) n], and integer literals). *)
Definition of_Z (n : Z) : spec_float := binary_normalize prec emax n 0 false.

(** The decimal literal [n / d], for [n] and [d] below [2^24]: both
    convert exactly, so the correctly rounded quotient is the binary32
    number closest to the literal. *)
Definition of_dec (n d : Z) : spec_float := div (of_Z n) (of_Z d).

Definition zero : spec_float := S754_zero false.

Definition is_zero (a : spec_float) : bool :=
  match a with S754_zero _ => true | _ => false end.

End F32.

Definition float : Type := spec_float.

Declare Scope f32_scope.
Delimit Scope f32_scope with f32.
Infix "+" := F32.add : f32_scope.
Infix "-" := F32.sub : f32_scope.
Infix "*" := F32.mul : f32_scope.
Infix "/" := F32.div : f32_scope.
Infix "<?" := F32.ltb : f32_scope.
Infix "<=?" := F32.leb : f32_scope.
Infix ">?" := F32.gtb : f32_scope.
Infix ">=?" := F32.geb : f32_scope.

(** ** Loops and arrays *)

(** [for (int i = lo; ...; i++) body], run [n] times from [i]. *)
Fixpoint for_from {A : Type} (n : nat) (i : Z) (body : Z -> A -> A) (a : A) : A :=
  match n with
  | O => a
  | S k => for_from k (i + 1) body (body i a)
  end.

(** [for (int i = 0; i < hi; i++) body]. *)
Definition for_lt {A : Type} (hi : Z) (body : Z -> A -> A) (a : A) : A :=
  for_from (Z.to_nat hi) 0 body a.

(** A C array of floats, seen from its base address: cell [i] for every
    offset [i].  The array proper is the cells [0 .. size-1]; the other cells
    are the memory next to it, which the code reads when an index leaves the
    array (see [processCacheData] on an empty cache). *)
Definition cells := Z -> float.

Definition upd (a : cells) (i : Z) (v : float) : cells :=
  fun k => if k =? i then v else a k.

Definition cells_of_list (l : list float) : cells :=
  fun k => if k <? 0 then F32.zero else nth (Z.to_nat k) l F32.zero.

(** ** gestureAnalysis.h *)

Definition GESTURE_CACHE_SIZE : Z := 128.
Definition STRAIGHT_MAX_RELATION : float := F32.of_dec 5 10.
Definition STRAIGHT_MIN_DISTANCE : float := F32.of_dec 3 10.
Definition Y_DEVIATION_CORRECTION : float := F32.of_dec 13 10.
Definition GESTURE_CIRCLE_SAMPLES : Z := 10.
Definition CIRCLE_MIN_DIAMETER : float := F32.of_dec 65 100.
Definition CIRCLE_MAX_DEVIATION : float := F32.of_dec 3 10.
Definition MAX_ENDS_DISCANCE : float := F32.of_dec 4 10.
Definition ROTATION_MAX_VARIANCE : float := F32.of_dec 15 100.

(** Arduino.h: [#define PI 3.1415926535897932384626433832795]; the closest
    binary32 number is [13176795 * 2^-22]. *)
Definition PI : float := S754_finite false 13176795 (-22).
Definition ROTATION_MIN_ANGLE : float := (PI / F32.of_Z 6)%f32.

Inductive GestureType : Type :=
  | ARM_UP
  | ARM_DOWN
  | ARM_LEFT
  | ARM_RIGHT
  | ARM_CIRCLE_CW
  | ARM_CIRCLE_CCW
  | ARM_ROTATE_CW
  | ARM_ROTATE_CCW
  | ARM_UNKNOWN.

Definition GestureType_eqb (a b : GestureType) : bool :=
  match a, b with
  | ARM_UP, ARM_UP | ARM_DOWN, ARM_DOWN | ARM_LEFT, ARM_LEFT
  | ARM_RIGHT, ARM_RIGHT | ARM_CIRCLE_CW, ARM_CIRCLE_CW
  | ARM_CIRCLE_CCW, ARM_CIRCLE_CCW | ARM_ROTATE_CW, ARM_ROTATE_CW
  | ARM_ROTATE_CCW, ARM_ROTATE_CCW | ARM_UNKNOWN, ARM_UNKNOWN => true
  | _, _ => false
  end.

(** ** gestureAnalysis.cpp: the cache *)

(** The three globals of the file. *)
Record GestureCache : Type := mkCache {
  gesture_cache : cells;
  gesture_cache_offset : Z;
  gesture_roll_angle : float
}.

(** Static storage is zero-initialised. *)
Definition initial_cache : GestureCache :=
  {| gesture_cache := fun _ => F32.zero;
     gesture_cache_offset := 0;
     gesture_roll_angle := F32.zero |}.

(** Arduino.h: [#define min(a,b) ((a)<(b)?(a):(b))] and
    [#define max(a,b) ((a)>(b)?(a):(b))]. *)
Definition min (a b : float) : float := if (a <? b)%f32 then a else b.
Definition max (a b : float) : float := if (a >? b)%f32 then a else b.

Definition clip (n lower upper : float) : float := max lower (min n upper).

Definition sqr (a : float) : float := (a * a)%f32.

Definition resetGestureCache (st : GestureCache) : GestureCache :=
  {| gesture_cache := gesture_cache st;
     gesture_cache_offset := 0;
     gesture_roll_angle := F32.zero |}.

Definition gestureBufferFull (st : GestureCache) : bool :=
  gesture_cache_offset st =? GESTURE_CACHE_SIZE.

(** The literal [.99999]. *)
Definition CLIP_BOUND : float := F32.of_dec 99999 100000.

Section WithAsin.

(** [asin] of the platform's math library. *)
Variable asin : float -> float.

Definition updateGestureCache (x y roll_angle : float) (st : GestureCache)
  : GestureCache :=
  let st1 :=
    if gesture_cache_offset st <? GESTURE_CACHE_SIZE then
      let c1 := upd (gesture_cache st) (gesture_cache_offset st)
                    (asin (clip x (F32.opp CLIP_BOUND) CLIP_BOUND)) in
      let c2 := upd c1 (gesture_cache_offset st + 1)
                    (asin (clip y (F32.opp CLIP_BOUND) CLIP_BOUND)) in
      {| gesture_cache := c2;
         gesture_cache_offset := gesture_cache_offset st + 2;
         gesture_roll_angle := gesture_roll_angle st |}
    else st in
  {| gesture_cache := gesture_cache st1;
     gesture_cache_offset := gesture_cache_offset st1;
     gesture_roll_angle := roll_angle |}.

End WithAsin.

Definition getSqrPointDist (x1 y1 x2 y2 : float) : float :=
  (sqr (x1 - x2) + sqr (y1 - y2))%f32.

(** ** gestureAnalysis.cpp: processCacheData, the circle test *)

(** Locals of the sample-point loop (source lines 100-131). *)
Record SampleAcc : Type := mkSampleAcc {
  center_x : float;
  center_y : float;
  sample_point_diameters : cells
}.

(** The inner loop over [i]: the greatest distance from the sample point to a
    recorded point, starting from the value [d] of [sample_point_diameters[j]]. *)
Definition diameter_loop (c : cells) (num_points : Z)
    (point_x point_y : float) (d : float) : float :=
  for_lt num_points
    (fun i d =>
       let dist := F32.sqrt (getSqrPointDist point_x point_y
                               (c (2 * i)) (c (2 * i + 1))) in
       if (dist >? d)%f32 then dist else d)
    d.

(** One turn of the loop over the sample points [j]. *)
Definition sample_step (c : cells) (num_points index_offset : Z)
    (j : Z) (acc : SampleAcc) : SampleAcc :=
  let point_x := c (2 * j * index_offset) in
  let point_y := c (2 * j * index_offset + 1) in
  {| center_x := (center_x acc + point_x)%f32;
     center_y := (center_y acc + point_y)%f32;
     sample_point_diameters :=
       upd (sample_point_diameters acc) j
           (diameter_loop c num_points point_x point_y
                          (sample_point_diameters acc j)) |}.

Definition sample_loop (c : cells) (num_points index_offset : Z) : SampleAcc :=
  for_lt GESTURE_CIRCLE_SAMPLES
    (sample_step c num_points index_offset)
    {| center_x := F32.zero;
       center_y := F32.zero;
       sample_point_diameters := fun _ => F32.zero |}.

(** Locals of the deviation loop (source lines 138-179).  [x_max_index] and
    [x_min_index] are declared [float], [y_max_index] is a [short]. *)
Record TrackAcc : Type := mkTrackAcc {
  circular_deviation : float;
  x_max : float;
  x_max_index : float;
  x_min : float;
  x_min_index : float;
  y_max : float;
  y_max_index : Z
}.

(** One turn of the loop over the recorded points [i]. *)
Definition track_step (c : cells) (ctr_x ctr_y average_radius : float)
    (i : Z) (acc : TrackAcc) : TrackAcc :=
  let x := c (2 * i) in
  let y := c (2 * i + 1) in
  let dist := F32.sqrt (getSqrPointDist ctr_x ctr_y x y) in
  let dev := (circular_deviation acc + sqr (dist - average_radius))%f32 in
  let hx := (x >? x_max acc)%f32 in
  let lx := (x <? x_min acc)%f32 in
  let hy := (y >? y_max acc)%f32 in
  {| circular_deviation := dev;
     x_max := if hx then x else x_max acc;
     x_max_index := if hx then F32.of_Z i else x_max_index acc;
     x_min := if lx then x else x_min acc;
     x_min_index := if lx then F32.of_Z i else x_min_index acc;
     y_max := if hy then y else y_max acc;
     y_max_index := if hy then i else y_max_index acc |}.

Definition track_loop (c : cells) (num_points : Z)
    (ctr_x ctr_y average_radius : float) : TrackAcc :=
  for_lt num_points
    (track_step c ctr_x ctr_y average_radius)
    {| circular_deviation := F32.zero;
       x_max := F32.zero;
       x_max_index := F32.zero;
       x_min := F32.of_Z 1000;
       x_min_index := F32.zero;
       y_max := F32.zero;
       y_max_index := 0 |}.

(** What the circle block computes before its final [if] (lines 133-199). *)
Record CircleFit : Type := mkCircleFit {
  fit_average_radius : float;
  fit_circular_deviation : float;
  fit_ends_distance : float;
  fit_clockwise : bool
}.

Definition circle_fit (c : cells) (num_points index_offset : Z) : CircleFit :=
  let s := sample_loop c num_points index_offset in
  let ctr_x := (center_x s / F32.of_Z GESTURE_CIRCLE_SAMPLES)%f32 in
  let ctr_y := (center_y s / F32.of_Z GESTURE_CIRCLE_SAMPLES)%f32 in
  let radius_sum :=
    for_lt GESTURE_CIRCLE_SAMPLES
      (fun j r => (r + sample_point_diameters s j)%f32) F32.zero in
  let average_radius :=
    (radius_sum / (F32.of_Z GESTURE_CIRCLE_SAMPLES * F32.of_Z 2))%f32 in
  let t := track_loop c num_points ctr_x ctr_y average_radius in
  let deviation :=
    F32.sqrt (circular_deviation t / F32.of_Z num_points)%f32 in
  let ends_distance :=
    F32.sqrt (getSqrPointDist (c 0) (c 1)
                (c (2 * num_points - 2)) (c (2 * num_points - 1))) in
  let cw1 := (x_min_index t <? F32.of_Z (y_max_index t))%f32
             && (F32.of_Z (y_max_index t) <? x_max_index t)%f32 in
  let cw2 := (F32.of_Z (y_max_index t) <? x_max_index t)%f32
             && (x_max_index t <? x_min_index t)%f32 in
  let cw3 := (x_max_index t <? x_min_index t)%f32
             && (x_min_index t <? F32.of_Z (y_max_index t))%f32 in
  {| fit_average_radius := average_radius;
     fit_circular_deviation := deviation;
     fit_ends_distance := ends_distance;
     fit_clockwise := cw1 || cw2 || cw3 |}.

(** The final [if] of the circle block (lines 201-208). *)
Definition circle_accepts (f : CircleFit) : bool :=
  (fit_average_radius f * F32.of_Z 2 >=? CIRCLE_MIN_DIAMETER)%f32
  && (fit_circular_deviation f <=? CIRCLE_MAX_DEVIATION)%f32
  && (fit_ends_distance f <=? MAX_ENDS_DISCANCE)%f32.

(** The circle block: [Some g] when it returns [g], [None] when control
    falls through to the statistics. *)
Definition circle_test (c : cells) (num_points : Z) : option GestureType :=
  let index_offset := Z.quot num_points GESTURE_CIRCLE_SAMPLES in
  if 1 <=? index_offset then
    let f := circle_fit c num_points index_offset in
    if circle_accepts f then
      Some (if fit_clockwise f then ARM_CIRCLE_CW else ARM_CIRCLE_CCW)
    else None
  else None.

(** ** gestureAnalysis.cpp: processCacheData, statistics and the last two tests *)

Record Stats : Type := mkStats {
  x_total : float;
  y_total : float;
  x_deviation : float;
  y_deviation : float
}.

(** The summing loop (lines 215-227). *)
Definition stats_loop (c : cells) (num_points : Z) : Stats :=
  for_lt num_points
    (fun i acc =>
       let x := c (2 * i) in
       let y := c (2 * i + 1) in
       {| x_total := (x_total acc + x)%f32;
          y_total := (y_total acc + y)%f32;
          x_deviation := (x_deviation acc + sqr x)%f32;
          y_deviation := (y_deviation acc + sqr y)%f32 |})
    {| x_total := F32.zero; y_total := F32.zero;
       x_deviation := F32.zero; y_deviation := F32.zero |}.

(** Lines 229-234: both sums divided by the point count, then the y
    deviation corrected. *)
Definition stats (c : cells) (num_points : Z) : Stats :=
  let s := stats_loop c num_points in
  {| x_total := x_total s;
     y_total := y_total s;
     x_deviation := (x_deviation s / F32.of_Z num_points)%f32;
     y_deviation :=
       (y_deviation s / F32.of_Z num_points * Y_DEVIATION_CORRECTION)%f32 |}.

Definition relation (s : Stats) : float := (x_deviation s / y_deviation s)%f32.

(** The divisors of the three divisions of lines 230, 231 and 237, in the
    order they are evaluated. *)
Definition stats_divisors (c : cells) (num_points : Z) : list float :=
  [F32.of_Z num_points; F32.of_Z num_points; y_deviation (stats c num_points)].

(** Lines 243-250. *)
Definition rotation_test (s : Stats) (roll : float) : option GestureType :=
  if (x_deviation s <=? ROTATION_MAX_VARIANCE)%f32
     && (y_deviation s <=? ROTATION_MAX_VARIANCE)%f32
     && (sqr roll >? sqr ROTATION_MIN_ANGLE)%f32
  then Some (if (roll <? F32.zero)%f32 then ARM_ROTATE_CW else ARM_ROTATE_CCW)
  else None.

(** Line 257. *)
Definition end_distance (c : cells) (num_points : Z) : float :=
  F32.sqrt (getSqrPointDist F32.zero F32.zero
              (c (2 * num_points - 2)) (c (2 * num_points - 1))).

(** Lines 259-279. *)
Definition straight_test (s : Stats) (distance : float) : GestureType :=
  if (x_deviation s >? y_deviation s)%f32
     && (relation s >? F32.of_Z 1 / STRAIGHT_MAX_RELATION)%f32
     && (distance >=? STRAIGHT_MIN_DISTANCE)%f32
  then (if (x_total s >? F32.zero)%f32 then ARM_RIGHT else ARM_LEFT)
  else if (y_deviation s >? x_deviation s)%f32
          && (relation s <? STRAIGHT_MAX_RELATION)%f32
          && (distance >=? STRAIGHT_MIN_DISTANCE)%f32
  then (if (y_total s >? F32.zero)%f32 then ARM_UP else ARM_DOWN)
  else ARM_UNKNOWN.

(** Everything after the circle block (lines 211-279). *)
Definition classify_rest (c : cells) (num_points : Z) (roll : float)
  : GestureType :=
  let s := stats c num_points in
  match rotation_test s roll with
  | Some g => g
  | None => straight_test s (end_distance c num_points)
  end.

Definition classify (c : cells) (num_points : Z) (roll : float) : GestureType :=
  match circle_test c num_points with
  | Some g => g
  | None => classify_rest c num_points roll
  end.

(** [processCacheData]: the label, and the globals with the offset cleared
    (lines 92-93).  The division of line 92 is C's, truncating. *)
Definition processCacheData (st : GestureCache) : GestureType * GestureCache :=
  let num_points := Z.quot (gesture_cache_offset st) 2 in
  (classify (gesture_cache st) num_points (gesture_roll_angle st),
   {| gesture_cache := gesture_cache st;
      gesture_cache_offset := 0;
      gesture_roll_angle := gesture_roll_angle st |}).

(** ** matrix.cpp *)

Definition Matrix33 : Type := Z -> Z -> float.

Definition ZERO_MATRIX : Matrix33 := fun _ _ => F32.zero.

Definition mset (m : Matrix33) (i j : Z) (v : float) : Matrix33 :=
  fun i' j' => if (i' =? i) && (j' =? j) then v else m i' j'.

Definition multiply_matrix (a b : Matrix33) (result : Matrix33) : Matrix33 :=
  for_lt 3
    (fun i r =>
       for_lt 3
         (fun j r =>
            for_lt 3
              (fun k r => mset r i j (r i j + a i k * b k j)%f32)
              (mset r i j (F32.of_Z 0)))
         r)
    result.

Definition inverse_matrix (m : Matrix33) : Matrix33 :=
  let determinant :=
    (m 0 0 * (m 1 1 * m 2 2 - m 2 1 * m 1 2)
     - m 0 1 * (m 1 0 * m 2 2 - m 1 2 * m 2 0)
     + m 0 2 * (m 1 0 * m 2 1 - m 1 1 * m 2 0))%f32 in
  let invdet := (F32.of_Z 1 / determinant)%f32 in
  let o00 := ((m 1 1 * m 2 2 - m 2 1 * m 1 2) * invdet)%f32 in
  let o01 := ((m 0 2 * m 2 1 - m 0 1 * m 2 2) * invdet)%f32 in
  let o02 := ((m 0 1 * m 1 2 - m 0 2 * m 1 1) * invdet)%f32 in
  let o10 := ((m 1 2 * m 2 0 - m 1 0 * m 2 2) * invdet)%f32 in
  let o11 := ((m 0 0 * m 2 2 - m 0 2 * m 2 0) * invdet)%f32 in
  let o12 := ((m 1 0 * m 0 2 - m 0 0 * m 1 2) * invdet)%f32 in
  let o20 := ((m 1 0 * m 2 1 - m 2 0 * m 1 1) * invdet)%f32 in
  let o21 := ((m 2 0 * m 0 1 - m 0 0 * m 2 1) * invdet)%f32 in
  let o22 := ((m 0 0 * m 1 1 - m 1 0 * m 0 1) * invdet)%f32 in
  fun i j =>
    match i, j with
    | 0, 0 => o00 | 0, 1 => o01 | 0, 2 => o02
    | 1, 0 => o10 | 1, 1 => o11 | 1, 2 => o12
    | 2, 0 => o20 | 2, 1 => o21 | 2, 2 => o22
    | _, _ => F32.zero
    end.

(** The literal [.999999] of [unit_quaternion_to_matrix]. *)
Definition QUAT_BOUND : float := F32.of_dec 999999 1000000.

(** A raw orientation sample: the four [int16_t] read through [quat[0..3]]. *)
Record Quat : Type := mkQuat { q0 : Z; q1 : Z; q2 : Z; q3 : Z }.

Section WithScale.

(** [MYOHW_ORIENTATION_SCALE] of the Myo protocol header, which the
    MyoBridge library supplies. *)
Variable MYOHW_ORIENTATION_SCALE : float.

Definition unit_quaternion_to_matrix (quat : Quat) : Matrix33 :=
  let cl := fun n : Z =>
    clip (F32.of_Z n / MYOHW_ORIENTATION_SCALE)%f32
         (F32.opp QUAT_BOUND) QUAT_BOUND in
  let x := cl (q0 quat) in
  let y := cl (q1 quat) in
  let z := cl (q2 quat) in
  let w := cl (q3 quat) in
  let one := F32.of_Z 1 in
  let two := F32.of_Z 2 in
  let m00 := (one - two * y * y - two * z * z)%f32 in
  let m01 := (two * x * y - two * w * z)%f32 in
  let m02 := (two * x * z + two * w * y)%f32 in
  let m10 := (two * x * y + two * w * z)%f32 in
  let m11 := (one - two * x * x - two * z * z)%f32 in
  let m12 := (two * y * z - two * w * x)%f32 in
  let m20 := (two * x * z - two * w * y)%f32 in
  let m21 := (two * y * z + two * w * x)%f32 in
  let m22 := (one - two * x * x - two * y * y)%f32 in
  fun i j =>
    match i, j with
    | 0, 0 => m00 | 0, 1 => m01 | 0, 2 => m02
    | 1, 0 => m10 | 1, 1 => m11 | 1, 2 => m12
    | 2, 0 => m20 | 2, 1 => m21 | 2, 2 => m22
    | _, _ => F32.zero
    end.

End WithScale.

(** ** MyoIMUGestureController.h / .cpp *)

Definition EMG_CACHE_SIZE : Z := 10.
Definition EMG_SYNC_TIME : Z := 3000.
Definition LOCK_TOGGLE_THRESHOLD : float := F32.of_dec 5 10.
Definition AFTER_SYNC_WAIT : Z := 500.

(** [unsigned long] arithmetic wraps at 32 bits. *)
Definition wrap32 (n : Z) : Z := n mod 2 ^ 32.

(** What the controller does to the outside: its two callbacks and the
    vibration command of the bridge. *)
Inductive Event : Type :=
  | OnGesture (g : GestureType)
  | OnLockChange (l : bool)
  | Vibrate (n : Z).

(** The static members of the class, and the globals of gestureAnalysis.cpp
    they work on. *)
Record Controller : Type := mkController {
  inverseInitMatrix : Matrix33;
  refresh_init : bool;
  emgCache : list (list Z);
  emgSum : Z;
  emgSync : Z;
  isEMGSynced : bool;
  lock_toggle : bool;
  locked : bool;
  timeConnected : Z;
  gestures : GestureCache
}.

(** The initialisers of lines 26-44; [locked] has none, and static storage
    starts zeroed, so it starts [false]. *)
Definition initial_controller : Controller :=
  {| inverseInitMatrix := ZERO_MATRIX;
     refresh_init := true;
     emgCache := repeat (repeat 0 8%nat) 10%nat;
     emgSum := 0;
     emgSync := 0;
     isEMGSynced := false;
     lock_toggle := true;
     locked := false;
     timeConnected := 0;
     gestures := initial_cache |}.

Definition set_gestures (g : GestureCache) (st : Controller) : Controller :=
  {| inverseInitMatrix := inverseInitMatrix st;
     refresh_init := refresh_init st;
     emgCache := emgCache st;
     emgSum := emgSum st;
     emgSync := emgSync st;
     isEMGSynced := isEMGSynced st;
     lock_toggle := lock_toggle st;
     locked := locked st;
     timeConnected := timeConnected st;
     gestures := g |}.

Definition set_lock (toggle lck : bool) (st : Controller) : Controller :=
  {| inverseInitMatrix := inverseInitMatrix st;
     refresh_init := refresh_init st;
     emgCache := emgCache st;
     emgSum := emgSum st;
     emgSync := emgSync st;
     isEMGSynced := isEMGSynced st;
     lock_toggle := toggle;
     locked := lck;
     timeConnected := timeConnected st;
     gestures := gestures st |}.

Definition set_refresh (m : Matrix33) (r : bool) (st : Controller) : Controller :=
  {| inverseInitMatrix := m;
     refresh_init := r;
     emgCache := emgCache st;
     emgSum := emgSum st;
     emgSync := emgSync st;
     isEMGSynced := isEMGSynced st;
     lock_toggle := lock_toggle st;
     locked := locked st;
     timeConnected := timeConnected st;
     gestures := gestures st |}.

(** [(float) emgSum / (float) emgSync < LOCK_TOGGLE_THRESHOLD] (line 102):
    the pose is released. *)
Definition emg_ratio (st : Controller) : float :=
  (F32.of_Z (emgSum st) / F32.of_Z (emgSync st))%f32.

Definition pose_released (st : Controller) : bool :=
  (emg_ratio st <? LOCK_TOGGLE_THRESHOLD)%f32.

(** The guard of line 100, for the clock reading [now]. *)
Definition lock_enabled (st : Controller) (now : Z) : bool :=
  isEMGSynced st
  && (wrap32 (wrap32 (timeConnected st + EMG_SYNC_TIME) + AFTER_SYNC_WAIT) <? now).

(** Lines 104-124: the branch of a released pose. *)
Definition released_branch (st : Controller) : Controller * list Event :=
  let st1 :=
    if negb (locked st) && gestureBufferFull (gestures st) then
      set_lock false (locked st)
               (set_gestures (resetGestureCache (gestures st)) st)
    else st in
  if negb (lock_toggle st1) then
    let st2 := set_lock true (negb (locked st1)) st1 in
    let st3 :=
      if negb (locked st2) then
        set_gestures (resetGestureCache (gestures st2)) st2
      else st2 in
    (st3, [OnLockChange (locked st3)])
  else (st1, []).

(** Lines 126-142: the branch of a held pose. *)
Definition held_branch (st : Controller) : Controller * list Event :=
  if lock_toggle st then
    let st1 := set_lock false (locked st)
                        (set_refresh (inverseInitMatrix st) true st) in
    if negb (locked st1) then
      let '(gesture, g) := processCacheData (gestures st1) in
      let st2 := set_gestures g st1 in
      if negb (GestureType_eqb gesture ARM_UNKNOWN) then
        (st2, [OnGesture gesture])
      else (st2, [])
    else (st1, [])
  else (st, []).

Section Platform.

Variable asin : float -> float.
Variable MYOHW_ORIENTATION_SCALE : float.

(** [handleIMUData], with [now] the value [millis()] returns at line 100. *)
Definition handleIMUData (quat : Quat) (now : Z) (st : Controller)
  : Controller * list Event :=
  let matrix := unit_quaternion_to_matrix MYOHW_ORIENTATION_SCALE quat in
  let st1 :=
    if refresh_init st then set_refresh (inverse_matrix matrix) false st
    else st in
  let local := multiply_matrix matrix (inverseInitMatrix st1) ZERO_MATRIX in
  let roll_angle := asin (local 1 0) in
  if lock_enabled st1 now then
    let '(st2, ev) :=
      if pose_released st1 then released_branch st1 else held_branch st1 in
    let st3 :=
      if negb (locked st2) then
        set_gestures
          (updateGestureCache asin (local 2 1) (local 2 0) roll_angle
                              (gestures st2))
          st2
      else st2 in
    (st3, ev)
  else (st1, []).

End Platform.

(** [updateCache]: the rows move down by one ([memmove]), the new vector
    becomes row 0 ([memcpy]) and [emgSum] is summed afresh; [abs] acts on an
    [int8_t] promoted to [int]. *)
Definition updateCache (data : list Z) (st : Controller) : Controller :=
  let cache := data :: firstn (Z.to_nat (EMG_CACHE_SIZE - 1)) (emgCache st) in
  let sum :=
    for_lt EMG_CACHE_SIZE
      (fun i s =>
         for_lt 8
           (fun j s => s + Z.abs (nth (Z.to_nat j) (nth (Z.to_nat i) cache []) 0))
           s)
      0 in
  {| inverseInitMatrix := inverseInitMatrix st;
     refresh_init := refresh_init st;
     emgCache := cache;
     emgSum := sum;
     emgSync := emgSync st;
     isEMGSynced := isEMGSynced st;
     lock_toggle := lock_toggle st;
     locked := locked st;
     timeConnected := timeConnected st;
     gestures := gestures st |}.

Definition set_sync (tc sync : Z) (synced : bool) (st : Controller) : Controller :=
  {| inverseInitMatrix := inverseInitMatrix st;
     refresh_init := refresh_init st;
     emgCache := emgCache st;
     emgSum := emgSum st;
     emgSync := sync;
     isEMGSynced := synced;
     lock_toggle := lock_toggle st;
     locked := locked st;
     timeConnected := tc;
     gestures := gestures st |}.

(** [handleEMGData]: [t_start] is what [millis()] returns at line 176 (read
    only on the first sample), [now] what it returns at line 183. *)
Definition handleEMGData (data : list Z) (t_start now : Z) (st : Controller)
  : Controller * list Event :=
  let st1 := updateCache data st in
  let st2 :=
    if timeConnected st1 =? 0 then
      set_sync t_start (emgSync st1) (isEMGSynced st1) st1
    else st1 in
  if wrap32 (timeConnected st2 + EMG_SYNC_TIME) >? now then
    ((if emgSum st2 >? emgSync st2 then
        set_sync (timeConnected st2) (emgSum st2) (isEMGSynced st2) st2
      else st2), [])
  else if negb (isEMGSynced st2) then
    (set_sync (timeConnected st2) (emgSync st2) true st2, [Vibrate 1])
  else (st2, []).

(** ** The handlers as one transition system *)

(** What the bridge delivers: a muscle-activity vector or an orientation
    sample, with the clock readings the handler takes. *)
Inductive Input : Type :=
  | EMG (data : list Z) (t_start now : Z)
  | IMU (quat : Quat) (now : Z).

Section Run.

Variable asin : float -> float.
Variable MYOHW_ORIENTATION_SCALE : float.

Definition step (st : Controller) (i : Input) : Controller * list Event :=
  match i with
  | EMG data t_start now => handleEMGData data t_start now st
  | IMU quat now => handleIMUData asin MYOHW_ORIENTATION_SCALE quat now st
  end.

(** The state after a sequence of inputs, and every event it raised, in
    order. *)
Fixpoint run (st : Controller) (l : list Input) : Controller * list Event :=
  match l with
  | [] => (st, [])
  | i :: l' =>
      let '(st1, ev1) := step st i in
      let '(st2, ev2) := run st1 l' in
      (st2, ev1 ++ ev2)
  end.

End Run.

(** ** Closed scenarios *)

(** The math library's [asin] where the scenarios below use it: IEEE and the
    C standard fix [asin(+0) = +0] and [asin(-0) = -0]; every other argument
    is answered with NaN, so a scenario that left the origin would show it. *)
Definition asin_at_origin (x : float) : float :=
  if F32.is_zero x then x else S754_nan.

(** [#define MYOHW_ORIENTATION_SCALE 16384.0f] in the Myo protocol header. *)
Definition myohw_scale : float := F32.of_Z 16384.

(** The arm at rest in its reference attitude: the unit quaternion
    [(x, y, z, w) = (0, 0, 0, 1)]. *)
Definition quat_rest : Quat := {| q0 := 0; q1 := 0; q2 := 0; q3 := 16384 |}.

Definition emg_strong : list Z := repeat 100 8%nat.
Definition emg_quiet : list Z := repeat 0 8%nat.

(** Calibration: ten strong samples inside the sync window, then ten quiet
    ones after it. *)
Definition sync_inputs : list Input :=
  map (fun t => EMG emg_strong t t) [1; 2; 3; 4; 5; 6; 7; 8; 9; 10]
  ++ map (fun t => EMG emg_quiet t t)
       [3001; 3002; 3003; 3004; 3005; 3006; 3007; 3008; 3009; 3010].

Definition scenario := run asin_at_origin myohw_scale initial_controller.

(** ** gestureAnalysis.cpp: gestureToString *)

Module Names.
Import String.

(** The table [gesture_strings]. *)
Definition gesture_strings : list string :=
  ["UP"; "DOWN"; "LEFT"; "RIGHT"; "CIRCLE_CW"; "CIRCLE_CCW";
   "ROTATE_CW"; "ROTATE_CCW"; "UNKNOWN"]%string.

(** The value of a [GestureType] constant, as [(uint8_t) type] reads it. *)
Definition gesture_index (g : GestureType) : Z :=
  match g with
  | ARM_UP => 0
  | ARM_DOWN => 1
  | ARM_LEFT => 2
  | ARM_RIGHT => 3
  | ARM_CIRCLE_CW => 4
  | ARM_CIRCLE_CCW => 5
  | ARM_ROTATE_CW => 6
  | ARM_ROTATE_CCW => 7
  | ARM_UNKNOWN => 8
  end.

(** [gesture_strings[(uint8_t) type]]: [None] stands for a read past the
    table. *)
Definition gestureToString (g : GestureType) : option string :=
  nth_error gesture_strings (Z.to_nat (gesture_index g)).

End Names.

(** ** matrix.cpp: the vector functions *)

(** [dotp]: the dot product of two vectors of three floats. *)
Definition dotp (v1 v2 : cells) : float :=
  (v1 0 * v2 0 + v1 1 * v2 1 + v1 2 * v2 2)%f32.

(** [sqr_dist]: the squared distance of two points. *)
Definition sqr_dist (v1 v2 : cells) : float :=
  (sqr (v1 0 - v2 0) + sqr (v1 1 - v2 1) + sqr (v1 2 - v2 2))%f32.

(** [multiply_matrix_vector], for a [result] that is not the vector [v]. *)
Definition multiply_matrix_vector (a : Matrix33) (v : cells) (result : cells)
  : cells :=
  for_lt 3
    (fun i r =>
       for_lt 3
         (fun j r => upd r i (r i + a i j * v j)%f32)
         (upd r i (F32.of_Z 0)))
    result.

(** The determinant as [inverse_matrix] computes it (its first statement). *)
Definition determinant (m : Matrix33) : float :=
  (m 0 0 * (m 1 1 * m 2 2 - m 2 1 * m 1 2)
   - m 0 1 * (m 1 0 * m 2 2 - m 1 2 * m 2 0)
   + m 0 2 * (m 1 0 * m 2 1 - m 1 1 * m 2 0))%f32.

(** ** The example sketch: MyoIMUGestureControl.ino *)

Definition LR_LED_PIN : Z := 6.
Definition UD_LED_PIN : Z := 7.
Definition LK_LED_PIN : Z := 8.

Record ControlStatus_t : Type := mkControlStatus {
  up_active : bool;
  right_active : bool
}.

(** The member initialisers of the struct. *)
Definition initial_controlStatus : ControlStatus_t :=
  {| up_active := false; right_active := false |}.

(** What the sketch does to the board. *)
Inductive SketchOutput : Type :=
  | SerialPrintln (s : option String.string)
  | BridgeVibrate (n : Z)
  | DigitalWrite (pin : Z) (level : bool).

(** [updateControls]: the four [if]s in order, then the two LEDs. *)
Definition updateControls (gesture : GestureType) (cs : ControlStatus_t)
  : ControlStatus_t * list SketchOutput :=
  let cs1 :=
    if up_active cs && GestureType_eqb gesture ARM_DOWN then
      {| up_active := false; right_active := right_active cs |}
    else cs in
  let cs2 :=
    if right_active cs1 && GestureType_eqb gesture ARM_LEFT then
      {| up_active := up_active cs1; right_active := false |}
    else cs1 in
  let cs3 :=
    if negb (right_active cs2) && GestureType_eqb gesture ARM_UP then
      {| up_active := true; right_active := right_active cs2 |}
    else cs2 in
  let cs4 :=
    if negb (up_active cs3) && GestureType_eqb gesture ARM_RIGHT then
      {| up_active := up_active cs3; right_active := true |}
    else cs3 in
  (cs4,
   [SerialPrintln (Names.gestureToString gesture);
    BridgeVibrate 1;
    DigitalWrite UD_LED_PIN (up_active cs4);
    DigitalWrite LR_LED_PIN (right_active cs4)]).

(** [updateLockOutput]. *)
Definition updateLockOutput (lck : bool) : list SketchOutput :=
  [DigitalWrite LK_LED_PIN (negb lck)].


(** The sketch as [begin] wires it (line 100, and lines 59-60 of the
    controller): [updateControls] is the gesture callback,
    [updateLockOutput] the lock-change callback, and the controller's own
    vibration requests go to the bridge. *)
Fixpoint dispatch (ev : list Event) (cs : ControlStatus_t)
  : ControlStatus_t * list SketchOutput :=
  match ev with
  | [] => (cs, [])
  | e :: ev' =>
      let '(cs1, out1) :=
        match e with
        | OnGesture g => updateControls g cs
        | OnLockChange b => (cs, updateLockOutput b)
        | Vibrate n => (cs, [BridgeVibrate n])
        end in
      let '(cs2, out2) := dispatch ev' cs1 in
      (cs2, out1 ++ out2)
  end.

(** * The terms the properties are stated in *)

(** ** The cache and its operations *)

(** The cache invariant: the write cursor is even and inside the array. *)
Definition cache_inv (st : GestureCache) : Prop :=
  Z.even (gesture_cache_offset st) = true
  /\ 0 <= gesture_cache_offset st <= GESTURE_CACHE_SIZE.

(** A sample handed to [updateGestureCache]: [x], [y] and the roll angle. *)
Definition Sample : Type := (float * float * float)%type.

Definition push (asin : float -> float) (st : GestureCache) (s : Sample)
  : GestureCache :=
  let '(x, y, roll) := s in updateGestureCache asin x y roll st.

Definition push_all (asin : float -> float) (l : list Sample)
    (st : GestureCache) : GestureCache :=
  fold_left (push asin) l st.

(** The operations of gestureAnalysis.cpp on the cache. *)
Inductive CacheOp : Type :=
  | OpUpdate (x y roll : float)
  | OpReset
  | OpBufferFull
  | OpProcess.

Definition apply_op (asin : float -> float) (st : GestureCache) (op : CacheOp)
  : GestureCache :=
  match op with
  | OpUpdate x y roll => updateGestureCache asin x y roll st
  | OpReset => resetGestureCache st
  | OpBufferFull => let _ := gestureBufferFull st in st
  | OpProcess => snd (processCacheData st)
  end.

(** ** The recorded points and their statistics *)

Definition Point : Type := (float * float)%type.

(** The indices [i, i+1, ..., i+n-1]. *)
Fixpoint zseq (i : Z) (n : nat) : list Z :=
  match n with
  | O => []
  | S k => i :: zseq (i + 1) k
  end.

(** The points stored in the cells [2i], [2i+1] for [i] from [lo], [n] of them. *)
Definition points_from (c : cells) (lo : Z) (n : nat) : list Point :=
  map (fun i => (c (2 * i), c (2 * i + 1))) (zseq lo n).

(** The [P] recorded points, oldest first. *)
Definition points (c : cells) (P : Z) : list Point :=
  points_from c 0 (Z.to_nat P).

Definition fsum_from (a : float) (l : list float) : float :=
  fold_left F32.add l a.

(** A sum as the code accumulates it: from 0, left to right. *)
Definition fsum (l : list float) : float := fsum_from F32.zero l.

Definition dist (p q : Point) : float :=
  F32.sqrt (getSqrPointDist (fst p) (snd p) (fst q) (snd q)).

(** The mean of the squares, as floating-point arithmetic computes it. *)
Definition mean_square (l : list float) : float :=
  (fsum (map sqr l) / F32.of_Z (Z.of_nat (length l)))%f32.

Definition x_variance (pts : list Point) : float := mean_square (map fst pts).

Definition y_variance_corrected (pts : list Point) : float :=
  (mean_square (map snd pts) * Y_DEVIATION_CORRECTION)%f32.

(** ** The labels of each stage *)

Definition is_circle (g : GestureType) : bool :=
  match g with ARM_CIRCLE_CW | ARM_CIRCLE_CCW => true | _ => false end.

Definition is_rotation (g : GestureType) : bool :=
  match g with ARM_ROTATE_CW | ARM_ROTATE_CCW => true | _ => false end.

Definition is_horizontal (g : GestureType) : bool :=
  match g with ARM_RIGHT | ARM_LEFT => true | _ => false end.

Definition is_vertical (g : GestureType) : bool :=
  match g with ARM_UP | ARM_DOWN => true | _ => false end.

(** A cache holding the single point [(0.5, 0.125)], roll angle 0. *)
Definition one_point_cache : GestureCache :=
  {| gesture_cache := cells_of_list [F32.of_dec 1 2; F32.of_dec 1 8];
     gesture_cache_offset := 2;
     gesture_roll_angle := F32.zero |}.

(** ** The circle fit *)

Definition greatest_distance_from (d : float) (p : Point) (pts : list Point)
  : float :=
  fold_left (fun d q => if (dist p q >? d)%f32 then dist p q else d) pts d.

(** The greatest distance from [p] to a recorded point. *)
Definition greatest_distance (p : Point) (pts : list Point) : float :=
  greatest_distance_from F32.zero p pts.

(** The ten sample points: every [stride]-th recorded point, with
    [stride = P / 10]. *)
Definition sample_points (pts : list Point) : list Point :=
  let stride := Z.quot (Z.of_nat (length pts)) GESTURE_CIRCLE_SAMPLES in
  map (fun j => nth (Z.to_nat (j * stride)) pts (F32.zero, F32.zero))
      (zseq 0 (Z.to_nat GESTURE_CIRCLE_SAMPLES)).

(** The mean of the sample points. *)
Definition estimated_center (pts : list Point) : Point :=
  let sp := sample_points pts in
  ((fsum (map fst sp) / F32.of_Z GESTURE_CIRCLE_SAMPLES)%f32,
   (fsum (map snd sp) / F32.of_Z GESTURE_CIRCLE_SAMPLES)%f32).

(** Half the mean of the greatest distances of the sample points. *)
Definition estimated_radius (pts : list Point) : float :=
  (fsum (map (fun p => greatest_distance p pts) (sample_points pts))
   / (F32.of_Z GESTURE_CIRCLE_SAMPLES * F32.of_Z 2))%f32.

Definition estimated_diameter (pts : list Point) : float :=
  (estimated_radius pts * F32.of_Z 2)%f32.

(** The root of the mean squared difference between a point's distance to
    the estimated centre and the estimated radius. *)
Definition radius_deviation (pts : list Point) : float :=
  F32.sqrt
    (fsum (map (fun q => sqr (dist (estimated_center pts) q
                              - estimated_radius pts)%f32) pts)
     / F32.of_Z (Z.of_nat (length pts)))%f32.

Definition closure_distance (pts : list Point) : float :=
  dist (hd (F32.zero, F32.zero) pts) (last pts (F32.zero, F32.zero)).

(** The index the code keeps for a running extreme: scanning [l] from index
    [i], the position of the last value that beat ([better]) the best so far,
    which starts as [best]; [idx] when no value does. *)
Fixpoint running_extreme (better : float -> float -> bool) (best : float)
    (idx i : Z) (l : list float) : Z :=
  match l with
  | [] => idx
  | v :: l' =>
      if better v best then running_extreme better v i (i + 1) l'
      else running_extreme better best idx (i + 1) l'
  end.

Definition max_x_index (pts : list Point) : Z :=
  running_extreme F32.gtb F32.zero 0 0 (map fst pts).

Definition min_x_index (pts : list Point) : Z :=
  running_extreme F32.ltb (F32.of_Z 1000) 0 0 (map fst pts).

Definition max_y_index (pts : list Point) : Z :=
  running_extreme F32.gtb F32.zero 0 0 (map snd pts).

(** The three index orders that count as clockwise. *)
Definition clockwise_order (min_x max_y max_x : Z) : bool :=
  (min_x <? max_y) && (max_y <? max_x)
  || (max_y <? max_x) && (max_x <? min_x)
  || (max_x <? min_x) && (min_x <? max_y).

Definition sample_point (c : cells) (stride j : Z) : Point :=
  (c (2 * j * stride), c (2 * j * stride + 1)).

(** ** Caches with concrete points *)

(** A cache holding the points [(x / den, y / den)] for the pairs of [l]. *)
Definition cache_of_points (l : list (Z * Z)) (den : Z) (roll : float)
  : GestureCache :=
  {| gesture_cache :=
       cells_of_list
         (flat_map (fun p => [F32.of_dec (fst p) den; F32.of_dec (snd p) den]) l);
     gesture_cache_offset := 2 * Z.of_nat (length l);
     gesture_roll_angle := roll |}.

(** Ten points once around a closed loop, clockwise: up and to the right,
    then back below the start. *)
Definition loop_path : list (Z * Z) :=
  [(0, 0); (1, 1); (2, 2); (3, 1); (4, 0);
   (3, -1); (2, -2); (1, -1); (0, 0); (0, 0)].

(** The loop at a width of 1 radian, and at a width of 0.5 radian. *)
Definition wide_loop_cache : GestureCache := cache_of_points loop_path 4 F32.zero.
Definition small_loop_cache : GestureCache := cache_of_points loop_path 8 F32.zero.

(** Twice the mean of the ten greatest distances: the estimated diameter
    when "twice the average of the maximum distances" is read literally. *)
Definition twice_mean_greatest_distance (pts : list Point) : float :=
  (F32.of_Z 2
   * (fsum (map (fun p => greatest_distance p pts) (sample_points pts))
      / F32.of_Z GESTURE_CIRCLE_SAMPLES))%f32.

(** The population standard deviation of a list of numbers, about their own
    mean. *)
Definition population_std_dev (l : list float) : float :=
  let n := F32.of_Z (Z.of_nat (length l)) in
  let mean := (fsum l / n)%f32 in
  F32.sqrt (fsum (map (fun v => sqr (v - mean)%f32) l) / n)%f32.

Definition small_loop_points : list Point :=
  points (gesture_cache small_loop_cache) 10.

(** ** The controller between two samples *)

(** The state after lines 83-93: the reference matrix refreshed on demand. *)
Definition refreshed (scale : float) (quat : Quat) (st : Controller)
  : Controller :=
  if refresh_init st then
    set_refresh (inverse_matrix (unit_quaternion_to_matrix scale quat)) false st
  else st.

(** The cache after line 146, for the orientation sample [quat]. *)
Definition record_sample (asin : float -> float) (scale : float)
    (quat : Quat) (st : Controller) (g : GestureCache) : GestureCache :=
  let local :=
    multiply_matrix (unit_quaternion_to_matrix scale quat)
                    (inverseInitMatrix (refreshed scale quat st)) ZERO_MATRIX in
  updateGestureCache asin (local 2 1) (local 2 0) (asin (local 1 0)) g.

(** Orientation samples, each with its clock reading. *)
Definition imu_inputs (l : list (Quat * Z)) : list Input :=
  map (fun s => IMU (fst s) (snd s)) l.

(** The fields the muscle-activity handler owns. *)
Definition same_emg (st st' : Controller) : Prop :=
  emgSum st' = emgSum st
  /\ emgSync st' = emgSync st
  /\ isEMGSynced st' = isEMGSynced st
  /\ timeConnected st' = timeConnected st.

Definition all_enabled (st : Controller) (l : list (Quat * Z)) : Prop :=
  Forall (fun s => lock_enabled st (snd s) = true) l.

(** ** Input sequences *)

(** Scenarios: the pose held (ten strong samples, then an orientation
    sample), released (ten quiet samples, then an orientation sample), and
    [n] further orientation samples with the arm at rest. *)
Definition hold (t : Z) : list Input :=
  repeat (EMG emg_strong t t) 10 ++ [IMU quat_rest t].

Definition release (t : Z) : list Input :=
  repeat (EMG emg_quiet t t) 10 ++ [IMU quat_rest t].

Definition idle (t : Z) (n : nat) : list Input := repeat (IMU quat_rest t) n.

(** Calibration, a first pose (which locks), a second pose (which unlocks),
    and then the arm at rest until the cache is full. *)
Definition unlocked_idle_inputs : list Input :=
  sync_inputs ++ hold 3600 ++ release 3700 ++ hold 3800 ++ release 3900
  ++ idle 4000 63.

Definition unlocked_idle_state : Controller := fst (scenario unlocked_idle_inputs).

(** A controller that is synced, unlocked, has the pose held for the first
    time since the last toggle, and holds the wide loop in its cache. *)
Definition circle_drawn_state : Controller :=
  set_gestures wide_loop_cache
    (fst (scenario (sync_inputs ++ repeat (EMG emg_strong 3600 3600) 10))).

(** The first orientation sample after sync and settle, with no pose since. *)
Definition first_sample_inputs : list Input := sync_inputs ++ [IMU quat_rest 3600].

(** ** Terms for the further properties *)

(** The comparison is defined: neither operand is NaN. *)
Definition ordered (a b : float) : Prop := SFcompare a b <> None.

Definition is_finite (a : float) : bool :=
  match a with S754_finite _ _ _ | S754_zero _ => true | _ => false end.

(** The controller after a sequence of muscle-activity vectors went through
    [updateCache]. *)
Definition feed (ds : list (list Z)) (st : Controller) : Controller :=
  fold_left (fun s d => updateCache d s) ds st.

Definition zsum (l : list Z) : Z := fold_right Z.add 0 l.

(** The sum of the absolute values of all entries of the rows. *)
Definition abs_total (rows : list (list Z)) : Z :=
  zsum (map (fun row => zsum (map Z.abs row)) rows).

(** An [int8_t] value. *)
Definition int8 (v : Z) : Prop := -128 <= v <= 127.

(** ** Terms for runs of the controller *)

Definition is_vibrate (e : Event) : bool :=
  match e with Vibrate _ => true | _ => false end.

(** How many times the bridge was told to vibrate. *)
Definition vibrations (ev : list Event) : nat := length (filter is_vibrate ev).

(** The arguments of the lock-change callback, in order. *)
Fixpoint lock_changes (ev : list Event) : list bool :=
  match ev with
  | [] => []
  | OnLockChange b :: ev' => b :: lock_changes ev'
  | _ :: ev' => lock_changes ev'
  end.

(** The gestures handed to the gesture callback, in order. *)
Fixpoint gesture_calls (ev : list Event) : list GestureType :=
  match ev with
  | [] => []
  | OnGesture g :: ev' => g :: gesture_calls ev'
  | _ :: ev' => gesture_calls ev'
  end.

(** Each value is the negation of the one before it, starting after [b]. *)
Fixpoint alternates (b : bool) (l : list bool) : Prop :=
  match l with
  | [] => True
  | x :: l' => x = negb b /\ alternates x l'
  end.

Definition is_emg (i : Input) : bool :=
  match i with EMG _ _ _ => true | IMU _ _ => false end.

(** The index lies outside the array [gesture_cache]. *)
Definition outside_cache (k : Z) : Prop := k < 0 \/ GESTURE_CACHE_SIZE <= k.

(** From [g] to [g'] the cursor invariant holds at the end and the memory
    outside the array is as it was. *)
Definition cache_safe (g g' : GestureCache) : Prop :=
  cache_inv g'
  /\ forall k, outside_cache k -> gesture_cache g' k = gesture_cache g k.

(** ** Terms for the sketch *)

(** The level last written to [pin], [init] when it was never written. *)
Definition pin_level (pin : Z) (out : list SketchOutput) (init : bool) : bool :=
  fold_left
    (fun lvl o =>
       match o with
       | DigitalWrite p l => if p =? pin then l else lvl
       | _ => lvl
       end)
    out init.

(** What was printed on the serial line, in order. *)
Fixpoint printed (out : list SketchOutput) : list (option String.string) :=
  match out with
  | [] => []
  | SerialPrintln s :: out' => s :: printed out'
  | _ :: out' => printed out'
  end.

(** [asin] is given a number within the clipping bounds. *)
Definition in_asin_range (u : float) : bool :=
  (F32.opp CLIP_BOUND <=? u)%f32 && (u <=? CLIP_BOUND)%f32.

(** A second [asin], equal to [asin_at_origin] on the clipping range and
    different from it outside. *)
Definition asin_in_range_only (u : float) : float :=
  if in_asin_range u then asin_at_origin u else F32.of_Z 7.

(** [one_point_cache] with stale data behind the write cursor. *)
Definition one_point_cache_stale : GestureCache :=
  {| gesture_cache :=
       upd (upd (gesture_cache one_point_cache) 2 (F32.of_Z 3)) 3 (F32.of_Z 1);
     gesture_cache_offset := 2;
     gesture_roll_angle := F32.zero |}.

(** * Properties *)

Arguments F32.add : simpl never.
Arguments F32.sub : simpl never.
Arguments F32.mul : simpl never.
Arguments F32.div : simpl never.
Arguments F32.sqrt : simpl never.
Arguments F32.of_Z : simpl never.
Arguments F32.of_dec : simpl never.

(** ** The cache *)

Section CacheFacts.

Variable asin : float -> float.

Lemma update_offset x y roll st :
  gesture_cache_offset (updateGestureCache asin x y roll st) =
  if gesture_cache_offset st <? GESTURE_CACHE_SIZE
  then gesture_cache_offset st + 2 else gesture_cache_offset st.
Proof.
  unfold updateGestureCache.
  destruct (gesture_cache_offset st <? GESTURE_CACHE_SIZE); reflexivity.
Qed.

Lemma update_roll x y roll st :
  gesture_roll_angle (updateGestureCache asin x y roll st) = roll.
Proof. reflexivity. Qed.

Lemma update_full x y roll st :
  GESTURE_CACHE_SIZE <= gesture_cache_offset st ->
  updateGestureCache asin x y roll st =
  {| gesture_cache := gesture_cache st;
     gesture_cache_offset := gesture_cache_offset st;
     gesture_roll_angle := roll |}.
Proof.
  intros H. unfold updateGestureCache.
  destruct (Z.ltb_spec (gesture_cache_offset st) GESTURE_CACHE_SIZE) as [L | L];
    [lia | reflexivity].
Qed.

Lemma even_plus_2 n : Z.even (n + 2) = Z.even n.
Proof. rewrite Z.even_add. destruct (Z.even n); reflexivity. Qed.

Lemma update_inv x y roll st :
  cache_inv st -> cache_inv (updateGestureCache asin x y roll st).
Proof.
  unfold cache_inv, GESTURE_CACHE_SIZE. intros [E B]. rewrite update_offset.
  unfold GESTURE_CACHE_SIZE.
  destruct (Z.ltb_spec (gesture_cache_offset st) 128) as [L | L].
  - rewrite even_plus_2. split; [exact E |].
    (* an even cursor below 128 is at most 126 *)
    destruct (Z.eq_dec (gesture_cache_offset st) 127) as [K | K].
    + rewrite K in E. discriminate E.
    + lia.
  - split; [exact E | lia].
Qed.

Lemma reset_inv st : cache_inv (resetGestureCache st).
Proof. unfold cache_inv, GESTURE_CACHE_SIZE; simpl. split; [reflexivity | lia]. Qed.

Lemma process_inv st : cache_inv (snd (processCacheData st)).
Proof. unfold cache_inv, GESTURE_CACHE_SIZE; simpl. split; [reflexivity | lia]. Qed.

Lemma apply_op_inv st op : cache_inv st -> cache_inv (apply_op asin st op).
Proof.
  intros H. destruct op; simpl.
  - apply update_inv; exact H.
  - apply reset_inv.
  - exact H.
  - apply process_inv.
Qed.

Lemma initial_inv : cache_inv initial_cache.
Proof. unfold cache_inv, GESTURE_CACHE_SIZE; simpl. split; [reflexivity | lia]. Qed.

(** [k] pushes into an empty cache leave the cursor at [2k], up to the
    capacity. *)
Lemma push_all_offset l : forall st,
  gesture_cache_offset st + 2 * Z.of_nat (length l) <= GESTURE_CACHE_SIZE ->
  gesture_cache_offset (push_all asin l st) =
  gesture_cache_offset st + 2 * Z.of_nat (length l).
Proof.
  induction l as [| [[x y] r] l IH]; intros st H.
  - simpl. lia.
  - cbn [push_all fold_left push length] in *.
    change (fold_left (push asin) l ?s) with (push_all asin l s).
    rewrite Nat2Z.inj_succ in H.
    rewrite IH; rewrite update_offset;
      destruct (Z.ltb_spec (gesture_cache_offset st) GESTURE_CACHE_SIZE);
      rewrite ?Nat2Z.inj_succ; lia.
Qed.

(** Pushes into a full cache only replace the roll angle. *)
Lemma push_all_full l : forall st,
  gestureBufferFull st = true ->
  gesture_cache (push_all asin l st) = gesture_cache st
  /\ gesture_cache_offset (push_all asin l st) = gesture_cache_offset st.
Proof.
  induction l as [| [[x y] r] l IH]; intros st F.
  - split; reflexivity.
  - cbn [push_all fold_left push].
    change (fold_left (push asin) l ?s) with (push_all asin l s).
    apply Z.eqb_eq in F.
    rewrite update_full by lia.
    apply (IH {| gesture_cache := gesture_cache st;
                 gesture_cache_offset := gesture_cache_offset st;
                 gesture_roll_angle := r |}).
    unfold gestureBufferFull. simpl. apply Z.eqb_eq. exact F.
Qed.

End CacheFacts.

(** C5. A push into a cache that is not full stores [asin (clip x)] and
    [asin (clip y)] (clipped to [-0.99999, 0.99999]) at the cursor, leaves
    every other cell alone and moves the cursor by 2; [N/2] pushes into an
    empty cache of capacity [N] fill it, and fewer do not; a push into a full
    cache changes neither the cells nor the cursor nor the fill state but
    still overwrites the roll angle; a reset puts cursor and roll angle at 0
    whatever the state was.  (Under the cache invariant, "not full" is the
    guard [offset < GESTURE_CACHE_SIZE] of the push.) *)
Theorem C5_cache_push_reset :
  forall (asin : float -> float) (x y roll : float) (st : GestureCache),
    let st' := updateGestureCache asin x y roll st in
    (gesture_cache_offset st < GESTURE_CACHE_SIZE ->
       gesture_cache st' (gesture_cache_offset st)
         = asin (clip x (F32.opp CLIP_BOUND) CLIP_BOUND)
       /\ gesture_cache st' (gesture_cache_offset st + 1)
         = asin (clip y (F32.opp CLIP_BOUND) CLIP_BOUND)
       /\ (forall k, k <> gesture_cache_offset st ->
                     k <> gesture_cache_offset st + 1 ->
                     gesture_cache st' k = gesture_cache st k)
       /\ gesture_cache_offset st' = gesture_cache_offset st + 2
       /\ gesture_roll_angle st' = roll)
    /\ (forall l : list Sample,
          gesture_cache_offset st = 0 ->
          (Z.of_nat (length l) = GESTURE_CACHE_SIZE / 2 ->
             gestureBufferFull (push_all asin l st) = true)
          /\ (Z.of_nat (length l) < GESTURE_CACHE_SIZE / 2 ->
             gestureBufferFull (push_all asin l st) = false))
    /\ (gestureBufferFull st = true ->
          gesture_cache st' = gesture_cache st
          /\ gesture_cache_offset st' = gesture_cache_offset st
          /\ gestureBufferFull st' = true
          /\ gesture_roll_angle st' = roll)
    /\ gesture_cache_offset (resetGestureCache st) = 0
    /\ gesture_roll_angle (resetGestureCache st) = F32.zero
    /\ (cache_inv st -> gestureBufferFull st = false ->
        gesture_cache_offset st < GESTURE_CACHE_SIZE).
Proof.
  intros asin x y roll st st'.
  assert (NF : cache_inv st -> gestureBufferFull st = false ->
               gesture_cache_offset st < GESTURE_CACHE_SIZE).
  { intros [_ B] F. unfold gestureBufferFull in F. apply Z.eqb_neq in F. lia. }
  repeat split; try exact NF.
  - subst st'. unfold updateGestureCache.
    destruct (Z.ltb_spec (gesture_cache_offset st) GESTURE_CACHE_SIZE); [| lia].
    simpl. unfold upd. rewrite Z.eqb_refl.
    destruct (Z.eqb_spec (gesture_cache_offset st) (gesture_cache_offset st + 1));
      [lia | reflexivity].
  - subst st'. unfold updateGestureCache.
    destruct (Z.ltb_spec (gesture_cache_offset st) GESTURE_CACHE_SIZE); [| lia].
    simpl. unfold upd. rewrite Z.eqb_refl. reflexivity.
  - intros k K1 K2. subst st'. unfold updateGestureCache.
    destruct (Z.ltb_spec (gesture_cache_offset st) GESTURE_CACHE_SIZE); [| lia].
    simpl. unfold upd.
    destruct (Z.eqb_spec k (gesture_cache_offset st + 1)); [lia |].
    destruct (Z.eqb_spec k (gesture_cache_offset st)); [lia | reflexivity].
  - subst st'. rewrite update_offset.
    destruct (Z.ltb_spec (gesture_cache_offset st) GESTURE_CACHE_SIZE); lia.
  - intros L. unfold gestureBufferFull.
    change (GESTURE_CACHE_SIZE / 2) with 64 in L.
    rewrite push_all_offset; unfold GESTURE_CACHE_SIZE; [apply Z.eqb_eq |]; lia.
  - intros L. unfold gestureBufferFull.
    change (GESTURE_CACHE_SIZE / 2) with 64 in L.
    rewrite push_all_offset; unfold GESTURE_CACHE_SIZE; [apply Z.eqb_neq |]; lia.
  - subst st'. apply Z.eqb_eq in H. rewrite update_full by lia. reflexivity.
  - subst st'. apply Z.eqb_eq in H. rewrite update_full by lia. reflexivity.
  - subst st'. unfold gestureBufferFull in *. rewrite update_offset.
    apply Z.eqb_eq in H. rewrite H. reflexivity.
Qed.

(** C5 at work: a cache emptied by a reset takes the sample [(0, 0)], and 64
    such samples fill it. *)
Lemma C5_witness :
  gesture_cache_offset
    (updateGestureCache asin_at_origin F32.zero F32.zero F32.zero
       (resetGestureCache initial_cache)) = 2
  /\ gestureBufferFull
       (push_all asin_at_origin (repeat (F32.zero, F32.zero, F32.zero) 64)
          (resetGestureCache initial_cache)) = true.
Proof.
  pose proof (C5_cache_push_reset asin_at_origin F32.zero F32.zero F32.zero
                (resetGestureCache initial_cache)) as [H1 [H2 _]].
  split.
  - destruct H1 as [_ [_ [_ [H _]]]]; [reflexivity | exact H].
  - apply (H2 (repeat (F32.zero, F32.zero, F32.zero) 64)); reflexivity.
Defined.

(** C6. The cursor is even and between 0 and the capacity initially, every
    operation on the cache keeps it so, hence so does every sequence of
    operations from the initial cache; and pushes into a full cache never
    move the cursor. *)
Theorem C6_cache_invariant :
  forall asin : float -> float,
    cache_inv initial_cache
    /\ (forall st op, cache_inv st -> cache_inv (apply_op asin st op))
    /\ (forall ops, cache_inv (fold_left (apply_op asin) ops initial_cache))
    /\ (forall st l, gestureBufferFull st = true ->
          gesture_cache_offset (push_all asin l st) = gesture_cache_offset st
          /\ gestureBufferFull (push_all asin l st) = true).
Proof.
  intros asin. split; [apply initial_inv |].
  split; [intros st op; apply apply_op_inv |].
  split.
  - intros ops.
    assert (G : forall st, cache_inv st ->
                 cache_inv (fold_left (apply_op asin) ops st)).
    { induction ops as [| op ops IH]; intros st H; simpl.
      - exact H.
      - apply IH. apply apply_op_inv. exact H. }
    apply G. apply initial_inv.
  - intros st l F. destruct (push_all_full asin l st F) as [_ E].
    split; [exact E |]. unfold gestureBufferFull in *. rewrite E. exact F.
Qed.

(** C6 at work on the initial cache: after 64 pushes it is full, a further
    push keeps the cursor at 128, and the invariant still holds. *)
Lemma C6_witness :
  cache_inv
    (apply_op asin_at_origin
       (push_all asin_at_origin (repeat (F32.zero, F32.zero, F32.zero) 64)
          initial_cache)
       (OpUpdate F32.zero F32.zero F32.zero))
  /\ gesture_cache_offset
       (push_all asin_at_origin [(F32.zero, F32.zero, F32.zero)]
          (push_all asin_at_origin (repeat (F32.zero, F32.zero, F32.zero) 64)
             initial_cache)) = 128.
Proof.
  pose proof (C6_cache_invariant asin_at_origin) as [_ [H2 [_ H4]]].
  split.
  - apply H2. vm_compute. split; [reflexivity | split; discriminate].
  - destruct (H4 (push_all asin_at_origin
                    (repeat (F32.zero, F32.zero, F32.zero) 64) initial_cache)
                 [(F32.zero, F32.zero, F32.zero)]) as [E _];
      [vm_compute; reflexivity |].
    rewrite E. vm_compute. reflexivity.
Defined.

(** ** Loops as folds over the recorded points *)

Lemma for_from_fold {A : Type} (body : Z -> A -> A) :
  forall n i a,
    for_from n i body a = fold_left (fun a k => body k a) (zseq i n) a.
Proof.
  induction n as [| n IH]; intros i a; simpl; [reflexivity | apply IH].
Qed.

Lemma zseq_length : forall n i, length (zseq i n) = n.
Proof. induction n as [| n IH]; intros i; simpl; [| rewrite IH]; reflexivity. Qed.

Lemma zseq_nth : forall n i k d,
  (k < n)%nat -> nth k (zseq i n) d = i + Z.of_nat k.
Proof.
  induction n as [| n IH]; intros i k d H; [lia |].
  destruct k as [| k]; simpl.
  - lia.
  - rewrite IH by lia. lia.
Qed.

Lemma zseq_In : forall n i a, i <= a < i + Z.of_nat n -> In a (zseq i n).
Proof.
  induction n as [| n IH]; intros i a H; [lia |].
  simpl. destruct (Z.eq_dec i a) as [E | E]; [left; exact E | right].
  apply IH. lia.
Qed.

Lemma zseq_last : forall n i d, last (zseq i (S n)) d = i + Z.of_nat n.
Proof.
  induction n as [| n IH]; intros i d.
  - simpl. lia.
  - change (zseq i (S (S n))) with (i :: zseq (i + 1) (S n)).
    change (last (i :: zseq (i + 1) (S n)) d) with (last (zseq (i + 1) (S n)) d).
    rewrite IH. lia.
Qed.

Lemma points_length c P : 0 <= P -> Z.of_nat (length (points c P)) = P.
Proof.
  intros H. unfold points, points_from. rewrite length_map, zseq_length. lia.
Qed.

Lemma points_nth c P k d :
  0 <= k < P -> nth (Z.to_nat k) (points c P) d = (c (2 * k), c (2 * k + 1)).
Proof.
  intros H. unfold points, points_from.
  set (f := fun i : Z => (c (2 * i), c (2 * i + 1))).
  rewrite (nth_indep _ d (f 0)) by (rewrite length_map, zseq_length; lia).
  rewrite map_nth. rewrite zseq_nth by lia.
  rewrite Z2Nat.id by lia. reflexivity.
Qed.

Lemma points_last c P d :
  1 <= P -> last (points c P) d = (c (2 * P - 2), c (2 * P - 1)).
Proof.
  intros H. unfold points, points_from.
  destruct (Z.to_nat P) as [| n] eqn:E; [lia |].
  assert (L : forall (l : list Z) x,
             l <> [] ->
             last (map (fun i => (c (2 * i), c (2 * i + 1))) l) d =
             (c (2 * last l x), c (2 * last l x + 1))).
  { induction l as [| a l IH]; intros x N; [congruence |].
    destruct l as [| b l]; [reflexivity |].
    change (last (map (fun i => (c (2 * i), c (2 * i + 1))) (a :: b :: l)) d)
      with (last (map (fun i => (c (2 * i), c (2 * i + 1))) (b :: l)) d).
    change (last (a :: b :: l) x) with (last (b :: l) x).
    apply IH. discriminate. }
  rewrite (L _ 0) by discriminate. rewrite zseq_last.
  replace (0 + Z.of_nat n) with (P - 1) by lia.
  f_equal; f_equal; lia.
Qed.

(** ** The summing loop and the variances *)

Lemma stats_loop_fold c : forall l acc,
  fold_left
    (fun acc i =>
       let x := c (2 * i) in
       let y := c (2 * i + 1) in
       {| x_total := (x_total acc + x)%f32;
          y_total := (y_total acc + y)%f32;
          x_deviation := (x_deviation acc + sqr x)%f32;
          y_deviation := (y_deviation acc + sqr y)%f32 |}) l acc =
  let pts := map (fun i => (c (2 * i), c (2 * i + 1))) l in
  {| x_total := fsum_from (x_total acc) (map fst pts);
     y_total := fsum_from (y_total acc) (map snd pts);
     x_deviation := fsum_from (x_deviation acc) (map sqr (map fst pts));
     y_deviation := fsum_from (y_deviation acc) (map sqr (map snd pts)) |}.
Proof.
  induction l as [| i l IH]; intros acc.
  - destruct acc; reflexivity.
  - cbn [fold_left]. rewrite IH. reflexivity.
Qed.

Lemma stats_loop_points c P :
  stats_loop c P =
  let pts := points c P in
  {| x_total := fsum (map fst pts);
     y_total := fsum (map snd pts);
     x_deviation := fsum (map sqr (map fst pts));
     y_deviation := fsum (map sqr (map snd pts)) |}.
Proof.
  unfold stats_loop, for_lt. rewrite for_from_fold.
  rewrite stats_loop_fold. reflexivity.
Qed.

Lemma stats_points c P :
  0 <= P ->
  stats c P =
  let pts := points c P in
  {| x_total := fsum (map fst pts);
     y_total := fsum (map snd pts);
     x_deviation := x_variance pts;
     y_deviation := y_variance_corrected pts |}.
Proof.
  intros H. unfold stats. rewrite stats_loop_points. cbv zeta.
  unfold x_variance, y_variance_corrected, mean_square.
  assert (L : forall f : Point -> float,
             Z.of_nat (length (map f (points c P))) = P).
  { intros f. rewrite length_map. apply points_length. exact H. }
  rewrite !L. reflexivity.
Qed.

(** ** Comparisons of binary32 numbers *)

Lemma SFcompare_swap (a b : float) :
  SFcompare b a = option_map CompOpp (SFcompare a b).
Proof.
  destruct a as [sa | sa | | sa ma ea], b as [sb | sb | | sb mb eb];
    try reflexivity;
    try (destruct sa; reflexivity);
    try (destruct sb; reflexivity);
    try (destruct sa, sb; reflexivity).
  simpl.
  change (Pos.compare_cont Eq mb ma) with (Pos.compare mb ma).
  change (Pos.compare_cont Eq ma mb) with (Pos.compare ma mb).
  rewrite (Z.compare_antisym ea eb), (Pos.compare_antisym ma mb).
  destruct sa, sb; try reflexivity;
    destruct (ea ?= eb); simpl; try reflexivity;
    destruct (ma ?= mb)%positive; reflexivity.
Qed.

Lemma ltb_asym (a b : float) : F32.ltb a b = true -> F32.ltb b a = false.
Proof.
  unfold F32.ltb, SFltb. rewrite (SFcompare_swap a b).
  destruct (SFcompare a b) as [[| |] |]; simpl; congruence.
Qed.

Lemma ltb_nan_l (a : float) : F32.ltb S754_nan a = false.
Proof. reflexivity. Qed.

Lemma ltb_nan_r (a : float) : F32.ltb a S754_nan = false.
Proof. destruct a; reflexivity. Qed.

(** A number whose square exceeds the squared minimum rotation angle is
    either negative or positive: not NaN and not a zero. *)
Lemma sign_of_large_square (r : float) :
  (sqr r >? sqr ROTATION_MIN_ANGLE)%f32 = true ->
  (r <? F32.zero)%f32 = negb (F32.zero <? r)%f32.
Proof.
  assert (C : exists m e, sqr ROTATION_MIN_ANGLE = S754_finite false m e)
    by (vm_compute; eauto).
  destruct C as [m [e C]]. rewrite C. clear C.
  unfold F32.gtb, F32.ltb, sqr, F32.mul.
  destruct r as [s | s | | s mr er]; simpl.
  - intros H. discriminate H.
  - intros _. destruct s; reflexivity.
  - intros H. discriminate H.
  - intros _. destruct s; reflexivity.
Qed.

(** ** The labels by stage *)

Lemma straight_test_cases (s : Stats) (d : float) :
  let horizontal :=
    (x_deviation s >? y_deviation s)%f32
    && (relation s >? F32.of_Z 1 / STRAIGHT_MAX_RELATION)%f32
    && (d >=? STRAIGHT_MIN_DISTANCE)%f32 in
  let vertical :=
    (y_deviation s >? x_deviation s)%f32
    && (relation s <? STRAIGHT_MAX_RELATION)%f32
    && (d >=? STRAIGHT_MIN_DISTANCE)%f32 in
  let g := straight_test s d in
  is_horizontal g = horizontal
  /\ is_vertical g = vertical
  /\ (horizontal = true ->
      g = if (x_total s >? F32.zero)%f32 then ARM_RIGHT else ARM_LEFT)
  /\ (vertical = true ->
      g = if (y_total s >? F32.zero)%f32 then ARM_UP else ARM_DOWN)
  /\ (horizontal = false -> vertical = false -> g = ARM_UNKNOWN)
  /\ is_circle g = false
  /\ is_rotation g = false.
Proof.
  cbv zeta. unfold straight_test.
  destruct (x_deviation s >? y_deviation s)%f32 eqn:XY.
  - (* x above y excludes y above x *)
    assert (YX : (y_deviation s >? x_deviation s)%f32 = false)
      by (unfold F32.gtb in *; apply ltb_asym; exact XY).
    rewrite YX. cbn [andb].
    destruct ((relation s >? F32.of_Z 1 / STRAIGHT_MAX_RELATION)%f32
              && (d >=? STRAIGHT_MIN_DISTANCE)%f32) eqn:A.
    + destruct (x_total s >? F32.zero)%f32;
        repeat split; try reflexivity; try discriminate.
    + repeat split; try reflexivity; try discriminate.
  - cbn [andb].
    destruct ((y_deviation s >? x_deviation s)%f32
              && (relation s <? STRAIGHT_MAX_RELATION)%f32
              && (d >=? STRAIGHT_MIN_DISTANCE)%f32) eqn:A.
    + destruct (y_total s >? F32.zero)%f32;
        repeat split; try reflexivity; try discriminate.
    + repeat split; try reflexivity; try discriminate.
Qed.

Lemma end_distance_points c P :
  0 <= P ->
  end_distance c P =
  dist (F32.zero, F32.zero) (last (points c P) (c (-2), c (-1))).
Proof.
  intros H. unfold end_distance, dist.
  destruct (Z.eq_dec P 0) as [E | E].
  - subst P. reflexivity.
  - rewrite points_last by lia. reflexivity.
Qed.

(** ** The classifier on an empty and on a one-point cache *)

(** With no point, both averages are [0 / 0]: NaN. *)
Lemma stats_empty c :
  x_deviation (stats c 0) = S754_nan /\ y_deviation (stats c 0) = S754_nan.
Proof. split; vm_compute; reflexivity. Qed.

Lemma classify_empty c roll : classify c 0 roll = ARM_UNKNOWN.
Proof.
  unfold classify. change (circle_test c 0) with (@None GestureType).
  unfold classify_rest, rotation_test, straight_test, relation.
  destruct (stats_empty c) as [X Y]. rewrite X, Y.
  rewrite !ltb_nan_l. unfold F32.leb, F32.gtb. simpl. reflexivity.
Qed.

(** C1, counterexample.  On the empty initial cache the divisor of the two
    averaging divisions is zero, and the one-point cache above is classified
    as a movement to the right, not as unknown. *)
Lemma C1_counterexample :
  Z.quot (gesture_cache_offset initial_cache) 2 = 0
  /\ existsb F32.is_zero (stats_divisors (gesture_cache initial_cache) 0) = true
  /\ Z.quot (gesture_cache_offset one_point_cache) 2 = 1
  /\ fst (processCacheData one_point_cache) = ARM_RIGHT.
Proof. repeat split; vm_compute; reflexivity. Qed.

(** C1, amended.  With no point stored the classifier returns unknown.  With
    one point stored the circle test is skipped, the point count it divides
    by is not zero, and the label is the one the rotation and straight-line
    tests give for that point: unknown exactly when neither accepts. *)
Theorem C1_near_empty_cache :
  forall st : GestureCache,
    (Z.quot (gesture_cache_offset st) 2 = 0 ->
       fst (processCacheData st) = ARM_UNKNOWN)
    /\ (Z.quot (gesture_cache_offset st) 2 = 1 ->
          let c := gesture_cache st in
          let s := stats c 1 in
          circle_test c 1 = None
          /\ F32.is_zero (F32.of_Z 1) = false
          /\ fst (processCacheData st)
             = match rotation_test s (gesture_roll_angle st) with
               | Some g => g
               | None => straight_test s (end_distance c 1)
               end
          /\ (fst (processCacheData st) = ARM_UNKNOWN <->
              rotation_test s (gesture_roll_angle st) = None
              /\ straight_test s (end_distance c 1) = ARM_UNKNOWN)).
Proof.
  intros st. split.
  - intros H. unfold processCacheData. cbn [fst]. rewrite H.
    apply classify_empty.
  - intros H. cbv zeta. unfold processCacheData. cbn [fst]. rewrite H.
    assert (C : circle_test (gesture_cache st) 1 = None) by reflexivity.
    split; [exact C |]. split; [reflexivity |].
    unfold classify. rewrite C. unfold classify_rest.
    split; [reflexivity |].
    unfold rotation_test.
    destruct ((x_deviation (stats (gesture_cache st) 1) <=? ROTATION_MAX_VARIANCE)%f32
              && (y_deviation (stats (gesture_cache st) 1) <=? ROTATION_MAX_VARIANCE)%f32
              && (sqr (gesture_roll_angle st) >? sqr ROTATION_MIN_ANGLE)%f32).
    + split.
      * destruct (gesture_roll_angle st <? F32.zero)%f32; discriminate.
      * intros [N _]. discriminate N.
    + split; [intros E; split; [reflexivity | exact E] | intros [_ E]; exact E].
Qed.

(** C1 at work: the initial cache is classified as unknown, and a single
    point at the origin with roll angle 0 as well. *)
Lemma C1_witness :
  fst (processCacheData initial_cache) = ARM_UNKNOWN
  /\ circle_test (fun _ => F32.zero) 1 = None.
Proof.
  split.
  - apply (proj1 (C1_near_empty_cache initial_cache)). reflexivity.
  - destruct (proj2 (C1_near_empty_cache
                       {| gesture_cache := fun _ => F32.zero;
                          gesture_cache_offset := 2;
                          gesture_roll_angle := F32.zero |}))
      as [H _]; [reflexivity | exact H].
Defined.

(** ** The rotation test *)

(** C3.  When the circle test does not return, the classifier returns a
    rotation label exactly when the mean of the squared x values is at most
    the rotation maximum variance, the mean of the squared y values times the
    correction factor 1.3 is at most the same constant, and the squared roll
    angle is strictly above the squared minimum rotation angle [PI / 6]; the
    roll angle is then negative or positive, and the label is rotate-cw in
    the first case and rotate-ccw in the second. *)
Theorem C3_rotation_stage :
  forall (c : cells) (P : Z) (roll : float),
    0 <= P ->
    circle_test c P = None ->
    let pts := points c P in
    let accept :=
      (x_variance pts <=? ROTATION_MAX_VARIANCE)%f32
      && (mean_square (map snd pts) * F32.of_dec 13 10 <=? ROTATION_MAX_VARIANCE)%f32
      && (sqr roll >? sqr (PI / F32.of_Z 6))%f32 in
    let g := classify c P roll in
    is_rotation g = accept
    /\ (accept = true ->
        ((roll <? F32.zero)%f32 = true \/ (F32.zero <? roll)%f32 = true)
        /\ ((roll <? F32.zero)%f32 = true -> g = ARM_ROTATE_CW)
        /\ ((F32.zero <? roll)%f32 = true -> g = ARM_ROTATE_CCW)).
Proof.
  intros c P roll HP HC. cbv zeta.
  unfold classify. rewrite HC. unfold classify_rest.
  rewrite (stats_points c P HP). cbv zeta.
  unfold rotation_test. cbn [x_deviation y_deviation].
  change (mean_square (map snd (points c P)) * F32.of_dec 13 10)%f32
    with (y_variance_corrected (points c P)).
  change (PI / F32.of_Z 6)%f32 with ROTATION_MIN_ANGLE.
  destruct ((x_variance (points c P) <=? ROTATION_MAX_VARIANCE)%f32
            && (y_variance_corrected (points c P) <=? ROTATION_MAX_VARIANCE)%f32
            && (sqr roll >? sqr ROTATION_MIN_ANGLE)%f32) eqn:A.
  - apply andb_prop in A. destruct A as [_ R].
    pose proof (sign_of_large_square roll R) as S.
    destruct (roll <? F32.zero)%f32 eqn:N;
      destruct (F32.zero <? roll)%f32 eqn:Q; try discriminate S.
    + split; [reflexivity |]. intros _.
      split; [left; reflexivity |]. split; [reflexivity | discriminate].
    + split; [reflexivity |]. intros _.
      split; [right; reflexivity |]. split; [discriminate | reflexivity].
  - split; [| discriminate].
    match goal with
    | |- is_rotation (straight_test ?s ?d) = false =>
        apply (straight_test_cases s d)
    end.
Qed.

(** C3 at work: one point at the origin and a roll angle of 1 radian. *)
Lemma C3_witness : classify (fun _ => F32.zero) 1 (F32.of_Z 1) = ARM_ROTATE_CCW.
Proof.
  apply (C3_rotation_stage (fun _ => F32.zero) 1 (F32.of_Z 1));
    [lia | reflexivity | vm_compute; reflexivity | vm_compute; reflexivity].
Defined.

(** ** The straight-line test *)

(** C4.  When neither the circle test nor the rotation test returns, with
    [relation] the x variance divided by the corrected y variance and
    [distance] the distance from the origin to the last recorded point: the
    label is right or left exactly when the x variance exceeds the corrected
    y variance, the relation exceeds [1 / STRAIGHT_MAX_RELATION] and the
    distance reaches the minimum, right when the summed x is above 0 and left
    otherwise; it is up or down exactly when the corrected y variance exceeds
    the x variance, the relation is below [STRAIGHT_MAX_RELATION] and the
    distance reaches the minimum, up when the summed y is above 0 and down
    otherwise; and it is unknown when neither holds. *)
Theorem C4_straight_stage :
  forall (c : cells) (P : Z) (roll : float),
    0 <= P ->
    circle_test c P = None ->
    rotation_test (stats c P) roll = None ->
    let pts := points c P in
    let xv := x_variance pts in
    let yv := y_variance_corrected pts in
    let rel := (xv / yv)%f32 in
    let distance := dist (F32.zero, F32.zero) (last pts (c (-2), c (-1))) in
    let horizontal :=
      (xv >? yv)%f32
      && (rel >? F32.of_Z 1 / STRAIGHT_MAX_RELATION)%f32
      && (distance >=? STRAIGHT_MIN_DISTANCE)%f32 in
    let vertical :=
      (yv >? xv)%f32
      && (rel <? STRAIGHT_MAX_RELATION)%f32
      && (distance >=? STRAIGHT_MIN_DISTANCE)%f32 in
    let g := classify c P roll in
    is_horizontal g = horizontal
    /\ is_vertical g = vertical
    /\ (horizontal = true ->
        g = if (fsum (map fst pts) >? F32.zero)%f32 then ARM_RIGHT else ARM_LEFT)
    /\ (vertical = true ->
        g = if (fsum (map snd pts) >? F32.zero)%f32 then ARM_UP else ARM_DOWN)
    /\ (horizontal = false -> vertical = false -> g = ARM_UNKNOWN).
Proof.
  intros c P roll HP HC HR. cbv zeta.
  unfold classify. rewrite HC. unfold classify_rest. rewrite HR.
  rewrite (end_distance_points c P HP).
  pose proof (straight_test_cases (stats c P)
                (dist (F32.zero, F32.zero) (last (points c P) (c (-2), c (-1)))))
    as T.
  cbv zeta in T. unfold relation in T.
  rewrite (stats_points c P HP) in T. cbv zeta in T.
  cbn [x_deviation y_deviation x_total y_total] in T.
  rewrite (stats_points c P HP). cbv zeta.
  destruct T as [T1 [T2 [T3 [T4 [T5 _]]]]].
  repeat split; assumption.
Qed.

(** C4 at work: the one-point cache [(0.5, 0.125)] is a movement to the
    right. *)
Lemma C4_witness :
  classify (gesture_cache one_point_cache) 1 F32.zero = ARM_RIGHT.
Proof.
  destruct (C4_straight_stage (gesture_cache one_point_cache) 1 F32.zero)
    as [_ [_ [H _]]]; [lia | reflexivity | vm_compute; reflexivity |].
  rewrite H; vm_compute; reflexivity.
Defined.

(** ** The circle test in terms of the recorded points *)

Lemma fold_left_map_l {A B C : Type} (f : A -> B -> A) (g : C -> B) :
  forall l a, fold_left f (map g l) a = fold_left (fun a x => f a (g x)) l a.
Proof. induction l as [| x l IH]; intros a; simpl; [reflexivity | apply IH]. Qed.

Lemma diameter_loop_points c P px py d :
  diameter_loop c P px py d = greatest_distance_from d (px, py) (points c P).
Proof.
  unfold diameter_loop, for_lt, greatest_distance_from, points, points_from.
  rewrite for_from_fold, fold_left_map_l. reflexivity.
Qed.

Lemma sample_loop_from c P stride :
  forall n j0 acc,
    let r := for_from n j0 (sample_step c P stride) acc in
    let sp := map (sample_point c stride) (zseq j0 n) in
    center_x r = fsum_from (center_x acc) (map fst sp)
    /\ center_y r = fsum_from (center_y acc) (map snd sp)
    /\ forall k,
         sample_point_diameters r k =
         if (j0 <=? k) && (k <? j0 + Z.of_nat n)
         then greatest_distance_from (sample_point_diameters acc k)
                (sample_point c stride k) (points c P)
         else sample_point_diameters acc k.
Proof.
  induction n as [| n IH]; intros j0 acc; cbv zeta.
  - simpl. repeat split.
    intros k. destruct (Z.leb_spec j0 k), (Z.ltb_spec k (j0 + 0));
      try reflexivity; lia.
  - cbn [for_from zseq map].
    destruct (IH (j0 + 1) (sample_step c P stride j0 acc)) as [X [Y D]].
    split; [exact X |]. split; [exact Y |].
    intros k. rewrite D. clear X Y D.
    unfold sample_step. cbn [sample_point_diameters]. unfold upd.
    rewrite diameter_loop_points.
    destruct (Z.eqb_spec k j0) as [E | E].
    + subst k.
      destruct (Z.leb_spec (j0 + 1) j0); [lia |]. cbn [andb].
      destruct (Z.leb_spec j0 j0); [| lia].
      destruct (Z.ltb_spec j0 (j0 + Z.of_nat (S n))); [| lia].
      reflexivity.
    + destruct (Z.leb_spec (j0 + 1) k), (Z.leb_spec j0 k),
        (Z.ltb_spec k (j0 + 1 + Z.of_nat n)),
        (Z.ltb_spec k (j0 + Z.of_nat (S n)));
        cbn [andb]; try reflexivity; lia.
Qed.

Lemma running_extreme_range better :
  forall l best idx i,
    let r := running_extreme better best idx i l in
    r = idx \/ i <= r < i + Z.of_nat (length l).
Proof.
  induction l as [| v l IH]; intros best idx i; cbv zeta.
  - left. reflexivity.
  - cbn [running_extreme length]. rewrite Nat2Z.inj_succ.
    destruct (better v best).
    + destruct (IH v i (i + 1)) as [E | R]; right; lia.
    + destruct (IH best idx (i + 1)) as [E | R]; [left; exact E | right; lia].
Qed.

Lemma track_loop_from c ctr_x ctr_y R :
  forall n i acc ix im,
    x_max_index acc = F32.of_Z ix ->
    x_min_index acc = F32.of_Z im ->
    let r := for_from n i (track_step c ctr_x ctr_y R) acc in
    let pts := points_from c i n in
    circular_deviation r =
      fsum_from (circular_deviation acc)
        (map (fun q => sqr (dist (ctr_x, ctr_y) q - R)%f32) pts)
    /\ x_max_index r =
       F32.of_Z (running_extreme F32.gtb (x_max acc) ix i (map fst pts))
    /\ x_min_index r =
       F32.of_Z (running_extreme F32.ltb (x_min acc) im i (map fst pts))
    /\ y_max_index r =
       running_extreme F32.gtb (y_max acc) (y_max_index acc) i (map snd pts).
Proof.
  induction n as [| n IH]; intros i acc ix im HX HM; cbv zeta.
  - simpl. repeat split; assumption.
  - cbn [for_from]. unfold points_from. cbn [zseq map running_extreme fst snd].
    fold (points_from c (i + 1) n).
    set (x := c (2 * i)). set (y := c (2 * i + 1)).
    destruct (IH (i + 1) (track_step c ctr_x ctr_y R i acc)
                (if (x >? x_max acc)%f32 then i else ix)
                (if (x <? x_min acc)%f32 then i else im))
      as [D [A [B C]]].
    + unfold track_step. cbn [x_max_index]. fold x.
      destruct (x >? x_max acc)%f32; [reflexivity | exact HX].
    + unfold track_step. cbn [x_min_index]. fold x.
      destruct (x <? x_min acc)%f32; [reflexivity | exact HM].
    + rewrite D, A, B, C. clear D A B C IH.
      unfold track_step.
      cbn [circular_deviation x_max x_min y_max y_max_index].
      fold x. fold y. unfold fsum_from. cbn [fold_left].
      repeat split.
      * destruct (x >? x_max acc)%f32; reflexivity.
      * destruct (x <? x_min acc)%f32; reflexivity.
      * destruct (y >? y_max acc)%f32; reflexivity.
Qed.

(** The conversion of the indices [0 .. 63] to [float] keeps their order
    (checked index by index). *)
Lemma of_Z_ltb_index (a b : Z) :
  0 <= a < 64 -> 0 <= b < 64 ->
  (F32.of_Z a <? F32.of_Z b)%f32 = (a <? b).
Proof.
  intros Ha Hb.
  assert (T : forallb
                (fun a => forallb
                   (fun b => Bool.eqb (F32.of_Z a <? F32.of_Z b)%f32 (a <? b))
                   (zseq 0 64))
                (zseq 0 64) = true) by (vm_compute; reflexivity).
  rewrite forallb_forall in T.
  specialize (T a (zseq_In 64 0 a ltac:(lia))).
  rewrite forallb_forall in T.
  specialize (T b (zseq_In 64 0 b ltac:(lia))).
  apply Bool.eqb_prop in T. exact T.
Qed.

Lemma zseq_In_inv : forall n i a, In a (zseq i n) -> i <= a < i + Z.of_nat n.
Proof.
  induction n as [| n IH]; intros i a H; [destruct H |].
  simpl in H. destruct H as [E | H]; [lia |].
  apply IH in H. lia.
Qed.

Lemma sample_points_cells c P :
  10 <= P ->
  map (sample_point c (Z.quot P GESTURE_CIRCLE_SAMPLES))
      (zseq 0 (Z.to_nat GESTURE_CIRCLE_SAMPLES))
  = sample_points (points c P).
Proof.
  intros H. unfold sample_points.
  rewrite (points_length c P) by lia.
  apply map_ext_in. intros j J. apply zseq_In_inv in J.
  change (Z.of_nat (Z.to_nat GESTURE_CIRCLE_SAMPLES)) with 10 in J.
  unfold GESTURE_CIRCLE_SAMPLES.
  rewrite Z.quot_div_nonneg by lia.
  assert (D : 10 * (P / 10) <= P) by (apply Z.mul_div_le; lia).
  assert (Q : 1 <= P / 10) by (apply Z.div_le_lower_bound; lia).
  rewrite points_nth by nia.
  unfold sample_point. rewrite !Z.mul_assoc. reflexivity.
Qed.

Lemma points_head c P :
  1 <= P -> hd (F32.zero, F32.zero) (points c P) = (c 0, c 1).
Proof.
  intros H. unfold points, points_from.
  destruct (Z.to_nat P) as [| n] eqn:E; [lia | reflexivity].
Qed.

Lemma fold_left_ext_in {A B : Type} (f g : A -> B -> A) :
  forall l,
    (forall x a, In x l -> f a x = g a x) ->
    forall a, fold_left f l a = fold_left g l a.
Proof.
  induction l as [| x l IH]; intros H a; simpl; [reflexivity |].
  rewrite (H x a) by (left; reflexivity).
  apply IH. intros y b Y. apply H. right. exact Y.
Qed.

(** The sample-point loop, in terms of the recorded points. *)
Lemma sample_loop_points c P :
  10 <= P ->
  let s := sample_loop c P (Z.quot P GESTURE_CIRCLE_SAMPLES) in
  let pts := points c P in
  center_x s = fsum (map fst (sample_points pts))
  /\ center_y s = fsum (map snd (sample_points pts))
  /\ fsum_from F32.zero
       (map (sample_point_diameters s) (zseq 0 (Z.to_nat GESTURE_CIRCLE_SAMPLES)))
     = fsum (map (fun p => greatest_distance p pts) (sample_points pts)).
Proof.
  intros H. cbv zeta. unfold sample_loop, for_lt.
  pose proof (sample_loop_from c P (Z.quot P GESTURE_CIRCLE_SAMPLES)
                (Z.to_nat GESTURE_CIRCLE_SAMPLES) 0
                {| center_x := F32.zero; center_y := F32.zero;
                   sample_point_diameters := fun _ => F32.zero |}) as L.
  cbv zeta in L. destruct L as [CX [CY DM]].
  cbn [center_x center_y sample_point_diameters] in CX, CY, DM.
  rewrite (sample_points_cells c P H) in CX, CY.
  split; [exact CX |]. split; [exact CY |].
  rewrite <- (sample_points_cells c P H). rewrite map_map.
  unfold fsum. f_equal.
  apply map_ext_in. intros j J. apply zseq_In_inv in J.
  rewrite DM.
  destruct (Z.leb_spec 0 j); [| lia].
  destruct (Z.ltb_spec j (0 + Z.of_nat (Z.to_nat GESTURE_CIRCLE_SAMPLES)));
    [| lia].
  reflexivity.
Qed.

(** The deviation loop, in terms of the recorded points. *)
Lemma track_loop_points c P ctr R :
  let t := track_loop c P (fst ctr) (snd ctr) R in
  let pts := points c P in
  circular_deviation t = fsum (map (fun q => sqr (dist ctr q - R)%f32) pts)
  /\ x_max_index t = F32.of_Z (max_x_index pts)
  /\ x_min_index t = F32.of_Z (min_x_index pts)
  /\ y_max_index t = max_y_index pts.
Proof.
  cbv zeta. unfold track_loop, for_lt.
  pose proof (track_loop_from c (fst ctr) (snd ctr) R (Z.to_nat P) 0
                {| circular_deviation := F32.zero;
                   x_max := F32.zero; x_max_index := F32.zero;
                   x_min := F32.of_Z 1000; x_min_index := F32.zero;
                   y_max := F32.zero; y_max_index := 0 |} 0 0
                eq_refl eq_refl) as L.
  cbv zeta in L. destruct L as [TD [TA [TB TC]]].
  cbn [circular_deviation x_max x_min y_max y_max_index] in TD, TA, TB, TC.
  unfold max_x_index, min_x_index, max_y_index, points, fsum.
  rewrite <- surjective_pairing in TD.
  split; [exact TD |]. split; [exact TA |]. split; [exact TB | exact TC].
Qed.

Lemma index_range (better : float -> float -> bool) (best : float)
    (l : list float) (P : Z) :
  Z.of_nat (length l) = P -> 1 <= P <= 64 ->
  0 <= running_extreme better best 0 0 l < 64.
Proof.
  intros L H.
  destruct (running_extreme_range better l best 0 0) as [E | E]; lia.
Qed.

(** What the circle block computes, in terms of the recorded points. *)
Lemma circle_fit_points c P :
  10 <= P <= 64 ->
  let pts := points c P in
  let f := circle_fit c P (Z.quot P GESTURE_CIRCLE_SAMPLES) in
  fit_average_radius f = estimated_radius pts
  /\ fit_circular_deviation f = radius_deviation pts
  /\ fit_ends_distance f = closure_distance pts
  /\ fit_clockwise f =
     clockwise_order (min_x_index pts) (max_y_index pts) (max_x_index pts).
Proof.
  intros H. cbv zeta.
  destruct (sample_loop_points c P (proj1 H)) as [CX [CY DM]].
  assert (RS : for_lt GESTURE_CIRCLE_SAMPLES
                 (fun j r =>
                    (r + sample_point_diameters
                           (sample_loop c P (Z.quot P GESTURE_CIRCLE_SAMPLES)) j)%f32)
                 F32.zero
               = fsum (map (fun p => greatest_distance p (points c P))
                           (sample_points (points c P)))).
  { rewrite <- DM. unfold for_lt. rewrite for_from_fold.
    unfold fsum_from. rewrite fold_left_map_l. reflexivity. }
  unfold circle_fit. cbv zeta.
  cbn [fit_average_radius fit_circular_deviation fit_ends_distance fit_clockwise].
  rewrite RS, CX, CY.
  assert (ER : (fsum (map (fun p => greatest_distance p (points c P))
                          (sample_points (points c P)))
                / (F32.of_Z GESTURE_CIRCLE_SAMPLES * F32.of_Z 2))%f32
               = estimated_radius (points c P))
    by (unfold estimated_radius; reflexivity).
  assert (EX : (fsum (map fst (sample_points (points c P)))
                / F32.of_Z GESTURE_CIRCLE_SAMPLES)%f32
               = fst (estimated_center (points c P)))
    by (unfold estimated_center; cbn [fst snd]; reflexivity).
  assert (EY : (fsum (map snd (sample_points (points c P)))
                / F32.of_Z GESTURE_CIRCLE_SAMPLES)%f32
               = snd (estimated_center (points c P)))
    by (unfold estimated_center; cbn [fst snd]; reflexivity).
  rewrite ER, EX, EY.
  pose proof (track_loop_points c P (estimated_center (points c P))
                (estimated_radius (points c P))) as T.
  cbv zeta in T. destruct T as [TD [TA [TB TC]]].
  rewrite TD, TA, TB, TC.
  split; [reflexivity |]. split; [| split].
  - unfold radius_deviation. rewrite (points_length c P) by lia. reflexivity.
  - unfold closure_distance, dist.
    rewrite (points_head c P) by lia.
    rewrite (points_last c P) by lia. cbn [fst snd]. reflexivity.
  - assert (L : forall f : Point -> float,
               Z.of_nat (length (map f (points c P))) = P).
    { intros f. rewrite length_map. apply points_length. lia. }
    rewrite !of_Z_ltb_index;
      try (apply (index_range _ _ _ P); [apply L | lia]).
    reflexivity.
Qed.

Lemma classify_rest_not_circle c P roll :
  is_circle (classify_rest c P roll) = false.
Proof.
  unfold classify_rest, rotation_test.
  destruct ((x_deviation (stats c P) <=? ROTATION_MAX_VARIANCE)%f32
            && (y_deviation (stats c P) <=? ROTATION_MAX_VARIANCE)%f32
            && (sqr roll >? sqr ROTATION_MIN_ANGLE)%f32).
  - destruct (roll <? F32.zero)%f32; reflexivity.
  - apply (straight_test_cases (stats c P) (end_distance c P)).
Qed.

(** The circle block as a function of the recorded points. *)
Lemma circle_test_points c P :
  0 <= P <= 64 ->
  let pts := points c P in
  circle_test c P =
  if (GESTURE_CIRCLE_SAMPLES <=? P)
     && ((estimated_diameter pts >=? CIRCLE_MIN_DIAMETER)%f32
         && (radius_deviation pts <=? CIRCLE_MAX_DEVIATION)%f32
         && (closure_distance pts <=? MAX_ENDS_DISCANCE)%f32)
  then Some (if clockwise_order (min_x_index pts) (max_y_index pts)
                                (max_x_index pts)
             then ARM_CIRCLE_CW else ARM_CIRCLE_CCW)
  else None.
Proof.
  intros HP. cbv zeta. unfold circle_test.
  destruct (Z.leb_spec GESTURE_CIRCLE_SAMPLES P) as [L | L];
    unfold GESTURE_CIRCLE_SAMPLES in L.
  - assert (Q : (1 <=? Z.quot P GESTURE_CIRCLE_SAMPLES) = true).
    { apply Z.leb_le. unfold GESTURE_CIRCLE_SAMPLES.
      rewrite Z.quot_div_nonneg by lia. apply Z.div_le_lower_bound; lia. }
    rewrite Q.
    destruct (circle_fit_points c P (conj L (proj2 HP))) as [FR [FD [FE FC]]].
    unfold circle_accepts. rewrite FR, FD, FE, FC.
    assert (ED : (estimated_radius (points c P) * F32.of_Z 2)%f32
                 = estimated_diameter (points c P))
      by (unfold estimated_diameter; reflexivity).
    rewrite ED. rewrite andb_true_l. reflexivity.
  - assert (Q : (1 <=? Z.quot P GESTURE_CIRCLE_SAMPLES) = false).
    { apply Z.leb_gt. unfold GESTURE_CIRCLE_SAMPLES.
      rewrite Z.quot_small by lia. lia. }
    rewrite Q. rewrite andb_false_l. reflexivity.
Qed.

(** C2, amended.  With [P] points stored ([P] at most 64, the capacity), the
    circle test is run only when [P >= 10].  It accepts exactly when the
    estimated diameter, which is twice the estimated radius and the
    estimated radius is the sum of the ten greatest distances divided by 20,
    is at least the minimum diameter, the root of the mean squared
    difference between the distance to the estimated centre and the
    estimated radius is at most the maximum deviation, and the distance
    between the first and the last point is at most the maximum ends
    distance.  On acceptance the label is circle-cw exactly when the indices
    kept for the running minimum of x (started at 1000), the running maximum
    of y and the running maximum of x (both started at 0; index 0 when no
    point beats the start value) are in one of the three clockwise orders,
    and circle-ccw otherwise; without acceptance the label is the one of the
    later tests. *)
Theorem C2_circle_stage :
  forall (c : cells) (P : Z) (roll : float),
    0 <= P <= 64 ->
    let pts := points c P in
    let accept :=
      (estimated_diameter pts >=? CIRCLE_MIN_DIAMETER)%f32
      && (radius_deviation pts <=? CIRCLE_MAX_DEVIATION)%f32
      && (closure_distance pts <=? MAX_ENDS_DISCANCE)%f32 in
    let g := classify c P roll in
    is_circle g = (GESTURE_CIRCLE_SAMPLES <=? P) && accept
    /\ (P < GESTURE_CIRCLE_SAMPLES -> circle_test c P = None)
    /\ (is_circle g = true ->
        g = if clockwise_order (min_x_index pts) (max_y_index pts)
                               (max_x_index pts)
            then ARM_CIRCLE_CW else ARM_CIRCLE_CCW)
    /\ (is_circle g = false -> g = classify_rest c P roll).
Proof.
  intros c P roll HP. cbv zeta.
  pose proof (circle_test_points c P HP) as CT. cbv zeta in CT.
  unfold classify. rewrite CT.
  destruct (Z.leb_spec GESTURE_CIRCLE_SAMPLES P) as [L | L];
    rewrite ?andb_true_l, ?andb_false_l.
  - destruct ((estimated_diameter (points c P) >=? CIRCLE_MIN_DIAMETER)%f32
              && (radius_deviation (points c P) <=? CIRCLE_MAX_DEVIATION)%f32
              && (closure_distance (points c P) <=? MAX_ENDS_DISCANCE)%f32).
    + destruct (clockwise_order (min_x_index (points c P))
                  (max_y_index (points c P)) (max_x_index (points c P)));
        (split; [reflexivity |]); (split; [lia |]);
        (split; [reflexivity | discriminate]).
    + rewrite classify_rest_not_circle.
      split; [reflexivity |]. split; [lia |].
      split; [discriminate | reflexivity].
  - rewrite classify_rest_not_circle.
    split; [reflexivity |]. split; [reflexivity |].
    split; [discriminate | reflexivity].
Qed.

(** C2 at work: the wide loop is a clockwise circle. *)
Lemma C2_witness :
  fst (processCacheData wide_loop_cache) = ARM_CIRCLE_CW.
Proof.
  unfold processCacheData. cbn [fst].
  change (Z.quot (gesture_cache_offset wide_loop_cache) 2) with 10.
  destruct (C2_circle_stage (gesture_cache wide_loop_cache) 10
              (gesture_roll_angle wide_loop_cache)) as [A [_ [B _]]]; [lia |].
  rewrite B.
  - vm_compute. reflexivity.
  - rewrite A. vm_compute. reflexivity.
Defined.

(** C2, counterexample.  The small loop has ten points; twice the mean of
    its greatest distances reaches the minimum diameter, its deviation (about
    the estimated radius, and also about the mean distance) is within the
    maximum and it is closed; yet the classifier does not return a circle:
    the diameter it tests is the mean of the greatest distances, which is
    below the minimum. *)
Lemma C2_counterexample :
  Z.quot (gesture_cache_offset small_loop_cache) 2 = 10
  /\ (twice_mean_greatest_distance small_loop_points >=? CIRCLE_MIN_DIAMETER)%f32 = true
  /\ (radius_deviation small_loop_points <=? CIRCLE_MAX_DEVIATION)%f32 = true
  /\ (population_std_dev
        (map (dist (estimated_center small_loop_points)) small_loop_points)
      <=? CIRCLE_MAX_DEVIATION)%f32 = true
  /\ (closure_distance small_loop_points <=? MAX_ENDS_DISCANCE)%f32 = true
  /\ (estimated_diameter small_loop_points >=? CIRCLE_MIN_DIAMETER)%f32 = false
  /\ fst (processCacheData small_loop_cache) = ARM_UNKNOWN.
Proof. repeat split; vm_compute; reflexivity. Qed.

(** ** The lock state machine *)

Arguments lock_enabled : simpl never.
Arguments pose_released : simpl never.
Arguments resetGestureCache : simpl never.
Arguments processCacheData : simpl never.
Arguments gestureBufferFull : simpl never.

(** The released branch: it toggles when a held pose has been seen since the
    last toggle ([lock_toggle] is false) or when the cache overflowed while
    unlocked, and then raises one lock-change event; otherwise it does
    nothing. *)
Lemma released_branch_spec (st : Controller) :
  let forced := negb (locked st) && gestureBufferFull (gestures st) in
  let st' := fst (released_branch st) in
  (negb (lock_toggle st) || forced = true ->
     locked st' = negb (locked st)
     /\ lock_toggle st' = true
     /\ snd (released_branch st) = [OnLockChange (negb (locked st))]
     /\ gestures st' =
        (if forced || locked st then resetGestureCache (gestures st)
         else gestures st))
  /\ (negb (lock_toggle st) || forced = false ->
     released_branch st = (st, [])).
Proof.
  destruct st as [m r ec es esy syn lt lk tc g].
  unfold released_branch. cbn [locked lock_toggle gestures].
  destruct lk, lt, (gestureBufferFull g) eqn:F; cbn;
    rewrite ?F; cbn; split; intros H; try discriminate H;
    repeat split; reflexivity.
Qed.

(** The held branch never changes [locked] and raises no lock-change event;
    it classifies at the first held sample after a toggle when unlocked. *)
Lemma held_branch_spec (st : Controller) :
  let st' := fst (held_branch st) in
  let ev := snd (held_branch st) in
  locked st' = locked st
  /\ lock_toggle st' = false
  /\ (lock_toggle st && negb (locked st) = true ->
      gestures st' = snd (processCacheData (gestures st))
      /\ ev = (let g := fst (processCacheData (gestures st)) in
               if GestureType_eqb g ARM_UNKNOWN then [] else [OnGesture g]))
  /\ (lock_toggle st && negb (locked st) = false ->
      gestures st' = gestures st /\ ev = []).
Proof.
  destruct st as [m r ec es esy syn lt lk tc g].
  unfold held_branch. cbn [locked lock_toggle gestures].
  destruct lk, lt; cbn;
    try (split; [reflexivity |]; split; [reflexivity |];
         split; intros H; [discriminate H | split; reflexivity]).
  destruct (processCacheData g) as [gesture g'] eqn:E. cbn.
  destruct (GestureType_eqb gesture ARM_UNKNOWN); cbn;
    (split; [reflexivity |]; split; [reflexivity |];
     split; intros H; [split; reflexivity | discriminate H]).
Qed.

Section ControllerFacts.

Variable asin : float -> float.
Variable scale : float.

Lemma refreshed_fields quat st :
  locked (refreshed scale quat st) = locked st
  /\ lock_toggle (refreshed scale quat st) = lock_toggle st
  /\ gestures (refreshed scale quat st) = gestures st
  /\ (forall now, lock_enabled (refreshed scale quat st) now = lock_enabled st now)
  /\ pose_released (refreshed scale quat st) = pose_released st.
Proof.
  unfold refreshed. destruct (refresh_init st); repeat split; reflexivity.
Qed.

Lemma handleIMUData_eq quat now st :
  handleIMUData asin scale quat now st =
  let st1 := refreshed scale quat st in
  if lock_enabled st now then
    let r := if pose_released st then released_branch st1
             else held_branch st1 in
    ((if negb (locked (fst r)) then
        set_gestures (record_sample asin scale quat st (gestures (fst r))) (fst r)
      else fst r), snd r)
  else (st1, []).
Proof.
  destruct (refreshed_fields quat st) as [_ [_ [_ [E R]]]].
  unfold handleIMUData. fold (refreshed scale quat st).
  rewrite E, R. cbv zeta.
  destruct (lock_enabled st now); [| reflexivity].
  unfold record_sample.
  destruct (pose_released st).
  - destruct (released_branch (refreshed scale quat st)) as [st2 ev]. reflexivity.
  - destruct (held_branch (refreshed scale quat st)) as [st2 ev]. reflexivity.
Qed.

(** The handler of muscle-activity samples leaves the lock alone. *)
Lemma handleEMGData_lock data t_start now st :
  let r := handleEMGData data t_start now st in
  locked (fst r) = locked st
  /\ lock_toggle (fst r) = lock_toggle st
  /\ gestures (fst r) = gestures st
  /\ (snd r = [] \/ snd r = [Vibrate 1]).
Proof.
  cbv zeta. unfold handleEMGData.
  destruct (timeConnected (updateCache data st) =? 0);
    match goal with
    | |- context [if ?b >? ?n then _ else _] => destruct (b >? n)
    end;
    try match goal with
      | |- context [if ?a >? ?b then _ else _] => destruct (a >? b)
      end;
    try match goal with
      | |- context [if negb ?a then _ else _] => destruct a
      end;
    cbn; repeat split; auto.
Qed.

End ControllerFacts.

Lemma GestureType_eqb_unknown (g : GestureType) :
  GestureType_eqb g ARM_UNKNOWN = false <-> g <> ARM_UNKNOWN.
Proof. destruct g; simpl; split; intros H; congruence. Qed.

Lemma lock_after_record (b : bool) (g : GestureCache) (st : Controller) :
  locked (if b then set_gestures g st else st) = locked st
  /\ lock_toggle (if b then set_gestures g st else st) = lock_toggle st.
Proof. destruct b; split; reflexivity. Qed.

(** ** Runs of orientation samples with the pose released *)

Lemma same_emg_refl st : same_emg st st.
Proof. repeat split. Qed.

Lemma same_emg_trans a b c : same_emg a b -> same_emg b c -> same_emg a c.
Proof.
  unfold same_emg. intros [A1 [A2 [A3 A4]]] [B1 [B2 [B3 B4]]].
  repeat split; congruence.
Qed.

Lemma same_emg_guards st st' :
  same_emg st st' ->
  (forall t, lock_enabled st' t = lock_enabled st t)
  /\ pose_released st' = pose_released st.
Proof.
  intros [A1 [A2 [A3 A4]]].
  unfold lock_enabled, pose_released, emg_ratio.
  rewrite A1, A2, A3, A4. split; reflexivity.
Qed.

Lemma released_branch_emg st : same_emg st (fst (released_branch st)).
Proof.
  destruct st as [m r ec es esy syn lt lk tc g].
  unfold released_branch, same_emg. cbn [locked lock_toggle gestures].
  destruct lk, lt, (gestureBufferFull g); cbn; repeat split; reflexivity.
Qed.

Lemma held_branch_emg st : same_emg st (fst (held_branch st)).
Proof.
  destruct st as [m r ec es esy syn lt lk tc g].
  unfold held_branch, same_emg. cbn [locked lock_toggle gestures].
  destruct lk, lt; cbn; try (repeat split; reflexivity).
  destruct (processCacheData g) as [gesture g']. cbn.
  destruct (GestureType_eqb gesture ARM_UNKNOWN); cbn; repeat split; reflexivity.
Qed.

Lemma set_gestures_emg b g st :
  same_emg st (if b : bool then set_gestures g st else st).
Proof. destruct b; repeat split; reflexivity. Qed.

Section Runs.

Variable asin : float -> float.
Variable scale : float.

Lemma refreshed_emg quat st : same_emg st (refreshed scale quat st).
Proof.
  unfold refreshed. destruct (refresh_init st); repeat split; reflexivity.
Qed.

Lemma handleIMUData_emg quat now st :
  same_emg st (fst (handleIMUData asin scale quat now st)).
Proof.
  rewrite handleIMUData_eq. cbv zeta.
  destruct (lock_enabled st now); cbn [fst]; [| apply refreshed_emg].
  apply (same_emg_trans _ (refreshed scale quat st)); [apply refreshed_emg |].
  destruct (pose_released st).
  - eapply same_emg_trans; [apply released_branch_emg | apply set_gestures_emg].
  - eapply same_emg_trans; [apply held_branch_emg | apply set_gestures_emg].
Qed.

(** A sample below the threshold that finds the toggle consumed and no
    overflow: nothing happens to the lock, and the sample is recorded when
    the controller is unlocked. *)
Lemma idle_step quat now st :
  lock_enabled st now = true ->
  pose_released st = true ->
  lock_toggle st = true ->
  negb (locked st) && gestureBufferFull (gestures st) = false ->
  let st' := fst (handleIMUData asin scale quat now st) in
  snd (handleIMUData asin scale quat now st) = []
  /\ locked st' = locked st
  /\ lock_toggle st' = true
  /\ gestures st' =
     if locked st then gestures st
     else record_sample asin scale quat st (gestures st).
Proof.
  intros E R T F. cbv zeta. rewrite handleIMUData_eq. cbv zeta.
  rewrite E, R. cbn [fst snd].
  destruct (refreshed_fields scale quat st) as [RL [RT [RG _]]].
  destruct (released_branch_spec (refreshed scale quat st)) as [_ RB].
  rewrite RL, RT, RG in RB. rewrite RB by (rewrite T, F; reflexivity).
  cbn [fst snd]. rewrite RL.
  destruct (locked st); cbn [negb]; rewrite ?RL, ?RT, ?RG; cbn [locked lock_toggle gestures set_gestures];
    rewrite ?RL, ?RT, ?RG; repeat split; try reflexivity; assumption.
Qed.

Lemma record_sample_offset quat st g :
  gesture_cache_offset (record_sample asin scale quat st g) =
  if gesture_cache_offset g <? GESTURE_CACHE_SIZE
  then gesture_cache_offset g + 2 else gesture_cache_offset g.
Proof. unfold record_sample. apply update_offset. Qed.

Lemma record_sample_inv quat st g :
  cache_inv g -> cache_inv (record_sample asin scale quat st g).
Proof. unfold record_sample. apply update_inv. Qed.

Lemma all_enabled_same st st' l :
  same_emg st st' -> all_enabled st l -> all_enabled st' l.
Proof.
  intros S H. destruct (same_emg_guards st st' S) as [G _].
  unfold all_enabled in *. rewrite Forall_forall in *.
  intros s I. rewrite G. apply H. exact I.
Qed.

(** Locked, with the toggle consumed: samples below the threshold do
    nothing. *)
Lemma run_locked_idle : forall l st,
  all_enabled st l -> pose_released st = true ->
  lock_toggle st = true -> locked st = true ->
  let r := run asin scale st (imu_inputs l) in
  snd r = [] /\ locked (fst r) = true /\ lock_toggle (fst r) = true.
Proof.
  induction l as [| [quat now] l IH]; intros st EN R T L; cbv zeta.
  - cbn. auto.
  - inversion EN as [| s l' E1 E2]; subst. cbn [snd] in E1.
    cbn [imu_inputs map run step fst snd].
    destruct (idle_step quat now st E1 R T) as [EV [L' [T' _]]];
      [rewrite L; reflexivity |].
    pose proof (handleIMUData_emg quat now st) as S.
    destruct (handleIMUData asin scale quat now st) as [st1 ev1].
    cbn [fst snd] in *. subst ev1.
    destruct (same_emg_guards st st1 S) as [_ RP].
    specialize (IH st1 (all_enabled_same st st1 l S E2)
                  ltac:(rewrite RP; exact R) T' ltac:(rewrite L'; exact L)).
    cbv zeta in IH. fold (imu_inputs l).
    destruct (run asin scale st1 (imu_inputs l)) as [st2 ev2].
    cbn [fst snd] in *. destruct IH as [A [B C]]. subst ev2. auto.
Qed.

(** The overflow step: unlocked, cache full, pose released. *)
Lemma overflow_step quat now st :
  lock_enabled st now = true ->
  locked st = false ->
  gestureBufferFull (gestures st) = true ->
  pose_released st = true ->
  let st' := fst (handleIMUData asin scale quat now st) in
  let ev := snd (handleIMUData asin scale quat now st) in
  gestures st' = resetGestureCache (gestures st)
  /\ locked st' = true
  /\ lock_toggle st' = true
  /\ ev = [OnLockChange true].
Proof.
  intros E L F R. cbv zeta.
  rewrite handleIMUData_eq. cbv zeta. rewrite E, R. cbn [fst snd].
  destruct (refreshed_fields scale quat st) as [RL [RT [RG _]]].
  destruct (released_branch_spec (refreshed scale quat st)) as [RB _].
  rewrite RL, RT, RG, L, F in RB. cbn [negb andb orb] in RB.
  destruct RB as [A [B [EV G]]]; [apply orb_true_r |].
  rewrite A. cbn [negb]. rewrite A, G, B, EV.
  split; [reflexivity |]. split; [reflexivity |]. split; reflexivity.
Qed.

(** The toggle step: pose released after a held sample. *)
Lemma toggle_step quat now st :
  lock_enabled st now = true ->
  pose_released st = true ->
  lock_toggle st = false ->
  let st' := fst (handleIMUData asin scale quat now st) in
  let ev := snd (handleIMUData asin scale quat now st) in
  locked st' = negb (locked st)
  /\ lock_toggle st' = true
  /\ ev = [OnLockChange (negb (locked st))]
  /\ (locked st = true ->
      gestures st' =
      record_sample asin scale quat st (resetGestureCache (gestures st))).
Proof.
  intros E R T. cbv zeta.
  rewrite handleIMUData_eq. cbv zeta. rewrite E, R. cbn [fst snd].
  destruct (refreshed_fields scale quat st) as [RL [RT [RG _]]].
  destruct (released_branch_spec (refreshed scale quat st)) as [RB _].
  rewrite RL, RT, RG in RB.
  destruct RB as [A [B [EV G]]]; [rewrite T; reflexivity |].
  destruct (lock_after_record
              (negb (locked (fst (released_branch (refreshed scale quat st)))))
              (record_sample asin scale quat st
                 (gestures (fst (released_branch (refreshed scale quat st)))))
              (fst (released_branch (refreshed scale quat st)))) as [A' B'].
  rewrite A', B', A, B, EV.
  split; [reflexivity |]. split; [reflexivity |]. split; [reflexivity |].
  intros U. rewrite U in G. rewrite orb_true_r in G.
  rewrite U. cbn [negb gestures set_gestures]. rewrite G. reflexivity.
Qed.

(** Unlocked, with the toggle consumed: samples below the threshold are
    recorded until the cache is full; the sample after that locks. *)
Lemma run_recording : forall l st,
  all_enabled st l -> pose_released st = true ->
  lock_toggle st = true -> locked st = false ->
  cache_inv (gestures st) ->
  let r := run asin scale st (imu_inputs l) in
  let filled :=
    gesture_cache_offset (gestures st) + 2 * Z.of_nat (length l) in
  (filled <= GESTURE_CACHE_SIZE ->
     snd r = [] /\ locked (fst r) = false /\ lock_toggle (fst r) = true
     /\ gesture_cache_offset (gestures (fst r)) = filled)
  /\ (GESTURE_CACHE_SIZE < filled ->
     snd r = [OnLockChange true] /\ locked (fst r) = true
     /\ lock_toggle (fst r) = true).
Proof.
  induction l as [| [quat now] l IH]; intros st EN R T L INV; cbv zeta.
  - cbn [imu_inputs map run fst snd length].
    destruct INV as [_ B]. split; [intros _; repeat split; auto; lia | lia].
  - inversion EN as [| s l' E1 E2]; subst. cbn [snd] in E1.
    cbn [imu_inputs map run step fst snd length]. fold (imu_inputs l).
    rewrite Nat2Z.inj_succ.
    pose proof (handleIMUData_emg quat now st) as S.
    destruct (same_emg_guards _ _ S) as [_ RP].
    pose proof (all_enabled_same _ _ l S E2) as EN'.
    destruct (gestureBufferFull (gestures st)) eqn:F.
    + (* full: this sample locks, the rest finds the controller locked *)
      destruct (overflow_step quat now st E1 L F R) as [_ [L' [T' EV]]].
      destruct (handleIMUData asin scale quat now st) as [st1 ev1].
      cbn [fst snd] in *. subst ev1.
      destruct (run_locked_idle l st1 EN' ltac:(rewrite RP; exact R) T' L')
        as [A [B C]].
      destruct (run asin scale st1 (imu_inputs l)) as [st2 ev2].
      cbn [fst snd] in *. subst ev2.
      apply Z.eqb_eq in F. split; [lia | auto].
    + (* room left: the sample is recorded *)
      destruct (idle_step quat now st E1 R T) as [EV [L' [T' G]]];
        [rewrite L, F; reflexivity |].
      rewrite L in G, L'.
      assert (O : gesture_cache_offset
                    (gestures (fst (handleIMUData asin scale quat now st)))
                  = gesture_cache_offset (gestures st) + 2).
      { rewrite G, record_sample_offset.
        apply Z.eqb_neq in F. destruct INV as [_ B].
        destruct (Z.ltb_spec (gesture_cache_offset (gestures st))
                    GESTURE_CACHE_SIZE); [reflexivity | lia]. }
      assert (INV' : cache_inv
                       (gestures (fst (handleIMUData asin scale quat now st)))).
      { rewrite G. apply record_sample_inv. exact INV. }
      destruct (handleIMUData asin scale quat now st) as [st1 ev1].
      cbn [fst snd] in *. subst ev1.
      destruct (IH st1 EN' ltac:(rewrite RP; exact R) T' L' INV') as [A B].
      destruct (run asin scale st1 (imu_inputs l)) as [st2 ev2].
      cbn [fst snd] in *. rewrite O in A, B.
      split; intros H.
      * destruct A as [A1 [A2 [A3 A4]]]; [lia |].
        subst ev2. repeat split; auto. lia.
      * destruct B as [B1 [B2 B3]]; [lia |]. subst ev2. auto.
Qed.

(** A run of samples below the threshold that starts with the toggle armed:
    one toggle; a second one only through overflow, when the run unlocked and
    is longer than the cache. *)
Lemma run_release : forall l st,
  l <> [] ->
  all_enabled st l -> pose_released st = true -> lock_toggle st = false ->
  let r := run asin scale st (imu_inputs l) in
  (locked st = false ->
     snd r = [OnLockChange true] /\ locked (fst r) = true)
  /\ (locked st = true ->
      2 * Z.of_nat (length l) <= GESTURE_CACHE_SIZE ->
      snd r = [OnLockChange false] /\ locked (fst r) = false
      /\ gesture_cache_offset (gestures (fst r)) = 2 * Z.of_nat (length l))
  /\ (locked st = true ->
      GESTURE_CACHE_SIZE < 2 * Z.of_nat (length l) ->
      snd r = [OnLockChange false; OnLockChange true]
      /\ locked (fst r) = true).
Proof.
  intros [| [quat now] l] st N EN R T; [congruence |]. cbv zeta.
  inversion EN as [| s l' E1 E2]; subst. cbn [snd] in E1.
  cbn [imu_inputs map run step fst snd length]. fold (imu_inputs l).
  rewrite Nat2Z.inj_succ.
  pose proof (handleIMUData_emg quat now st) as S.
  destruct (same_emg_guards _ _ S) as [_ RP].
  pose proof (all_enabled_same _ _ l S E2) as EN'.
  destruct (toggle_step quat now st E1 R T) as [L' [T' [EV G]]].
  destruct (locked st) eqn:L.
  - (* locked: the run unlocks, then records *)
    specialize (G eq_refl). cbn [negb] in L', EV.
    assert (INV' : cache_inv
                     (gestures (fst (handleIMUData asin scale quat now st)))).
    { rewrite G. apply record_sample_inv. apply reset_inv. }
    assert (O : gesture_cache_offset
                  (gestures (fst (handleIMUData asin scale quat now st))) = 2).
    { rewrite G, record_sample_offset. reflexivity. }
    destruct (handleIMUData asin scale quat now st) as [st1 ev1].
    cbn [fst snd] in *. subst ev1.
    destruct (run_recording l st1 EN' ltac:(rewrite RP; exact R) T' L' INV')
      as [A B].
    destruct (run asin scale st1 (imu_inputs l)) as [st2 ev2].
    cbn [fst snd] in *. rewrite O in A, B.
    split; [discriminate |]. split; intros _ H.
    + destruct A as [A1 [A2 [A3 A4]]]; [lia |]. subst ev2.
      repeat split; auto. lia.
    + destruct B as [B1 [B2 B3]]; [lia |]. subst ev2. auto.
  - (* unlocked: the run locks, and stays locked *)
    cbn [negb] in L', EV.
    destruct (handleIMUData asin scale quat now st) as [st1 ev1].
    cbn [fst snd] in *. subst ev1.
    destruct (run_locked_idle l st1 EN' ltac:(rewrite RP; exact R) T' L')
      as [A [B C]].
    destruct (run asin scale st1 (imu_inputs l)) as [st2 ev2].
    cbn [fst snd] in *. subst ev2.
    split; [auto |]. split; discriminate.
Qed.

End Runs.

(** C7, counterexample.  After calibration, a pose that locks and a pose
    that unlocks, 64 samples with the pose released fill the cache; the
    last toggle has consumed its edge ([lock_toggle] is true) and no sample
    at or above the threshold has arrived since.  One more sample below the
    threshold nevertheless toggles the lock and raises a lock-change event. *)
Lemma C7_counterexample :
  snd (scenario unlocked_idle_inputs)
    = [Vibrate 1; OnLockChange true; OnLockChange false]
  /\ lock_enabled unlocked_idle_state 4100 = true
  /\ pose_released unlocked_idle_state = true
  /\ lock_toggle unlocked_idle_state = true
  /\ locked unlocked_idle_state = false
  /\ locked (fst (handleIMUData asin_at_origin myohw_scale quat_rest 4100
                    unlocked_idle_state)) = true
  /\ snd (handleIMUData asin_at_origin myohw_scale quat_rest 4100
            unlocked_idle_state) = [OnLockChange true].
Proof. repeat split; vm_compute; reflexivity. Qed.

(** C7, amended.  A muscle-activity sample never changes the lock, and an
    orientation sample that arrives before the sync window and the settle
    delay are over changes nothing of it and raises no event.  After that: a
    sample whose ratio is not below the threshold leaves [locked] as it is
    and clears [lock_toggle]; a sample below the threshold that finds
    [lock_toggle] cleared toggles [locked] once, sets [lock_toggle] again and
    raises exactly one lock-change event carrying the new state, and when the
    new state is unlocked the cache is reset before this sample is recorded;
    a further sample below the threshold changes nothing and raises nothing,
    unless the controller is unlocked and the cache is full, in which case it
    toggles to locked with one lock-change event.  So a run of orientation
    samples below the threshold that starts with [lock_toggle] cleared raises
    one lock-change event when it locks; when it unlocks it raises one as
    long as its samples fit the cache (64), and a second one, locking again,
    when it is longer. *)
Theorem C7_lock_toggle :
  forall (asin : float -> float) (scale : float)
         (quat : Quat) (now : Z) (st : Controller),
    let st' := fst (handleIMUData asin scale quat now st) in
    let ev := snd (handleIMUData asin scale quat now st) in
    let forced := negb (locked st) && gestureBufferFull (gestures st) in
    (forall data t_start t,
        locked (fst (handleEMGData data t_start t st)) = locked st
        /\ lock_toggle (fst (handleEMGData data t_start t st)) = lock_toggle st
        /\ forall l, ~ In (OnLockChange l) (snd (handleEMGData data t_start t st)))
    /\ (lock_enabled st now = false ->
        locked st' = locked st /\ lock_toggle st' = lock_toggle st /\ ev = [])
    /\ (lock_enabled st now = true -> pose_released st = false ->
        locked st' = locked st
        /\ lock_toggle st' = false
        /\ forall l, ~ In (OnLockChange l) ev)
    /\ (lock_enabled st now = true -> pose_released st = true ->
        lock_toggle st = false ->
        locked st' = negb (locked st)
        /\ lock_toggle st' = true
        /\ ev = [OnLockChange (locked st')]
        /\ (locked st' = false ->
            gestures st' =
            record_sample asin scale quat st (resetGestureCache (gestures st))))
    /\ (lock_enabled st now = true -> pose_released st = true ->
        lock_toggle st = true -> forced = false ->
        locked st' = locked st /\ lock_toggle st' = true /\ ev = [])
    /\ (lock_enabled st now = true -> pose_released st = true ->
        forced = true ->
        locked st' = true /\ lock_toggle st' = true /\ ev = [OnLockChange true])
    /\ (forall l : list (Quat * Z),
        l <> [] -> all_enabled st l ->
        pose_released st = true -> lock_toggle st = false ->
        let r := run asin scale st (imu_inputs l) in
        (locked st = false ->
           snd r = [OnLockChange true] /\ locked (fst r) = true)
        /\ (locked st = true ->
            2 * Z.of_nat (length l) <= GESTURE_CACHE_SIZE ->
            snd r = [OnLockChange false] /\ locked (fst r) = false)
        /\ (locked st = true ->
            GESTURE_CACHE_SIZE < 2 * Z.of_nat (length l) ->
            snd r = [OnLockChange false; OnLockChange true]
            /\ locked (fst r) = true)).
Proof.
  intros asin scale quat now st. cbv zeta.
  rewrite handleIMUData_eq. cbv zeta.
  destruct (refreshed_fields scale quat st) as [RL [RT [RG [RE RP]]]].
  pose proof (released_branch_spec (refreshed scale quat st)) as RB.
  pose proof (held_branch_spec (refreshed scale quat st)) as HB.
  cbv zeta in RB, HB. rewrite RL, RT, RG in RB, HB.
  destruct RB as [RB1 RB2]. destruct HB as [HL [HT [HB1 HB2]]].
  split; [| split; [| split; [| split; [| split; [| split]]]]].
  - intros data t_start t.
    destruct (handleEMGData_lock data t_start t st) as [A [B [_ E]]].
    split; [exact A |]. split; [exact B |].
    intros l I. destruct E as [E | E]; rewrite E in I; simpl in I.
    + exact I.
    + destruct I as [I | I]; [discriminate I | exact I].
  - intros E. rewrite E. cbn [fst snd]. auto.
  - intros E R. rewrite E, R. cbn [fst snd].
    destruct (lock_after_record (negb (locked (fst (held_branch (refreshed scale quat st)))))
                (record_sample asin scale quat st
                   (gestures (fst (held_branch (refreshed scale quat st)))))
                (fst (held_branch (refreshed scale quat st)))) as [A B].
    rewrite A, B, HL, HT. split; [reflexivity |]. split; [reflexivity |].
    intros l I.
    destruct (lock_toggle st && negb (locked st)) eqn:C.
    + destruct (HB1 eq_refl) as [_ EV]. rewrite EV in I. cbv zeta in I.
      destruct (GestureType_eqb (fst (processCacheData (gestures st))) ARM_UNKNOWN);
        simpl in I; [exact I | destruct I as [I | I]; [discriminate I | exact I]].
    + destruct (HB2 eq_refl) as [_ EV]. rewrite EV in I. exact I.
  - intros E R T. rewrite E, R. cbn [fst snd].
    destruct RB1 as [A [B [EV G]]]; [rewrite T; reflexivity |].
    destruct (lock_after_record (negb (locked (fst (released_branch (refreshed scale quat st)))))
                (record_sample asin scale quat st
                   (gestures (fst (released_branch (refreshed scale quat st)))))
                (fst (released_branch (refreshed scale quat st)))) as [A' B'].
    rewrite A', B', A, B, EV.
    split; [reflexivity |]. split; [reflexivity |]. split; [reflexivity |].
    intros U. destruct (locked st); [| discriminate U].
    cbn [negb gestures set_gestures]. rewrite G.
    rewrite orb_true_r. reflexivity.
  - intros E R T F. rewrite E, R. cbn [fst snd].
    rewrite RB2 by (rewrite T, F; reflexivity). cbn [fst snd].
    destruct (lock_after_record (negb (locked (refreshed scale quat st)))
                (record_sample asin scale quat st
                   (gestures (refreshed scale quat st)))
                (refreshed scale quat st)) as [A B].
    rewrite A, B, RL, RT. auto.
  - intros E R F. rewrite E, R. cbn [fst snd].
    destruct RB1 as [A [B [EV G]]]; [rewrite F; apply orb_true_r |].
    destruct (lock_after_record (negb (locked (fst (released_branch (refreshed scale quat st)))))
                (record_sample asin scale quat st
                   (gestures (fst (released_branch (refreshed scale quat st)))))
                (fst (released_branch (refreshed scale quat st)))) as [A' B'].
    rewrite A', B', A, B, EV.
    apply andb_prop in F. destruct F as [F _].
    destruct (locked st); [discriminate F |]. auto.
  - intros l N EN R T.
    destruct (run_release asin scale l st N EN R T) as [X [Y Z]].
    split; [exact X |]. split; [| exact Z].
    intros L H. destruct (Y L H) as [Y1 [Y2 _]]. auto.
Qed.

(** C7 at work: before calibration an orientation sample leaves the lock
    alone, and in the state of the counterexample the overflow clause
    applies. *)
Lemma C7_witness :
  (locked (fst (handleIMUData asin_at_origin myohw_scale quat_rest 5
                  initial_controller)) = locked initial_controller
   /\ lock_toggle (fst (handleIMUData asin_at_origin myohw_scale quat_rest 5
                          initial_controller)) = lock_toggle initial_controller
   /\ snd (handleIMUData asin_at_origin myohw_scale quat_rest 5
             initial_controller) = [])
  /\ (locked (fst (handleIMUData asin_at_origin myohw_scale quat_rest 4100
                     unlocked_idle_state)) = true
      /\ lock_toggle (fst (handleIMUData asin_at_origin myohw_scale quat_rest 4100
                             unlocked_idle_state)) = true
      /\ snd (handleIMUData asin_at_origin myohw_scale quat_rest 4100
                unlocked_idle_state) = [OnLockChange true]).
Proof.
  split.
  - destruct (C7_lock_toggle asin_at_origin myohw_scale quat_rest 5
                initial_controller) as [_ [H _]].
    apply H. vm_compute. reflexivity.
  - destruct (C7_lock_toggle asin_at_origin myohw_scale quat_rest 4100
                unlocked_idle_state) as [_ [_ [_ [_ [_ [H _]]]]]].
    apply H; vm_compute; reflexivity.
Defined.

(** ** Overflow while unlocked *)

(** C8.  After sync and settle, when the controller is unlocked, the cache is
    full and a sample below the threshold arrives: the cache is reset and
    the sample is not recorded, the controller is locked again with
    [lock_toggle] set, one lock-change event with the state locked is raised
    and no gesture event. *)
Theorem C8_overflow_relock :
  forall (asin : float -> float) (scale : float)
         (quat : Quat) (now : Z) (st : Controller),
    lock_enabled st now = true ->
    locked st = false ->
    gestureBufferFull (gestures st) = true ->
    pose_released st = true ->
    let st' := fst (handleIMUData asin scale quat now st) in
    let ev := snd (handleIMUData asin scale quat now st) in
    gestures st' = resetGestureCache (gestures st)
    /\ gesture_cache_offset (gestures st') = 0
    /\ gesture_roll_angle (gestures st') = F32.zero
    /\ locked st' = true
    /\ lock_toggle st' = true
    /\ ev = [OnLockChange true]
    /\ forall g, ~ In (OnGesture g) ev.
Proof.
  intros asin scale quat now st E L F R. cbv zeta.
  rewrite handleIMUData_eq. cbv zeta. rewrite E, R. cbn [fst snd].
  destruct (refreshed_fields scale quat st) as [RL [RT [RG _]]].
  destruct (released_branch_spec (refreshed scale quat st)) as [RB _].
  rewrite RL, RT, RG, L, F in RB. cbn [negb andb orb] in RB.
  destruct RB as [A [B [EV G]]]; [apply orb_true_r |].
  rewrite A. cbn [negb]. rewrite A, G, B, EV.
  split; [reflexivity |]. split; [reflexivity |]. split; [reflexivity |].
  split; [reflexivity |]. split; [reflexivity |]. split; [reflexivity |].
  intros g I. simpl in I. destruct I as [I | I]; [discriminate I | exact I].
Qed.

(** C8 at work, in the state of the scenario that fills the cache. *)
Lemma C8_witness :
  gesture_cache_offset
    (gestures (fst (handleIMUData asin_at_origin myohw_scale quat_rest 4100
                      unlocked_idle_state))) = 0
  /\ locked (fst (handleIMUData asin_at_origin myohw_scale quat_rest 4100
                    unlocked_idle_state)) = true.
Proof.
  destruct (C8_overflow_relock asin_at_origin myohw_scale quat_rest 4100
              unlocked_idle_state) as [_ [A [_ [B _]]]];
    try (vm_compute; reflexivity).
  split; [exact A | exact B].
Defined.

(** ** The gesture callback *)

Lemma run_events asin scale :
  forall inputs st e,
    In e (snd (run asin scale st inputs)) ->
    exists st1 i, In e (snd (step asin scale st1 i)).
Proof.
  induction inputs as [| i inputs IH]; intros st e H.
  - destruct H.
  - cbn [run] in H.
    destruct (step asin scale st i) as [st1 ev1] eqn:S.
    destruct (run asin scale st1 inputs) as [st2 ev2] eqn:Rn.
    cbn [snd] in H. apply in_app_or in H. destruct H as [H | H].
    + exists st, i. rewrite S. exact H.
    + apply (IH st1 e). rewrite Rn. exact H.
Qed.

(** C9.  The gesture callback is raised by an orientation sample exactly
    when, after sync and settle, the sample is the first one with the pose
    held since the last toggle ([lock_toggle] set, ratio not below the
    threshold), the controller is unlocked and the classifier, run on the
    cache as it is, returns a label other than unknown; the event then
    carries that label and is the only event of the sample.  A
    muscle-activity sample raises none, so no sequence of inputs ever raises
    the callback with the unknown label. *)
Theorem C9_gesture_callback :
  forall (asin : float -> float) (scale : float),
    (forall st quat now g,
        In (OnGesture g) (snd (handleIMUData asin scale quat now st)) <->
        lock_enabled st now = true
        /\ pose_released st = false
        /\ lock_toggle st = true
        /\ locked st = false
        /\ g = fst (processCacheData (gestures st))
        /\ g <> ARM_UNKNOWN)
    /\ (forall st quat now g,
        In (OnGesture g) (snd (handleIMUData asin scale quat now st)) ->
        snd (handleIMUData asin scale quat now st) = [OnGesture g])
    /\ (forall st data t_start now g,
        ~ In (OnGesture g) (snd (handleEMGData data t_start now st)))
    /\ (forall st inputs,
        ~ In (OnGesture ARM_UNKNOWN) (snd (run asin scale st inputs))).
Proof.
  intros asin scale.
  assert (IMU_events : forall st quat now,
    snd (handleIMUData asin scale quat now st) =
    if lock_enabled st now then
      if pose_released st then snd (released_branch (refreshed scale quat st))
      else if lock_toggle st && negb (locked st) then
        (let g := fst (processCacheData (gestures st)) in
         if GestureType_eqb g ARM_UNKNOWN then [] else [OnGesture g])
      else []
    else []).
  { intros st quat now. rewrite handleIMUData_eq. cbv zeta.
    destruct (refreshed_fields scale quat st) as [RL [RT [RG _]]].
    destruct (held_branch_spec (refreshed scale quat st)) as [_ [_ [H1 H2]]].
    rewrite RL, RT, RG in H1, H2.
    destruct (lock_enabled st now); [| reflexivity].
    destruct (pose_released st); [reflexivity |]. cbn [snd].
    destruct (lock_toggle st && negb (locked st)).
    - apply H1. reflexivity.
    - apply H2. reflexivity. }
  assert (REL : forall st g, ~ In (OnGesture g) (snd (released_branch st))).
  { intros st g I.
    destruct (released_branch_spec st) as [A B].
    destruct (negb (lock_toggle st)
              || negb (locked st) && gestureBufferFull (gestures st)).
    - destruct (A eq_refl) as [_ [_ [EV _]]]. rewrite EV in I.
      destruct I as [I | I]; [discriminate I | exact I].
    - rewrite (B eq_refl) in I. exact I. }
  assert (P1 : forall st quat now g,
        In (OnGesture g) (snd (handleIMUData asin scale quat now st)) <->
        lock_enabled st now = true
        /\ pose_released st = false
        /\ lock_toggle st = true
        /\ locked st = false
        /\ g = fst (processCacheData (gestures st))
        /\ g <> ARM_UNKNOWN).
  { intros st quat now g. rewrite IMU_events.
    destruct (lock_enabled st now);
      [| split; [intros I; destruct I | intros [X _]; discriminate X]].
    destruct (pose_released st).
    - split; [intros I; destruct (REL _ _ I)
             | intros [_ [X _]]; discriminate X].
    - destruct (lock_toggle st), (locked st); cbn [andb negb];
        try (split; [intros I; destruct I
                    | intros [_ [_ [X [Y _]]]]; discriminate]).
      cbv zeta.
      destruct (GestureType_eqb (fst (processCacheData (gestures st))) ARM_UNKNOWN)
        eqn:U.
      + split; [intros I; destruct I |].
        intros [_ [_ [_ [_ [G N]]]]]. subst g.
        apply GestureType_eqb_unknown in N. congruence.
      + apply GestureType_eqb_unknown in U. split.
        * intros [I | I]; [| destruct I]. inversion I. subst g.
          repeat split; auto.
        * intros [_ [_ [_ [_ [G _]]]]]. subst g. left. reflexivity. }
  split; [exact P1 |]. split; [| split].
  - intros st quat now g I. pose proof I as J. apply P1 in J.
    destruct J as [E [R [T [L [G N]]]]].
    rewrite IMU_events, E, R, T, L. cbn [andb negb]. cbv zeta.
    apply GestureType_eqb_unknown in N. rewrite <- G, N. reflexivity.
  - intros st data t_start now g I.
    destruct (handleEMGData_lock data t_start now st) as [_ [_ [_ [E | E]]]];
      rewrite E in I; simpl in I.
    + exact I.
    + destruct I as [I | I]; [discriminate I | exact I].
  - intros st inputs I. apply run_events in I.
    destruct I as [st1 [[data t_start now | quat now] I]]; cbn [step] in I.
    + destruct (handleEMGData_lock data t_start now st1) as [_ [_ [_ [E | E]]]];
        rewrite E in I; simpl in I.
      * exact I.
      * destruct I as [I | I]; [discriminate I | exact I].
    + apply P1 in I. destruct I as [_ [_ [_ [_ [_ N]]]]]. apply N. reflexivity.
Qed.

(** C9 at work: in that state the orientation sample raises the callback
    with circle-cw; and the scenario that fills the cache with the arm at
    rest never raises it with unknown. *)
Lemma C9_witness :
  In (OnGesture ARM_CIRCLE_CW)
     (snd (handleIMUData asin_at_origin myohw_scale quat_rest 3700
             circle_drawn_state))
  /\ ~ In (OnGesture ARM_UNKNOWN) (snd (scenario unlocked_idle_inputs)).
Proof.
  destruct (C9_gesture_callback asin_at_origin myohw_scale) as [A [_ [_ D]]].
  split.
  - apply (proj2 (A circle_drawn_state quat_rest 3700 ARM_CIRCLE_CW)).
    repeat split; try (vm_compute; reflexivity). discriminate.
  - exact (D initial_controller unlocked_idle_inputs).
Defined.

(** ** The state after calibration *)

(** C10, on the code.  [locked] has no initialiser and so starts false.  The
    end of the sync window sets [isEMGSynced] and vibrates, and leaves
    [locked] false: the controller is unlocked.  The first orientation sample
    past the settle delay is therefore recorded, although no lock toggle has
    happened (the only event so far is the vibration).  This holds whatever
    [asin] and the orientation scale are. *)
Theorem C10_unlocked_after_sync :
  forall (asin : float -> float) (scale : float),
    let after_sync := fst (run asin scale initial_controller sync_inputs) in
    let after_sample := run asin scale initial_controller first_sample_inputs in
    locked initial_controller = false
    /\ isEMGSynced after_sync = true
    /\ locked after_sync = false
    /\ gesture_cache_offset (gestures after_sync) = 0
    /\ lock_enabled after_sync 3600 = true
    /\ snd after_sample = [Vibrate 1]
    /\ locked (fst after_sample) = false
    /\ gesture_cache_offset (gestures (fst after_sample)) = 2.
Proof. intros asin scale. cbv zeta. repeat split; vm_compute; reflexivity. Qed.

(** * Further properties of the code *)

(** ** clip *)

Lemma SFcompare_refl (a b : float) (c : comparison) :
  SFcompare a b = Some c -> SFcompare a a = Some Eq.
Proof.
  destruct a as [s | s | | s m e]; simpl.
  - reflexivity.
  - destruct s; reflexivity.
  - discriminate.
  - intros _. destruct s; rewrite Z.compare_refl, Pos.compare_cont_refl; reflexivity.
Qed.

Lemma SFcompare_refl_r (a b : float) (c : comparison) :
  SFcompare a b = Some c -> SFcompare b b = Some Eq.
Proof.
  intros H. apply (SFcompare_refl b a (CompOpp c)).
  rewrite (SFcompare_swap a b), H. reflexivity.
Qed.

Lemma SFcompare_total (a b : float) :
  SFcompare a a = Some Eq -> SFcompare b b = Some Eq ->
  exists c, SFcompare a b = Some c.
Proof.
  destruct a as [sa | sa | | sa ma ea], b as [sb | sb | | sb mb eb];
    simpl; intros A B; try discriminate; eauto.
Qed.

Lemma leb_refl (a b : float) (c : comparison) :
  SFcompare a b = Some c -> F32.leb a a = true.
Proof.
  intros H. unfold F32.leb, SFleb. rewrite (SFcompare_refl a b c H). reflexivity.
Qed.

Lemma ltb_leb (a b : float) : F32.ltb a b = true -> F32.leb a b = true.
Proof.
  unfold F32.ltb, F32.leb, SFltb, SFleb.
  destruct (SFcompare a b) as [[| |] |]; congruence.
Qed.

(** Among numbers, "not below" is "at least". *)
Lemma not_ltb_leb (a b : float) :
  SFcompare a a = Some Eq -> SFcompare b b = Some Eq ->
  F32.ltb a b = false -> F32.leb b a = true.
Proof.
  intros A B. destruct (SFcompare_total a b A B) as [c C].
  unfold F32.ltb, F32.leb, SFltb, SFleb.
  rewrite (SFcompare_swap a b), C. destruct c; simpl; congruence.
Qed.

Lemma leb_not_gtb (a b : float) : F32.leb a b = true -> F32.ltb b a = false.
Proof.
  unfold F32.ltb, F32.leb, SFltb, SFleb.
  rewrite (SFcompare_swap a b).
  destruct (SFcompare a b) as [[| |] |]; simpl; congruence.
Qed.

(** [clip] with bounds in order stays between them. *)
Lemma clip_between (n lower upper : float) :
  (lower <=? upper)%f32 = true ->
  (lower <=? clip n lower upper)%f32 = true
  /\ (clip n lower upper <=? upper)%f32 = true.
Proof.
  intros LU. unfold clip, max, min, F32.gtb.
  change SFltb with F32.ltb.
  assert (C : exists c, SFcompare lower upper = Some c).
  { unfold F32.leb, SFleb in LU.
    destruct (SFcompare lower upper) as [c |]; [eauto | discriminate]. }
  destruct C as [c C].
  pose proof (SFcompare_refl _ _ _ C) as RL.
  pose proof (SFcompare_refl_r _ _ _ C) as RU.
  destruct (n <? upper)%f32 eqn:NU.
  - assert (RN : SFcompare n n = Some Eq).
    { unfold F32.ltb, SFltb in NU.
      destruct (SFcompare n upper) as [d |] eqn:D; [| discriminate].
      exact (SFcompare_refl _ _ _ D). }
    destruct (n <? lower)%f32 eqn:NL.
    + split; [exact (leb_refl _ _ _ C) | exact LU].
    + split; [exact (not_ltb_leb _ _ RN RL NL) | exact (ltb_leb _ _ NU)].
  - rewrite (leb_not_gtb _ _ LU).
    split; [exact LU |].
    unfold F32.leb, SFleb. rewrite RU. reflexivity.
Qed.

(** Below the lower of two ordered bounds is below the upper one. *)
Lemma ltb_leb_trans (n lower upper : float) :
  (lower <=? upper)%f32 = true ->
  (n <? lower)%f32 = true -> (n <? upper)%f32 = true.
Proof.
  intros LU NL.
  destruct (n <? upper)%f32 eqn:NU; [reflexivity |]. exfalso.
  unfold F32.ltb, F32.leb, SFltb, SFleb in *.
  destruct n as [sn | sn | | sn mn en],
           lower as [sl | sl | | sl ml el],
           upper as [su | su | | su mu eu];
    simpl in *; try discriminate;
    try (destruct sn; discriminate);
    try (destruct sn, sl; discriminate);
    try (destruct sn, su; discriminate);
    try (destruct sl, su; discriminate);
    try (destruct sn, sl, su; discriminate).
  all: destruct sn, sl, su; simpl in *; try discriminate.
  all: destruct (Z.compare_spec en el), (Z.compare_spec el eu),
         (Z.compare_spec en eu); try discriminate; try lia.
  all: subst;
    change (Pos.compare_cont Eq ?a ?b) with (Pos.compare a b) in *.
  all: destruct (Pos.compare_spec mn ml), (Pos.compare_spec ml mu),
         (Pos.compare_spec mn mu); simpl in *; try discriminate; try lia.
Qed.

(** X1.  [clip] with bounds in order answers with a number between the bounds,
    whatever it is given: NaN and everything at or above [upper] become
    [upper], everything below [lower] becomes [lower], and the rest is
    returned as it is. *)
Theorem clip_bounds (n lower upper : float) :
  (lower <=? upper)%f32 = true ->
  let r := clip n lower upper in
  (lower <=? r)%f32 = true
  /\ (r <=? upper)%f32 = true
  /\ ((n <? upper)%f32 = false -> r = upper)
  /\ ((n <? lower)%f32 = true -> r = lower)
  /\ ((n <? upper)%f32 = true -> (n <? lower)%f32 = false -> r = n).
Proof.
  intros LU. cbv zeta.
  destruct (clip_between n lower upper LU) as [B1 B2].
  split; [exact B1 |]. split; [exact B2 |].
  unfold clip, max, min, F32.gtb. change SFltb with F32.ltb.
  split; [| split].
  - intros NU. rewrite NU. rewrite (leb_not_gtb _ _ LU). reflexivity.
  - intros NL. rewrite (ltb_leb_trans n lower upper LU NL), NL. reflexivity.
  - intros NU NL. rewrite NU, NL. reflexivity.
Qed.

Lemma clip_bounds_witness :
  clip S754_nan (F32.opp QUAT_BOUND) QUAT_BOUND = QUAT_BOUND
  /\ clip (S754_infinity true) (F32.opp QUAT_BOUND) QUAT_BOUND
     = F32.opp QUAT_BOUND.
Proof.
  assert (LU : (F32.opp QUAT_BOUND <=? QUAT_BOUND)%f32 = true)
    by (vm_compute; reflexivity).
  split.
  - destruct (clip_bounds S754_nan _ _ LU) as [_ [_ [U _]]].
    apply U. reflexivity.
  - destruct (clip_bounds (S754_infinity true) _ _ LU) as [_ [_ [_ [L _]]]].
    apply L. vm_compute. reflexivity.
Defined.

(** ** gestureToString *)

(** X4.  Every label has a name in the table, no name is empty, and two labels
    never share a name. *)
Theorem gestureToString_injective :
  (forall g, exists s, Names.gestureToString g = Some s /\ s <> String.EmptyString)
  /\ (forall g1 g2,
        Names.gestureToString g1 = Names.gestureToString g2 -> g1 = g2)
  /\ (forall g, 0 <= Names.gesture_index g
                < Z.of_nat (length Names.gesture_strings)).
Proof.
  split; [| split].
  - intros g. destruct g; eexists; (split; [reflexivity | discriminate]).
  - intros g1 g2 H. destruct g1, g2; try reflexivity; discriminate H.
  - intros g. destruct g; simpl; lia.
Qed.

(** ** The example sketch *)

(** X17.  One recognised gesture: [up_active] ends set when it was set and the
    gesture is not down, or when the gesture is up and [right_active] is
    clear; symmetrically for [right_active]; and when the two were not both
    set before, they are not both set after. *)
Theorem updateControls_exclusive :
  forall (g : GestureType) (cs : ControlStatus_t),
    up_active cs && right_active cs = false ->
    let cs' := fst (updateControls g cs) in
    up_active cs' && right_active cs' = false
    /\ up_active cs' =
       (up_active cs && negb (GestureType_eqb g ARM_DOWN))
       || (GestureType_eqb g ARM_UP && negb (right_active cs))
    /\ right_active cs' =
       (right_active cs && negb (GestureType_eqb g ARM_LEFT))
       || (GestureType_eqb g ARM_RIGHT && negb (up_active cs)).
Proof.
  intros g [u r] H. destruct g, u, r; try discriminate H; repeat split.
Qed.

Lemma updateControls_exclusive_witness :
  up_active (fst (updateControls ARM_RIGHT
                    {| up_active := true; right_active := false |})) = true
  /\ right_active (fst (updateControls ARM_RIGHT
                          {| up_active := true; right_active := false |}))
     = false.
Proof.
  destruct (updateControls_exclusive ARM_RIGHT
              {| up_active := true; right_active := false |} eq_refl)
    as [_ [U R]].
  rewrite U, R. split; reflexivity.
Defined.

(** ** updateCache: the smoothing window *)

Lemma firstn_window {A : Type} (d : A) :
  forall (a c : list A) (n k : nat),
    (n <= S k)%nat ->
    firstn n (a ++ d :: firstn k c) = firstn n (a ++ d :: c).
Proof.
  induction a as [| x a IH]; intros c n k H.
  - destruct n as [| n]; [reflexivity |]. cbn [app firstn].
    rewrite firstn_firstn. rewrite Nat.min_l by lia. reflexivity.
  - destruct n as [| n]; [reflexivity |]. cbn [app firstn].
    rewrite IH by lia. reflexivity.
Qed.

Lemma feed_cache : forall ds st,
  (length (emgCache st) <= 10)%nat ->
  emgCache (feed ds st) = firstn 10 (rev ds ++ emgCache st).
Proof.
  induction ds as [| d ds IH]; intros st H.
  - cbn [feed fold_left rev app]. rewrite firstn_all2 by exact H. reflexivity.
  - cbn [feed fold_left]. fold (feed ds (updateCache d st)).
    rewrite IH.
    + cbn [updateCache emgCache rev].
      change (Z.to_nat (EMG_CACHE_SIZE - 1)) with 9%nat.
      rewrite <- app_assoc. cbn [app].
      apply firstn_window. lia.
    + cbn [updateCache emgCache length].
      change (Z.to_nat (EMG_CACHE_SIZE - 1)) with 9%nat.
      rewrite length_firstn. lia.
Qed.

Lemma fold_sum {A : Type} (h : A -> Z) :
  forall l s, fold_left (fun s x => s + h x) l s = s + zsum (map h l).
Proof.
  induction l as [| x l IH]; intros s; simpl; [lia |].
  rewrite IH. unfold zsum. lia.
Qed.

Lemma map_nth_zseq {A : Type} (d : A) :
  forall (l : list A) (i : Z),
    0 <= i ->
    map (fun j => nth (Z.to_nat (j - i)) l d) (zseq i (length l)) = l.
Proof.
  induction l as [| x l IH]; intros i H; [reflexivity |].
  cbn [length zseq map]. rewrite Z.sub_diag. cbn [Z.to_nat nth]. f_equal.
  rewrite <- (IH (i + 1)) at 2 by lia.
  apply map_ext_in. intros j J. apply zseq_In_inv in J.
  replace (Z.to_nat (j - i)) with (S (Z.to_nat (j - (i + 1)))) by lia.
  reflexivity.
Qed.

(** A counting loop that adds [h] of the elements [0 .. length l - 1]. *)
Lemma for_sum_list {A : Type} (d : A) (h : A -> Z) (l : list A) (s : Z) :
  for_from (length l) 0 (fun j s => s + h (nth (Z.to_nat j) l d)) s
  = s + zsum (map h l).
Proof.
  rewrite for_from_fold.
  rewrite (fold_sum (fun j => h (nth (Z.to_nat j) l d))).
  f_equal. f_equal. rewrite <- (map_nth_zseq d l 0) at 2 by lia.
  rewrite map_map. apply map_ext. intros j. rewrite Z.sub_0_r. reflexivity.
Qed.

Lemma emgSum_total data st :
  let st' := updateCache data st in
  length (emgCache st') = 10%nat ->
  Forall (fun row => length row = 8%nat) (emgCache st') ->
  emgSum st' = abs_total (emgCache st').
Proof.
  cbv zeta. cbn [updateCache emgCache emgSum].
  set (cache := data :: firstn (Z.to_nat (EMG_CACHE_SIZE - 1)) (emgCache st)).
  intros L R. unfold for_lt.
  change (Z.to_nat EMG_CACHE_SIZE) with 10%nat. rewrite <- L.
  rewrite (for_from_fold _ (length cache) 0 0).
  transitivity (fold_left (fun s i => s + zsum (map Z.abs (nth (Z.to_nat i) cache [])))
                  (zseq 0 (length cache)) 0).
  - apply fold_left_ext_in. intros i s I. apply zseq_In_inv in I.
    assert (RL : length (nth (Z.to_nat i) cache []) = 8%nat).
    { rewrite Forall_forall in R. apply R. apply nth_In. lia. }
    change (Z.to_nat 8) with 8%nat. rewrite <- RL.
    apply (for_sum_list 0 Z.abs).
  - rewrite <- (for_from_fold
                  (fun i s => s + zsum (map Z.abs (nth (Z.to_nat i) cache [])))).
    rewrite (for_sum_list [] (fun row => zsum (map Z.abs row)) cache 0).
    unfold abs_total. lia.
Qed.

Lemma zsum_cons (x : Z) (l : list Z) : zsum (x :: l) = x + zsum l.
Proof. reflexivity. Qed.

Lemma zsum_app : forall l1 l2 : list Z, zsum (l1 ++ l2) = zsum l1 + zsum l2.
Proof.
  induction l1 as [| x l1 IH]; intros l2; [reflexivity |].
  cbn [app]. rewrite !zsum_cons, IH. lia.
Qed.

Lemma zsum_rev : forall l : list Z, zsum (rev l) = zsum l.
Proof.
  induction l as [| x l IH]; [reflexivity |].
  cbn [rev]. rewrite zsum_app, !zsum_cons, IH. unfold zsum at 2. simpl. lia.
Qed.

Lemma abs_row_bounds : forall row,
  Forall int8 row ->
  0 <= zsum (map Z.abs row) <= 128 * Z.of_nat (length row).
Proof.
  induction row as [| v row IH]; intros F; [simpl; lia |].
  inversion F as [| ? ? V F']; subst. specialize (IH F').
  unfold int8 in V. cbn [map length]. rewrite zsum_cons, Nat2Z.inj_succ. lia.
Qed.

Lemma abs_total_bounds : forall rows,
  Forall (fun row => length row = 8%nat /\ Forall int8 row) rows ->
  0 <= abs_total rows <= 1024 * Z.of_nat (length rows).
Proof.
  induction rows as [| row rows IH]; intros F;
    [unfold abs_total, zsum; simpl; lia |].
  inversion F as [| ? ? [L V] F']; subst. specialize (IH F').
  pose proof (abs_row_bounds row V) as R. rewrite L in R.
  unfold abs_total in *. cbn [map length]. rewrite zsum_cons, Nat2Z.inj_succ.
  lia.
Qed.

(** X8.  After ten vectors of eight [int8_t] went through [updateCache], the
    window holds exactly those ten, newest first, whatever it held before;
    [emgSum] is the sum of their absolute values, and lies between 0 and
    10240. *)
Theorem updateCache_window :
  forall (ds : list (list Z)) (st : Controller),
    length ds = 10%nat ->
    Forall (fun d => length d = 8%nat /\ Forall int8 d) ds ->
    let st' := feed ds st in
    emgCache st' = rev ds
    /\ emgSum st' = abs_total ds
    /\ 0 <= emgSum st' <= 10240.
Proof.
  intros ds st L F. cbv zeta.
  destruct ds as [| d ds]; [discriminate L |].
  assert (C : emgCache (feed (d :: ds) st) = rev (d :: ds)).
  { cbn [feed fold_left]. fold (feed ds (updateCache d st)).
    rewrite feed_cache.
    - cbn [updateCache emgCache rev].
      change (Z.to_nat (EMG_CACHE_SIZE - 1)) with 9%nat.
      rewrite firstn_app.
      cbn [length] in L.
      rewrite firstn_all2 by (rewrite length_rev; lia).
      rewrite length_rev.
      replace (10 - length ds)%nat with 1%nat by lia.
      reflexivity.
    - cbn [updateCache emgCache length].
      change (Z.to_nat (EMG_CACHE_SIZE - 1)) with 9%nat.
      rewrite length_firstn. lia. }
  assert (F' : Forall (fun row => length row = 8%nat /\ Forall int8 row)
                 (rev (d :: ds))).
  { rewrite Forall_forall in *. intros x I. apply F. apply in_rev. exact I. }
  (* the last vector fed determines the sum *)
  assert (S : emgSum (feed (d :: ds) st) = abs_total (rev (d :: ds))).
  { rewrite <- C.
    assert (LAST : exists d' st0, feed (d :: ds) st = updateCache d' st0).
    { clear. revert d st. induction ds as [| e ds IH]; intros d st.
      - exists d, st. reflexivity.
      - cbn [feed fold_left] in *. apply (IH e (updateCache d st)). }
    destruct LAST as [d' [st0 E]]. rewrite E in *.
    apply emgSum_total.
    - rewrite C, length_rev. exact L.
    - rewrite C. rewrite Forall_forall in *. intros x I.
      apply (F' x I). }
  assert (T : abs_total (rev (d :: ds)) = abs_total (d :: ds)).
  { unfold abs_total. rewrite map_rev. apply zsum_rev. }
  split; [exact C |]. split; [rewrite S; exact T |].
  rewrite S. pose proof (abs_total_bounds _ F') as B.
  rewrite length_rev, L in B. lia.
Qed.

Lemma updateCache_window_witness :
  emgSum (feed (repeat emg_strong 10) initial_controller) = 8000.
Proof.
  destruct (updateCache_window (repeat emg_strong 10) initial_controller)
    as [_ [S _]].
  - reflexivity.
  - repeat constructor; unfold int8; lia.
  - rewrite S. reflexivity.
Defined.

(** ** matrix.cpp *)

Lemma for_from_inv {A : Type} (P : A -> Prop) (body : Z -> A -> A) :
  forall n i a,
    (forall k x, i <= k < i + Z.of_nat n -> P x -> P (body k x)) ->
    P a -> P (for_from n i body a).
Proof.
  induction n as [| n IH]; intros i a H Pa; [exact Pa |].
  cbn [for_from]. apply IH.
  - intros k x K. apply H. lia.
  - apply H; [lia | exact Pa].
Qed.

Lemma mset_other (m : Matrix33) i j v i' j' :
  i' <> i \/ j' <> j -> mset m i j v i' j' = m i' j'.
Proof.
  intros H. unfold mset.
  destruct (Z.eqb_spec i' i) as [E1 | E1]; [| reflexivity].
  destruct (Z.eqb_spec j' j) as [E2 | E2]; [| reflexivity].
  lia.
Qed.

(** X5.  The product as the loops compute it: each entry inside the matrix is the
    sum, accumulated from zero in the order [k = 0, 1, 2], of the products of
    a row of [a] and a column of [b], whatever [result] held before; it is
    what [multiply_matrix_vector] gives for that column of [b]; and no entry
    outside the 3x3 matrix is written. *)
Theorem multiply_matrix_entries :
  forall (a b result : Matrix33) (v0 : cells) (i j : Z),
    (0 <= i < 3 -> 0 <= j < 3 ->
       multiply_matrix a b result i j
       = (F32.of_Z 0 + a i 0 * b 0 j + a i 1 * b 1 j + a i 2 * b 2 j)%f32
       /\ multiply_matrix a b result i j
          = multiply_matrix_vector a (fun k => b k j) v0 i)
    /\ (~ (0 <= i < 3 /\ 0 <= j < 3) ->
          multiply_matrix a b result i j = result i j).
Proof.
  intros a b result v0 i j. split.
  - intros Hi Hj.
    assert (Ci : i = 0 \/ i = 1 \/ i = 2) by lia.
    assert (Cj : j = 0 \/ j = 1 \/ j = 2) by lia.
    destruct Ci as [-> | [-> | ->]]; destruct Cj as [-> | [-> | ->]];
      split;
      cbv -[F32.add F32.mul F32.of_Z]; reflexivity.
  - intros H. unfold multiply_matrix, for_lt.
    apply (for_from_inv (fun r : Matrix33 => r i j = result i j));
      [| reflexivity].
    intros i1 r1 K1 P1.
    apply (for_from_inv (fun r : Matrix33 => r i j = result i j));
      [| exact P1].
    intros j1 r2 K2 P2.
    apply (for_from_inv (fun r : Matrix33 => r i j = result i j)).
    + intros k r3 K3 P3. rewrite mset_other; [exact P3 |].
      change (Z.of_nat (Z.to_nat 3)) with 3 in *. lia.
    + rewrite mset_other; [exact P2 |].
      change (Z.of_nat (Z.to_nat 3)) with 3 in *. lia.
Qed.

Lemma multiply_matrix_entries_witness :
  multiply_matrix (fun _ _ => F32.of_Z 2) (fun _ _ => F32.of_Z 3)
                  ZERO_MATRIX 1 2 = F32.of_Z 18.
Proof.
  destruct (multiply_matrix_entries (fun _ _ => F32.of_Z 2)
              (fun _ _ => F32.of_Z 3) ZERO_MATRIX (fun _ => F32.zero) 1 2)
    as [H _].
  destruct H as [E _]; [lia | lia |].
  rewrite E. vm_compute. reflexivity.
Defined.

Lemma mul_infinity (x : float) (s : bool) :
  is_finite (x * S754_infinity s)%f32 = false.
Proof. destruct x; reflexivity. Qed.

(** X6.  [inverse_matrix] does not look at the determinant: when it is zero (of
    either sign), [invdet] is an infinity and every entry of the result is an
    infinity or NaN. *)
Theorem inverse_matrix_singular :
  forall (m : Matrix33) (i j : Z),
    F32.is_zero (determinant m) = true ->
    0 <= i < 3 -> 0 <= j < 3 ->
    is_finite (inverse_matrix m i j) = false.
Proof.
  intros m i j D Hi Hj.
  assert (Ci : i = 0 \/ i = 1 \/ i = 2) by lia.
  assert (Cj : j = 0 \/ j = 1 \/ j = 2) by lia.
  unfold inverse_matrix. fold (determinant m).
  destruct (determinant m) as [s | | |]; try discriminate D.
  change (F32.of_Z 1 / S754_zero s)%f32 with (S754_infinity s).
  cbv zeta.
  destruct Ci as [-> | [-> | ->]]; destruct Cj as [-> | [-> | ->]];
    apply mul_infinity.
Qed.

Lemma inverse_matrix_singular_witness :
  is_finite (inverse_matrix ZERO_MATRIX 1 1) = false.
Proof.
  apply (inverse_matrix_singular ZERO_MATRIX 1 1); [reflexivity | lia | lia].
Defined.

(** ** Runs of the controller *)

Lemma run_cons asin scale st i l :
  run asin scale st (i :: l)
  = (fst (run asin scale (fst (step asin scale st i)) l),
     snd (step asin scale st i)
     ++ snd (run asin scale (fst (step asin scale st i)) l)).
Proof.
  cbn [run]. destruct (step asin scale st i) as [st1 ev1]. cbn [fst snd].
  destruct (run asin scale st1 l) as [st2 ev2]. reflexivity.
Qed.

Lemma lock_changes_app : forall a b,
  lock_changes (a ++ b) = lock_changes a ++ lock_changes b.
Proof.
  induction a as [| e a IH]; intros b; [reflexivity |].
  destruct e; cbn [app lock_changes]; rewrite IH; reflexivity.
Qed.

Lemma gesture_calls_app : forall a b,
  gesture_calls (a ++ b) = gesture_calls a ++ gesture_calls b.
Proof.
  induction a as [| e a IH]; intros b; [reflexivity |].
  destruct e; cbn [app gesture_calls]; rewrite IH; reflexivity.
Qed.

Lemma vibrations_app a b : vibrations (a ++ b) = (vibrations a + vibrations b)%nat.
Proof. unfold vibrations. rewrite filter_app, length_app. reflexivity. Qed.

Lemma last_cons {A : Type} : forall (l : list A) (x d : A),
  last (x :: l) d = last l x.
Proof.
  induction l as [| y l IH]; intros x d; [reflexivity |].
  change (last (x :: y :: l) d) with (last (y :: l) d).
  rewrite !IH. reflexivity.
Qed.

(** What one orientation sample does to the lock: nothing, or one toggle
    with its callback; it never makes the bridge vibrate. *)
Lemma handleIMUData_toggle asin scale quat now st :
  let r := handleIMUData asin scale quat now st in
  ((locked (fst r) = locked st /\ lock_changes (snd r) = [])
   \/ (locked (fst r) = negb (locked st)
       /\ lock_changes (snd r) = [negb (locked st)]))
  /\ vibrations (snd r) = 0%nat.
Proof.
  cbv zeta. rewrite handleIMUData_eq. cbv zeta.
  destruct (refreshed_fields scale quat st) as [RL [RT [RG _]]].
  destruct (lock_enabled st now); cbn [fst snd];
    [| split; [left; split; [exact RL | reflexivity] | reflexivity]].
  set (st1 := refreshed scale quat st) in *.
  assert (G : forall (b : bool) g x,
             locked (if b then set_gestures g x else x) = locked x).
  { intros b g x. destruct b; reflexivity. }
  rewrite G.
  destruct (pose_released st).
  - destruct (released_branch_spec st1) as [A B]. cbv zeta in A, B.
    destruct (negb (lock_toggle st1)
              || negb (locked st1) && gestureBufferFull (gestures st1)).
    + destruct (A eq_refl) as [L [_ [E _]]]. rewrite L, E, RL.
      split; [right; split; reflexivity | reflexivity].
    + rewrite (B eq_refl). cbn [fst snd].
      split; [left; split; [exact RL | reflexivity] | reflexivity].
  - destruct (held_branch_spec st1) as [L [_ [A B]]]. rewrite L, RL.
    destruct (lock_toggle st1 && negb (locked st1)).
    + destruct (A eq_refl) as [_ E]. rewrite E. cbv zeta.
      destruct (GestureType_eqb (fst (processCacheData (gestures st1)))
                                ARM_UNKNOWN);
        (split; [left; split; reflexivity | reflexivity]).
    + destruct (B eq_refl) as [_ E]. rewrite E.
      split; [left; split; reflexivity | reflexivity].
Qed.

Lemma step_lock_cases asin scale st i :
  (locked (fst (step asin scale st i)) = locked st
   /\ lock_changes (snd (step asin scale st i)) = [])
  \/ (locked (fst (step asin scale st i)) = negb (locked st)
      /\ lock_changes (snd (step asin scale st i)) = [negb (locked st)]).
Proof.
  destruct i as [data t_start now | quat now]; cbn [step].
  - left.
    destruct (handleEMGData_lock data t_start now st) as [E [_ [_ V]]].
    split; [exact E |]. destruct V as [V | V]; rewrite V; reflexivity.
  - exact (proj1 (handleIMUData_toggle asin scale quat now st)).
Qed.

(** X10.  In every run, each call of the lock-change callback reports the negation
    of what the call before it reported (the first one the negation of the
    initial [locked]), and the run ends with [locked] equal to the last
    reported value. *)
Theorem lock_callbacks_alternate :
  forall asin scale (inputs : list Input) (st : Controller),
    let r := run asin scale st inputs in
    alternates (locked st) (lock_changes (snd r))
    /\ locked (fst r) = last (lock_changes (snd r)) (locked st).
Proof.
  intros asin scale inputs. cbv zeta.
  induction inputs as [| i inputs IH]; intros st.
  - split; [exact I | reflexivity].
  - rewrite run_cons. cbn [fst snd]. rewrite lock_changes_app.
    destruct (IH (fst (step asin scale st i))) as [A L].
    destruct (step_lock_cases asin scale st i) as [[E C] | [E C]];
      rewrite C; cbn [app].
    + rewrite <- E. split; [exact A | exact L].
    + rewrite <- E. cbn [alternates]. rewrite last_cons.
      split; [split; [exact E | exact A] | exact L].
Qed.

(** *** Calibration *)

Lemma updateCache_fields data st :
  emgSync (updateCache data st) = emgSync st
  /\ isEMGSynced (updateCache data st) = isEMGSynced st
  /\ timeConnected (updateCache data st) = timeConnected st.
Proof. repeat split; reflexivity. Qed.

Lemma handleEMGData_sync data t_start now st :
  let r := handleEMGData data t_start now st in
  (isEMGSynced st = true -> isEMGSynced (fst r) = true)
  /\ emgSync st <= emgSync (fst r)
  /\ (timeConnected st <> 0 -> timeConnected (fst r) = timeConnected st)
  /\ vibrations (snd r)
     = (if isEMGSynced st then 0
        else if isEMGSynced (fst r) then 1 else 0)%nat.
Proof.
  cbv zeta. unfold handleEMGData.
  destruct (updateCache_fields data st) as [ES [EY ET]].
  set (st1 := updateCache data st) in *.
  destruct st1 as [m r ec es esy syn lt lk tc g].
  cbn [emgSync isEMGSynced timeConnected] in ES, EY, ET. subst esy syn tc.
  cbn [timeConnected].
  destruct (Z.eqb_spec (timeConnected st) 0) as [T0 | T0];
    cbn [set_sync timeConnected emgSync emgSum isEMGSynced];
    match goal with
    | |- context [if ?b >? ?n then _ else _] => destruct (b >? n)
    end;
    try match goal with
    | |- context [if es >? ?n then _ else _] =>
        destruct (Z.gtb_spec es n)
    end;
    cbn [fst snd set_sync timeConnected emgSync emgSum isEMGSynced];
    destruct (isEMGSynced st);
    cbn [negb fst snd set_sync timeConnected emgSync emgSum isEMGSynced];
    repeat split; try reflexivity; try lia; try congruence.
Qed.

(** X9.  In every run: [isEMGSynced] is never cleared; the reference [emgSync]
    never decreases; [timeConnected], once set, keeps its value; and the
    vibration that ends the calibration is requested exactly when
    [isEMGSynced] becomes true, so at most once. *)
Theorem calibration_latches :
  forall asin scale (inputs : list Input) (st : Controller),
    let r := run asin scale st inputs in
    (isEMGSynced st = true -> isEMGSynced (fst r) = true)
    /\ emgSync st <= emgSync (fst r)
    /\ (timeConnected st <> 0 -> timeConnected (fst r) = timeConnected st)
    /\ vibrations (snd r)
       = (if isEMGSynced st then 0
          else if isEMGSynced (fst r) then 1 else 0)%nat.
Proof.
  intros asin scale inputs. cbv zeta.
  induction inputs as [| i inputs IH]; intros st.
  - cbn [run fst snd]. split; [tauto |]. split; [lia |]. split; [tauto |].
    destruct (isEMGSynced st); reflexivity.
  - rewrite run_cons. cbn [fst snd]. rewrite vibrations_app.
    destruct (IH (fst (step asin scale st i))) as [A [B [C D]]].
    assert (S : (isEMGSynced st = true ->
                   isEMGSynced (fst (step asin scale st i)) = true)
                /\ emgSync st <= emgSync (fst (step asin scale st i))
                /\ (timeConnected st <> 0 ->
                      timeConnected (fst (step asin scale st i))
                      = timeConnected st)
                /\ vibrations (snd (step asin scale st i))
                   = (if isEMGSynced st then 0
                      else if isEMGSynced (fst (step asin scale st i))
                           then 1 else 0)%nat).
    { destruct i as [data t_start now | quat now]; cbn [step].
      - apply handleEMGData_sync.
      - destruct (handleIMUData_emg asin scale quat now st) as [_ [E1 [E2 E3]]].
        rewrite E1, E2, E3.
        rewrite (proj2 (handleIMUData_toggle asin scale quat now st)).
        split; [tauto |]. split; [lia |]. split; [tauto |].
        destruct (isEMGSynced st); reflexivity. }
    destruct S as [S1 [S2 [S3 S4]]].
    rewrite S4, D.
    split; [intros H; apply A, S1, H |].
    split; [lia |].
    split; [intros H; rewrite C; [apply S3, H | rewrite (S3 H); exact H] |].
    destruct (isEMGSynced st) eqn:Y0.
    + rewrite (S1 eq_refl). reflexivity.
    + destruct (isEMGSynced (fst (step asin scale st i))) eqn:Y1.
      * rewrite (A eq_refl). reflexivity.
      * reflexivity.
Qed.

(** *** The gesture cache in a run *)

Lemma update_outside asin x y roll g k :
  cache_inv g -> outside_cache k ->
  gesture_cache (updateGestureCache asin x y roll g) k = gesture_cache g k.
Proof.
  unfold cache_inv, outside_cache, GESTURE_CACHE_SIZE. intros [E B] K.
  unfold updateGestureCache, GESTURE_CACHE_SIZE.
  destruct (Z.ltb_spec (gesture_cache_offset g) 128) as [L | L];
    [| reflexivity].
  cbn [gesture_cache]. unfold upd.
  destruct (Z.eq_dec (gesture_cache_offset g) 127) as [O | O];
    [rewrite O in E; discriminate E |].
  destruct (Z.eqb_spec k (gesture_cache_offset g + 1)) as [K1 | K1]; [lia |].
  destruct (Z.eqb_spec k (gesture_cache_offset g)) as [K2 | K2]; [lia |].
  reflexivity.
Qed.

Lemma branch_gestures st pr :
  let b := if pr : bool then released_branch st else held_branch st in
  gestures (fst b) = gestures st
  \/ gestures (fst b) = resetGestureCache (gestures st)
  \/ gestures (fst b) = snd (processCacheData (gestures st)).
Proof.
  cbv zeta. destruct pr.
  - destruct (released_branch_spec st) as [A B]. cbv zeta in A, B.
    destruct (negb (lock_toggle st)
              || negb (locked st) && gestureBufferFull (gestures st)).
    + destruct (A eq_refl) as [_ [_ [_ G]]]. rewrite G.
      destruct (negb (locked st) && gestureBufferFull (gestures st)
                || locked st); [right; left | left]; reflexivity.
    + rewrite (B eq_refl). left. reflexivity.
  - destruct (held_branch_spec st) as [_ [_ [A B]]].
    destruct (lock_toggle st && negb (locked st)).
    + right. right. exact (proj1 (A eq_refl)).
    + left. exact (proj1 (B eq_refl)).
Qed.

Lemma cache_safe_refl g : cache_inv g -> cache_safe g g.
Proof. intros H. split; [exact H | reflexivity]. Qed.

Lemma cache_safe_trans a b c :
  cache_safe a b -> cache_safe b c -> cache_safe a c.
Proof.
  intros [_ A] [I B]. split; [exact I |].
  intros k K. rewrite (B k K). apply A. exact K.
Qed.

Lemma step_cache_safe asin scale st i :
  cache_inv (gestures st) ->
  cache_safe (gestures st) (gestures (fst (step asin scale st i))).
Proof.
  intros H. destruct i as [data t_start now | quat now]; cbn [step].
  - destruct (handleEMGData_lock data t_start now st) as [_ [_ [G _]]].
    rewrite G. apply cache_safe_refl. exact H.
  - rewrite handleIMUData_eq. cbv zeta.
    destruct (refreshed_fields scale quat st) as [_ [_ [RG _]]].
    destruct (lock_enabled st now); cbn [fst];
      [| rewrite RG; apply cache_safe_refl; exact H].
    pose proof (branch_gestures (refreshed scale quat st) (pose_released st))
      as B. cbv zeta in B. rewrite RG in B.
    set (b := if pose_released st
              then released_branch (refreshed scale quat st)
              else held_branch (refreshed scale quat st)) in *.
    assert (S0 : cache_safe (gestures st) (gestures (fst b))).
    { destruct B as [B | [B | B]]; rewrite B.
      - apply cache_safe_refl. exact H.
      - split; [apply reset_inv | reflexivity].
      - split; [apply process_inv | reflexivity]. }
    destruct (negb (locked (fst b))); [| exact S0].
    cbn [set_gestures gestures].
    apply (cache_safe_trans _ _ _ S0).
    split.
    + apply record_sample_inv. exact (proj1 S0).
    + intros k K. unfold record_sample.
      apply update_outside; [exact (proj1 S0) | exact K].
Qed.

(** X11.  In every run that starts with the write cursor even and inside the
    array, the cursor stays so, and no cell outside the array
    [gesture_cache] is ever written. *)
Theorem gesture_cache_safe :
  forall asin scale (inputs : list Input) (st : Controller),
    cache_inv (gestures st) ->
    let st' := fst (run asin scale st inputs) in
    cache_inv (gestures st')
    /\ forall k, outside_cache k ->
         gesture_cache (gestures st') k = gesture_cache (gestures st) k.
Proof.
  intros asin scale inputs. cbv zeta.
  induction inputs as [| i inputs IH]; intros st H.
  - exact (cache_safe_refl _ H).
  - rewrite run_cons. cbn [fst].
    pose proof (step_cache_safe asin scale st i H) as S.
    exact (cache_safe_trans _ _ _ S
             (IH (fst (step asin scale st i)) (proj1 S))).
Qed.

Lemma gesture_cache_safe_witness :
  cache_inv (gestures (fst (scenario (sync_inputs
                                      ++ [IMU quat_rest 3700;
                                          IMU quat_rest 3710])))).
Proof.
  exact (proj1 (gesture_cache_safe asin_at_origin myohw_scale
                  (sync_inputs ++ [IMU quat_rest 3700; IMU quat_rest 3710])
                  initial_controller initial_inv)).
Defined.

(** *** Which handler owns which state *)

Lemma handleEMGData_frame data t_start now st :
  let r := handleEMGData data t_start now st in
  inverseInitMatrix (fst r) = inverseInitMatrix st
  /\ refresh_init (fst r) = refresh_init st
  /\ gesture_calls (snd r) = [].
Proof.
  cbv zeta. unfold handleEMGData.
  destruct (timeConnected (updateCache data st) =? 0);
    match goal with
    | |- context [if ?b >? ?n then _ else _] => destruct (b >? n)
    end;
    try match goal with
      | |- context [if ?a >? ?b then _ else _] => destruct (a >? b)
      end;
    try match goal with
      | |- context [if negb ?a then _ else _] => destruct a
      end;
    cbn; repeat split; auto.
Qed.

Lemma released_branch_emgCache st :
  emgCache (fst (released_branch st)) = emgCache st.
Proof.
  destruct st as [m r ec es esy syn lt lk tc g].
  unfold released_branch. cbn [locked lock_toggle gestures].
  destruct lk, lt, (gestureBufferFull g); reflexivity.
Qed.

Lemma held_branch_emgCache st :
  emgCache (fst (held_branch st)) = emgCache st.
Proof.
  destruct st as [m r ec es esy syn lt lk tc g].
  unfold held_branch. cbn [locked lock_toggle gestures].
  destruct lk, lt; cbn; try reflexivity.
  destruct (processCacheData g) as [gesture g']. cbn.
  destruct (GestureType_eqb gesture ARM_UNKNOWN); reflexivity.
Qed.

Lemma handleIMUData_emgCache asin scale quat now st :
  emgCache (fst (handleIMUData asin scale quat now st)) = emgCache st.
Proof.
  rewrite handleIMUData_eq. cbv zeta.
  assert (R : emgCache (refreshed scale quat st) = emgCache st).
  { unfold refreshed. destruct (refresh_init st); reflexivity. }
  destruct (lock_enabled st now); cbn [fst]; [| exact R].
  assert (G : forall (b : bool) g x,
             emgCache (if b then set_gestures g x else x) = emgCache x).
  { intros b g x. destruct b; reflexivity. }
  rewrite G.
  destruct (pose_released st);
    [rewrite released_branch_emgCache | rewrite held_branch_emgCache];
    exact R.
Qed.

(** X12.  The two handlers work on disjoint state.  A run of muscle-activity
    samples alone leaves the reference orientation, the lock and the gesture
    cache as they were and calls neither callback; a run of orientation
    samples alone leaves the smoothing window, its sum, the reference level,
    the sync flag and the connection time as they were and never makes the
    bridge vibrate. *)
Theorem handlers_own_state :
  forall asin scale (inputs : list Input) (st : Controller),
    let r := run asin scale st inputs in
    (forallb is_emg inputs = true ->
       inverseInitMatrix (fst r) = inverseInitMatrix st
       /\ refresh_init (fst r) = refresh_init st
       /\ lock_toggle (fst r) = lock_toggle st
       /\ locked (fst r) = locked st
       /\ gestures (fst r) = gestures st
       /\ gesture_calls (snd r) = []
       /\ lock_changes (snd r) = [])
    /\ (forallb (fun i => negb (is_emg i)) inputs = true ->
          emgCache (fst r) = emgCache st
          /\ emgSum (fst r) = emgSum st
          /\ emgSync (fst r) = emgSync st
          /\ isEMGSynced (fst r) = isEMGSynced st
          /\ timeConnected (fst r) = timeConnected st
          /\ vibrations (snd r) = 0%nat).
Proof.
  intros asin scale inputs. cbv zeta.
  induction inputs as [| i inputs IH]; intros st.
  - split; intros _; repeat split; reflexivity.
  - rewrite run_cons. cbn [fst snd].
    rewrite gesture_calls_app, lock_changes_app, vibrations_app.
    destruct (IH (fst (step asin scale st i))) as [IE II].
    split; intros F; cbn [forallb] in F; apply andb_prop in F;
      destruct F as [F1 F2]; destruct i as [data t_start now | quat now];
      try discriminate F1; cbn [step] in *.
    + destruct (IE F2) as [A1 [A2 [A3 [A4 [A5 [A6 A7]]]]]].
      destruct (handleEMGData_lock data t_start now st) as [L1 [L2 [L3 V]]].
      destruct (handleEMGData_frame data t_start now st) as [M1 [M2 M3]].
      rewrite A1, A2, A3, A4, A5, A6, A7, M3.
      assert (LC : lock_changes (snd (handleEMGData data t_start now st)) = []).
      { destruct V as [V | V]; rewrite V; reflexivity. }
      rewrite LC. repeat split; assumption.
    + destruct (II F2) as [A1 [A2 [A3 [A4 [A5 A6]]]]].
      destruct (handleIMUData_emg asin scale quat now st) as [E1 [E2 [E3 E4]]].
      rewrite A1, A2, A3, A4, A5, A6.
      rewrite (proj2 (handleIMUData_toggle asin scale quat now st)).
      rewrite (handleIMUData_emgCache asin scale quat now st).
      repeat split; assumption.
Qed.

Lemma handlers_own_state_witness :
  locked (fst (scenario sync_inputs)) = locked initial_controller
  /\ gestures (fst (scenario sync_inputs)) = gestures initial_controller.
Proof.
  destruct (handlers_own_state asin_at_origin myohw_scale sync_inputs
              initial_controller) as [E _].
  destruct (E eq_refl) as [_ [_ [_ [L [G _]]]]].
  split; [exact L | exact G].
Defined.

(** *** Before the calibration is complete *)

Lemma step_synced asin scale st i :
  isEMGSynced st = true -> isEMGSynced (fst (step asin scale st i)) = true.
Proof.
  destruct i as [data t_start now | quat now]; cbn [step].
  - exact (proj1 (handleEMGData_sync data t_start now st)).
  - destruct (handleIMUData_emg asin scale quat now st) as [_ [_ [E _]]].
    rewrite E. tauto.
Qed.

Lemma step_sync_mono asin scale st i :
  emgSync st <= emgSync (fst (step asin scale st i)).
Proof.
  destruct i as [data t_start now | quat now]; cbn [step].
  - exact (proj1 (proj2 (handleEMGData_sync data t_start now st))).
  - destruct (handleIMUData_emg asin scale quat now st) as [_ [E _]].
    rewrite E. lia.
Qed.

Lemma run_synced asin scale : forall inputs st,
  isEMGSynced st = true -> isEMGSynced (fst (run asin scale st inputs)) = true.
Proof.
  induction inputs as [| i inputs IH]; intros st H; [exact H |].
  rewrite run_cons. cbn [fst]. apply IH, step_synced, H.
Qed.

Lemma run_sync_mono asin scale : forall inputs st,
  emgSync st <= emgSync (fst (run asin scale st inputs)).
Proof.
  induction inputs as [| i inputs IH]; intros st; [cbn; lia |].
  rewrite run_cons. cbn [fst].
  pose proof (step_sync_mono asin scale st i).
  pose proof (IH (fst (step asin scale st i))). lia.
Qed.

Lemma handleIMUData_unsynced asin scale quat now st :
  isEMGSynced st = false ->
  let r := handleIMUData asin scale quat now st in
  snd r = []
  /\ locked (fst r) = locked st
  /\ lock_toggle (fst r) = lock_toggle st
  /\ gestures (fst r) = gestures st.
Proof.
  intros H. cbv zeta. rewrite handleIMUData_eq. cbv zeta.
  unfold lock_enabled. rewrite H. cbn [andb fst snd].
  destruct (refreshed_fields scale quat st) as [RL [RT [RG _]]].
  repeat split; assumption.
Qed.

(** X13.  As long as the calibration has not completed ([isEMGSynced] still false
    at the end of the run), no callback has been called, and the lock and the
    gesture cache are as they were at the start: nothing is recorded,
    recognised or toggled. *)
Theorem nothing_before_sync :
  forall asin scale (inputs : list Input) (st : Controller),
    let r := run asin scale st inputs in
    isEMGSynced (fst r) = false ->
    gesture_calls (snd r) = []
    /\ lock_changes (snd r) = []
    /\ locked (fst r) = locked st
    /\ lock_toggle (fst r) = lock_toggle st
    /\ gestures (fst r) = gestures st.
Proof.
  intros asin scale inputs. cbv zeta.
  induction inputs as [| i inputs IH]; intros st H.
  - repeat split; reflexivity.
  - rewrite run_cons in *. cbn [fst snd] in *.
    rewrite gesture_calls_app, lock_changes_app.
    destruct (IH _ H) as [A1 [A2 [A3 [A4 A5]]]].
    rewrite A1, A2, A3, A4, A5.
    assert (U : isEMGSynced st = false).
    { destruct (isEMGSynced st) eqn:Y; [| reflexivity].
      pose proof (run_synced asin scale inputs _
                    (step_synced asin scale st i Y)) as Y'.
      rewrite Y' in H. discriminate H. }
    destruct i as [data t_start now | quat now]; cbn [step].
    + destruct (handleEMGData_lock data t_start now st) as [L1 [L2 [L3 V]]].
      destruct (handleEMGData_frame data t_start now st) as [_ [_ M]].
      rewrite M.
      assert (LC : lock_changes (snd (handleEMGData data t_start now st)) = []).
      { destruct V as [V | V]; rewrite V; reflexivity. }
      rewrite LC. repeat split; assumption.
    + destruct (handleIMUData_unsynced asin scale quat now st U)
        as [E [L1 [L2 L3]]].
      rewrite E. repeat split; assumption.
Qed.

Lemma nothing_before_sync_witness :
  gesture_calls (snd (scenario [IMU quat_rest 100; EMG emg_strong 150 150;
                                IMU quat_rest 9000])) = []
  /\ lock_changes (snd (scenario [IMU quat_rest 100; EMG emg_strong 150 150;
                                  IMU quat_rest 9000])) = []
  /\ locked (fst (scenario [IMU quat_rest 100; EMG emg_strong 150 150;
                            IMU quat_rest 9000])) = locked initial_controller
  /\ lock_toggle (fst (scenario [IMU quat_rest 100; EMG emg_strong 150 150;
                                 IMU quat_rest 9000]))
     = lock_toggle initial_controller
  /\ gestures (fst (scenario [IMU quat_rest 100; EMG emg_strong 150 150;
                              IMU quat_rest 9000]))
     = gestures initial_controller.
Proof.
  apply (nothing_before_sync asin_at_origin myohw_scale
           [IMU quat_rest 100; EMG emg_strong 150 150; IMU quat_rest 9000]
           initial_controller).
  vm_compute. reflexivity.
Defined.

(** *** A reference level of zero *)

Lemma of_Z_nonneg_sign (s : Z) :
  0 <= s ->
  match F32.of_Z s with
  | S754_zero b | S754_infinity b | S754_finite b _ _ => b = false
  | S754_nan => True
  end.
Proof.
  intros H. destruct s as [| p | p]; [reflexivity | | lia].
  unfold F32.of_Z, binary_normalize, binary_round, binary_round_aux.
  destruct (shl_align p 0
              (fexp F32.prec F32.emax (Z.pos (digits2_pos p) + 0)))
    as [mz ez].
  destruct (shr_fexp F32.prec F32.emax (Z.pos mz) ez loc_Exact) as [mrs e'].
  destruct (shr_fexp F32.prec F32.emax
              (round_nearest_even (shr_m mrs) (loc_of_shr_record mrs))
              e' loc_Exact) as [mrs' e''].
  destruct (shr_m mrs') as [| m | m]; try exact I; try reflexivity.
  destruct (e'' <=? F32.emax - F32.prec); reflexivity.
Qed.

(** With [emgSync] zero the quotient of line 102 is a division by zero: its
    result is +infinity or NaN, never below the threshold. *)
Lemma pose_released_zero_sync st :
  emgSync st = 0 -> 0 <= emgSum st -> pose_released st = false.
Proof.
  intros Z0 S. unfold pose_released, emg_ratio. rewrite Z0.
  change (F32.of_Z 0) with (S754_zero false).
  pose proof (of_Z_nonneg_sign (emgSum st) S) as P.
  destruct (F32.of_Z (emgSum st)) as [b | b | | b m e];
    try subst b; reflexivity.
Qed.

Lemma for_from_nonneg (body : Z -> Z -> Z) :
  (forall k s, 0 <= s -> 0 <= body k s) ->
  forall n i s, 0 <= s -> 0 <= for_from n i body s.
Proof.
  intros H n i s S.
  apply (for_from_inv (fun x => 0 <= x)); [| exact S].
  intros k x _. apply H.
Qed.

Lemma updateCache_sum_nonneg data st : 0 <= emgSum (updateCache data st).
Proof.
  cbn [updateCache emgSum]. unfold for_lt.
  apply for_from_nonneg; [| lia].
  intros i s S. apply for_from_nonneg; [| exact S].
  intros j s' S'. lia.
Qed.

Lemma handleEMGData_sum_nonneg data t_start now st :
  0 <= emgSum (fst (handleEMGData data t_start now st)).
Proof.
  pose proof (updateCache_sum_nonneg data st) as S.
  unfold handleEMGData.
  destruct (timeConnected (updateCache data st) =? 0);
    match goal with
    | |- context [if ?b >? ?n then _ else _] => destruct (b >? n)
    end;
    try match goal with
      | |- context [if ?a >? ?b then _ else _] => destruct (a >? b)
      end;
    try match goal with
      | |- context [if negb ?a then _ else _] => destruct a
      end;
    exact S.
Qed.

Lemma handleIMUData_held asin scale quat now st :
  pose_released st = false ->
  let r := handleIMUData asin scale quat now st in
  locked (fst r) = locked st /\ lock_changes (snd r) = [].
Proof.
  intros P. cbv zeta. rewrite handleIMUData_eq. cbv zeta. rewrite P.
  destruct (refreshed_fields scale quat st) as [RL _].
  destruct (lock_enabled st now); cbn [fst snd];
    [| split; [exact RL | reflexivity]].
  set (st1 := refreshed scale quat st) in *.
  assert (G : forall (b : bool) g x,
             locked (if b then set_gestures g x else x) = locked x).
  { intros b g x. destruct b; reflexivity. }
  rewrite G.
  destruct (held_branch_spec st1) as [L [_ [A B]]]. rewrite L, RL.
  split; [reflexivity |].
  destruct (lock_toggle st1 && negb (locked st1)).
  - destruct (A eq_refl) as [_ E]. rewrite E. cbv zeta.
    destruct (GestureType_eqb (fst (processCacheData (gestures st1)))
                              ARM_UNKNOWN); reflexivity.
  - destruct (B eq_refl) as [_ E]. rewrite E. reflexivity.
Qed.

(** X14.  When the reference level is still zero at the end of a run (no muscle
    activity was seen while calibrating), the quotient of line 102 was a
    division by zero throughout: the lock was never toggled and the
    lock-change callback never called. *)
Theorem zero_reference_never_toggles :
  forall asin scale (inputs : list Input) (st : Controller),
    0 <= emgSum st -> 0 <= emgSync st ->
    let r := run asin scale st inputs in
    emgSync (fst r) = 0 ->
    locked (fst r) = locked st /\ lock_changes (snd r) = [].
Proof.
  intros asin scale inputs. cbv zeta.
  induction inputs as [| i inputs IH]; intros st S Y H.
  - split; reflexivity.
  - rewrite run_cons in *. cbn [fst snd] in *. rewrite lock_changes_app.
    pose proof (step_sync_mono asin scale st i) as M1.
    pose proof (run_sync_mono asin scale inputs (fst (step asin scale st i)))
      as M2.
    assert (Y0 : emgSync st = 0) by lia.
    assert (S1 : 0 <= emgSum (fst (step asin scale st i))).
    { destruct i as [data t_start now | quat now]; cbn [step].
      - apply handleEMGData_sum_nonneg.
      - destruct (handleIMUData_emg asin scale quat now st) as [E _].
        rewrite E. exact S. }
    destruct (IH (fst (step asin scale st i)) S1 ltac:(lia) H) as [A1 A2].
    rewrite A1, A2, app_nil_r.
    destruct i as [data t_start now | quat now]; cbn [step].
    + destruct (handleEMGData_lock data t_start now st) as [L1 [_ [_ V]]].
      split; [exact L1 |]. destruct V as [V | V]; rewrite V; reflexivity.
    + apply handleIMUData_held. apply pose_released_zero_sync; assumption.
Qed.

Lemma zero_reference_never_toggles_witness :
  lock_changes
    (snd (scenario (map (fun t => EMG emg_quiet t t) [1; 2; 3001; 3002]
                    ++ [IMU quat_rest 3700; IMU quat_rest 3710;
                        IMU quat_rest 3720]))) = [].
Proof.
  refine (proj2 (zero_reference_never_toggles asin_at_origin myohw_scale
                   (map (fun t => EMG emg_quiet t t) [1; 2; 3001; 3002]
                    ++ [IMU quat_rest 3700; IMU quat_rest 3710;
                        IMU quat_rest 3720])
                   initial_controller _ _ _)).
  - vm_compute. discriminate.
  - vm_compute. discriminate.
  - vm_compute. reflexivity.
Defined.

(** ** processCacheData reads only what was recorded *)

Lemma points_ext c c' P :
  (forall k, 0 <= k < 2 * P -> c k = c' k) -> points c P = points c' P.
Proof.
  intros H. unfold points, points_from. apply map_ext_in.
  intros i I. apply zseq_In_inv in I.
  rewrite !H by lia. reflexivity.
Qed.

Lemma classify_ext c c' P roll :
  0 <= P <= 64 ->
  (forall k, 0 <= k < 2 * P -> c k = c' k) ->
  classify c P roll = classify c' P roll.
Proof.
  intros HP H.
  destruct (Z.eq_dec P 0) as [E | E];
    [subst P; rewrite !classify_empty; reflexivity |].
  pose proof (points_ext c c' P H) as PE.
  unfold classify.
  pose proof (circle_test_points c P HP) as C1. cbv zeta in C1.
  pose proof (circle_test_points c' P HP) as C2. cbv zeta in C2.
  rewrite C1, C2, PE.
  assert (R : classify_rest c P roll = classify_rest c' P roll).
  { unfold classify_rest.
    pose proof (stats_points c P (proj1 HP)) as S1. cbv zeta in S1.
    pose proof (stats_points c' P (proj1 HP)) as S2. cbv zeta in S2.
    rewrite S1, S2, PE.
    assert (D : end_distance c P = end_distance c' P).
    { unfold end_distance. rewrite !H by lia. reflexivity. }
    rewrite D. reflexivity. }
  rewrite R. reflexivity.
Qed.

(** X3.  The gesture [processCacheData] returns depends only on the cells below
    the write cursor and on the roll angle: whatever lies at or behind the
    cursor (what an earlier recording left there) has no influence. *)
Theorem processCacheData_ignores_stale :
  forall st st' : GestureCache,
    cache_inv st ->
    gesture_cache_offset st' = gesture_cache_offset st ->
    gesture_roll_angle st' = gesture_roll_angle st ->
    (forall k, 0 <= k < gesture_cache_offset st ->
               gesture_cache st' k = gesture_cache st k) ->
    fst (processCacheData st') = fst (processCacheData st).
Proof.
  intros st st' [_ B] O R H. unfold GESTURE_CACHE_SIZE in B.
  unfold processCacheData. cbn [fst]. rewrite O, R.
  assert (Q : Z.quot (gesture_cache_offset st) 2
              = gesture_cache_offset st / 2)
    by (apply Z.quot_div_nonneg; lia).
  rewrite Q.
  assert (M : 2 * (gesture_cache_offset st / 2) <= gesture_cache_offset st)
    by (apply Z.mul_div_le; lia).
  apply classify_ext.
  - split; [apply Z.div_pos; lia |].
    apply Z.div_le_upper_bound; lia.
  - intros k K. apply H. lia.
Qed.

Lemma processCacheData_ignores_stale_witness :
  fst (processCacheData one_point_cache_stale)
  = fst (processCacheData one_point_cache).
Proof.
  apply (processCacheData_ignores_stale one_point_cache one_point_cache_stale).
  - split; [reflexivity | unfold GESTURE_CACHE_SIZE; simpl; lia].
  - reflexivity.
  - reflexivity.
  - intros k K. cbn [gesture_cache_offset one_point_cache] in K.
    cbn [gesture_cache one_point_cache_stale]. unfold upd.
    destruct (Z.eqb_spec k 3) as [E | _]; [lia |].
    destruct (Z.eqb_spec k 2) as [E | _]; [lia |].
    reflexivity.
Defined.

(** ** updateGestureCache and the domain of asin *)

Lemma clip_in_asin_range (x : float) :
  in_asin_range (clip x (F32.opp CLIP_BOUND) CLIP_BOUND) = true.
Proof.
  assert (LU : (F32.opp CLIP_BOUND <=? CLIP_BOUND)%f32 = true)
    by (vm_compute; reflexivity).
  destruct (clip_between x _ _ LU) as [A B].
  unfold in_asin_range. rewrite A, B. reflexivity.
Qed.

(** X2.  [updateGestureCache] calls [asin] only on numbers between -0.99999 and
    0.99999, whatever [x] and [y] are (NaN and the infinities included): two
    [asin]s that agree on that range give the same cache. *)
Theorem updateGestureCache_asin_domain :
  forall (asin asin' : float -> float) (x y roll : float) (st : GestureCache),
    (forall u, in_asin_range u = true -> asin u = asin' u) ->
    let a := updateGestureCache asin x y roll st in
    let b := updateGestureCache asin' x y roll st in
    gesture_cache_offset a = gesture_cache_offset b
    /\ gesture_roll_angle a = gesture_roll_angle b
    /\ forall k, gesture_cache a k = gesture_cache b k.
Proof.
  intros asin asin' x y roll st H. cbv zeta. unfold updateGestureCache.
  destruct (gesture_cache_offset st <? GESTURE_CACHE_SIZE);
    cbn [gesture_cache gesture_cache_offset gesture_roll_angle];
    [| repeat split; reflexivity].
  split; [reflexivity |]. split; [reflexivity |].
  intros k. unfold upd.
  rewrite (H _ (clip_in_asin_range x)), (H _ (clip_in_asin_range y)).
  reflexivity.
Qed.

Lemma updateGestureCache_asin_domain_witness :
  gesture_cache (updateGestureCache asin_at_origin S754_nan
                   (S754_infinity true) F32.zero initial_cache) 0
  = gesture_cache (updateGestureCache asin_in_range_only S754_nan
                     (S754_infinity true) F32.zero initial_cache) 0
  /\ gesture_cache (updateGestureCache asin_at_origin S754_nan
                      (S754_infinity true) F32.zero initial_cache) 1
     = gesture_cache (updateGestureCache asin_in_range_only S754_nan
                        (S754_infinity true) F32.zero initial_cache) 1.
Proof.
  assert (H : forall u, in_asin_range u = true ->
                        asin_at_origin u = asin_in_range_only u).
  { intros u U. unfold asin_in_range_only. rewrite U. reflexivity. }
  destruct (updateGestureCache_asin_domain asin_at_origin asin_in_range_only
              S754_nan (S754_infinity true) F32.zero initial_cache H)
    as [_ [_ C]].
  split; apply C.
Defined.

(** ** The vector helpers of matrix.cpp *)

Lemma mul_comm (x y : float) : (x * y)%f32 = (y * x)%f32.
Proof.
  unfold F32.mul.
  destruct x as [sx | sx | | sx mx ex], y as [sy | sy | | sy my ey];
    simpl; try reflexivity; try (rewrite xorb_comm; reflexivity).
  rewrite xorb_comm, Pos.mul_comm, Z.add_comm. reflexivity.
Qed.

Lemma sub_self (x : float) : is_finite x = true -> (x - x)%f32 = F32.zero.
Proof.
  unfold F32.sub, F32.zero.
  destruct x as [s | s | | s m e]; try discriminate; intros _.
  - destruct s; reflexivity.
  - unfold SFsub.
    destruct (shl_align m e (Z.min e e)) as [m1 e1].
    rewrite Z.sub_diag. reflexivity.
Qed.



(** ** The sketch driven by the controller *)

Lemma dispatch_cons e ev cs :
  dispatch (e :: ev) cs
  = (fst (dispatch ev (fst (dispatch [e] cs))),
     snd (dispatch [e] cs) ++ snd (dispatch ev (fst (dispatch [e] cs)))).
Proof.
  cbn [dispatch].
  destruct (match e with
            | OnGesture g => updateControls g cs
            | OnLockChange b => (cs, updateLockOutput b)
            | Vibrate n => (cs, [BridgeVibrate n])
            end) as [cs1 out1].
  cbn [fst snd]. rewrite app_nil_r.
  destruct (dispatch ev cs1) as [cs2 out2]. reflexivity.
Qed.

Lemma printed_app : forall a b, printed (a ++ b) = printed a ++ printed b.
Proof.
  induction a as [| o a IH]; intros b; [reflexivity |].
  destruct o; cbn [app printed]; rewrite IH; reflexivity.
Qed.

Lemma pin_level_app pin a b init :
  pin_level pin (a ++ b) init = pin_level pin b (pin_level pin a init).
Proof. unfold pin_level. apply fold_left_app. Qed.

(** The sketch's outputs follow the events: the state keeps the two
    directions exclusive, every printed name is [gestureToString] of a
    reported gesture, and the lock LED shows the negation of the last
    reported lock state. *)
Lemma dispatch_spec : forall ev cs lvl,
  up_active cs && right_active cs = false ->
  let r := dispatch ev cs in
  up_active (fst r) && right_active (fst r) = false
  /\ printed (snd r) = map Names.gestureToString (gesture_calls ev)
  /\ pin_level LK_LED_PIN (snd r) lvl
     = negb (last (lock_changes ev) (negb lvl)).
Proof.
  induction ev as [| e ev IH]; intros cs lvl H; cbv zeta.
  - cbn [dispatch fst snd printed gesture_calls map lock_changes last].
    rewrite negb_involutive. split; [exact H |]. split; reflexivity.
  - rewrite dispatch_cons. cbn [fst snd].
    rewrite printed_app, pin_level_app.
    destruct e as [g | b | n].
    + assert (H1 : up_active (fst (dispatch [OnGesture g] cs))
                   && right_active (fst (dispatch [OnGesture g] cs)) = false).
      { destruct cs as [u r]. destruct g, u, r; try discriminate H; reflexivity. }
      destruct (IH (fst (dispatch [OnGesture g] cs))
                   (pin_level LK_LED_PIN (snd (dispatch [OnGesture g] cs)) lvl)
                   H1) as [A [B C]].
      cbv zeta in A, B, C. rewrite B, C.
      split; [exact A |]. split; [reflexivity |].
      cbn [lock_changes].
      destruct cs as [u r]. destruct g, u, r; reflexivity.
    + destruct (IH cs (pin_level LK_LED_PIN
                         (snd (dispatch [OnLockChange b] cs)) lvl) H)
        as [A [B C]].
      cbv zeta in A, B, C.
      change (fst (dispatch [OnLockChange b] cs)) with cs.
      rewrite B, C. split; [exact A |]. split; [reflexivity |].
      cbn [lock_changes]. rewrite last_cons.
      change (pin_level LK_LED_PIN (snd (dispatch [OnLockChange b] cs)) lvl)
        with (negb b).
      rewrite negb_involutive. reflexivity.
    + destruct (IH cs (pin_level LK_LED_PIN
                         (snd (dispatch [Vibrate n] cs)) lvl) H)
        as [A [B C]].
      cbv zeta in A, B, C.
      change (fst (dispatch [Vibrate n] cs)) with cs.
      rewrite B, C. split; [exact A |]. split; [reflexivity |]. reflexivity.
Qed.

Lemma run_gesture_calls_known asin scale : forall inputs st,
  Forall (fun g => g <> ARM_UNKNOWN)
         (gesture_calls (snd (run asin scale st inputs))).
Proof.
  induction inputs as [| i inputs IH]; intros st; [constructor |].
  rewrite run_cons. cbn [snd]. rewrite gesture_calls_app.
  apply Forall_app. split; [| apply IH].
  destruct i as [data t_start now | quat now]; cbn [step].
  - rewrite (proj2 (proj2 (handleEMGData_frame data t_start now st))).
    constructor.
  - rewrite handleIMUData_eq. cbv zeta.
    destruct (lock_enabled st now); cbn [snd]; [| constructor].
    set (st1 := refreshed scale quat st).
    destruct (pose_released st).
    + destruct (released_branch_spec st1) as [A B]. cbv zeta in A, B.
      destruct (negb (lock_toggle st1)
                || negb (locked st1) && gestureBufferFull (gestures st1)).
      * destruct (A eq_refl) as [_ [_ [E _]]]. rewrite E. constructor.
      * rewrite (B eq_refl). constructor.
    + destruct (held_branch_spec st1) as [_ [_ [A B]]].
      destruct (lock_toggle st1 && negb (locked st1)).
      * destruct (A eq_refl) as [_ E]. rewrite E. cbv zeta.
        destruct (GestureType_eqb (fst (processCacheData (gestures st1)))
                                  ARM_UNKNOWN) eqn:U; [constructor |].
        constructor; [| constructor].
        apply GestureType_eqb_unknown. exact U.
      * destruct (B eq_refl) as [_ E]. rewrite E. constructor.
Qed.

Lemma run_locked_last asin scale : forall inputs st,
  locked (fst (run asin scale st inputs))
  = last (lock_changes (snd (run asin scale st inputs))) (locked st).
Proof.
  induction inputs as [| i inputs IH]; intros st; [reflexivity |].
  rewrite run_cons. cbn [fst snd]. rewrite lock_changes_app, IH.
  destruct (step_lock_cases asin scale st i) as [[E C] | [E C]];
    rewrite C, E; cbn [app]; [reflexivity |].
  rewrite last_cons. reflexivity.
Qed.



(** *** The reference orientation and what is recorded *)

Lemma branch_refresh st pr :
  refresh_init st = false ->
  let b := if pr : bool then released_branch st else held_branch st in
  refresh_init (fst b) = negb pr && lock_toggle st
  /\ inverseInitMatrix (fst b) = inverseInitMatrix st.
Proof.
  intros R. cbv zeta.
  destruct st as [m r ec es esy syn lt lk tc g].
  cbn [refresh_init] in R. subst r. cbn [lock_toggle inverseInitMatrix].
  destruct pr.
  - unfold released_branch. cbn [locked lock_toggle gestures].
    destruct lk, lt, (gestureBufferFull g); split; reflexivity.
  - unfold held_branch. cbn [locked lock_toggle gestures].
    destruct lk, lt; cbn; try (split; reflexivity).
    destruct (processCacheData g) as [gesture g']. cbn.
    destruct (GestureType_eqb gesture ARM_UNKNOWN); split; reflexivity.
Qed.

Lemma refreshed_matrix scale quat st :
  refresh_init (refreshed scale quat st) = false
  /\ inverseInitMatrix (refreshed scale quat st)
     = if refresh_init st
       then inverse_matrix (unit_quaternion_to_matrix scale quat)
       else inverseInitMatrix st.
Proof.
  unfold refreshed. destruct (refresh_init st) eqn:R; split;
    try reflexivity. exact R.
Qed.

(** X15.  One orientation sample and the reference orientation: the sample's own
    orientation is taken as the reference exactly when [refresh_init] was
    set, and [refresh_init] is set again exactly by the first sample with the
    pose held since the last toggle, once the lock feature is enabled,
    whether the controller is locked or not: the next sample after the pose
    began becomes the new reference. *)
Theorem reference_orientation :
  forall asin scale (quat : Quat) (now : Z) (st : Controller),
    let r := handleIMUData asin scale quat now st in
    inverseInitMatrix (fst r)
    = (if refresh_init st
       then inverse_matrix (unit_quaternion_to_matrix scale quat)
       else inverseInitMatrix st)
    /\ refresh_init (fst r)
       = lock_enabled st now && negb (pose_released st) && lock_toggle st.
Proof.
  intros asin scale quat now st. cbv zeta.
  rewrite handleIMUData_eq. cbv zeta.
  destruct (refreshed_matrix scale quat st) as [RF RM].
  destruct (refreshed_fields scale quat st) as [_ [RT _]].
  destruct (lock_enabled st now); cbn [fst andb];
    [| split; [exact RM | exact RF]].
  destruct (branch_refresh (refreshed scale quat st) (pose_released st) RF)
    as [B1 B2]. cbv zeta in B1, B2.
  set (b := if pose_released st
            then released_branch (refreshed scale quat st)
            else held_branch (refreshed scale quat st)) in *.
  assert (G : forall (c : bool) g x,
             refresh_init (if c then set_gestures g x else x) = refresh_init x
             /\ inverseInitMatrix (if c then set_gestures g x else x)
                = inverseInitMatrix x).
  { intros c g x. destruct c; split; reflexivity. }
  destruct (G (negb (locked (fst b)))
              (record_sample asin scale quat st (gestures (fst b))) (fst b))
    as [G1 G2].
  rewrite G1, G2, B1, B2, RT. split; [exact RM | reflexivity].
Qed.

(** X16.  One orientation sample and the gesture cache: a sample that leaves the
    controller locked writes no cell of the cache; a sample that finds the
    lock feature disabled leaves the cache as it was; and a sample that finds
    it enabled and leaves the controller unlocked is recorded, after the
    reset or the classification the sample itself caused, if any. *)
Theorem recording_rule :
  forall asin scale (quat : Quat) (now : Z) (st : Controller),
    let r := handleIMUData asin scale quat now st in
    (locked (fst r) = true ->
       forall k, gesture_cache (gestures (fst r)) k
                 = gesture_cache (gestures st) k)
    /\ (lock_enabled st now = false -> gestures (fst r) = gestures st)
    /\ (lock_enabled st now = true -> locked (fst r) = false ->
          exists g0,
            gestures (fst r) = record_sample asin scale quat st g0
            /\ (g0 = gestures st
                \/ g0 = resetGestureCache (gestures st)
                \/ g0 = snd (processCacheData (gestures st)))).
Proof.
  intros asin scale quat now st. cbv zeta.
  rewrite handleIMUData_eq. cbv zeta.
  destruct (refreshed_fields scale quat st) as [RL [_ [RG _]]].
  destruct (lock_enabled st now); cbn [fst].
  - pose proof (branch_gestures (refreshed scale quat st) (pose_released st))
      as B. cbv zeta in B. rewrite RG in B.
    set (b := if pose_released st
              then released_branch (refreshed scale quat st)
              else held_branch (refreshed scale quat st)) in *.
    assert (L : forall (c : bool) g x,
               locked (if c then set_gestures g x else x) = locked x).
    { intros c g x. destruct c; reflexivity. }
    rewrite L.
    split; [| split; [discriminate |]].
    + intros LK. rewrite LK. cbn [negb].
      intros k. destruct B as [B | [B | B]]; rewrite B; reflexivity.
    + intros _ LK. rewrite LK. cbn [negb set_gestures gestures].
      exists (gestures (fst b)). split; [reflexivity | exact B].
  - split; [intros _ k; rewrite RG; reflexivity |].
    split; [intros _; exact RG | discriminate].
Qed.
